(** * download_stereo4d: a shallow embedding of the batch downloader

    The development follows [download_stereo4d.py] function by function.
    Python strings are [string]s (characters are code points below 256),
    integers are [Z], lists are [list], the ledger set is a [gset string],
    and the file store is a [gmap] from paths to file texts.  Everything the
    script does to the outside (launching [yt-dlp], sleeping, writing files,
    drawing random numbers) goes through one state-and-exception monad
    whose state records a chronological trace of the effects.  Console
    output ([print], [tqdm]) is not represented. *)

From Stdlib Require Import ZArith Ascii String List Lia DecimalString.
From stdpp Require Import base gmap strings list.

Local Open Scope Z_scope.

(** ** Exceptions and fallible results *)

Inductive exn : Type :=
| IndexError
| ValueError (msg : string)
| TypeError (msg : string)
| ZeroDivisionError
| FileNotFoundError (path : string)
| OSError (msg : string).

(** [str(e)] *)
Definition str_exn (e : exn) : string :=
  match e with
  | IndexError => "list index out of range"
  | ValueError msg => msg
  | TypeError msg => msg
  | ZeroDivisionError => "integer division or modulo by zero"
  | FileNotFoundError path =>
      "[Errno 2] No such file or directory: '" +:+ path +:+ "'"
  | OSError msg => msg
  end.

Inductive res (A : Type) : Type :=
| Ok (a : A)
| Raise (e : exn).
Arguments Ok {A} a.
Arguments Raise {A} e.

Definition res_bind {A B} (r : res A) (k : A → res B) : res B :=
  match r with
  | Ok a => k a
  | Raise e => Raise e
  end.

(** ** Python string and list primitives *)

Module Py.

(** The line feed, the carriage return and the tab, as one-character
    strings. *)
Definition LF : string := String "010" EmptyString.
Definition CR : string := String "013" EmptyString.
Definition TAB : string := String "009" EmptyString.

(** [s.startswith(p)] *)
Fixpoint startswith (p s : string) : bool :=
  match p, s with
  | EmptyString, _ => true
  | String a p', String b s' => if Ascii.eqb a b then startswith p' s' else false
  | String _ _, EmptyString => false
  end.

(** [s.endswith(p)] for a one-character [p] *)
Fixpoint endswith_char (c : ascii) (s : string) : bool :=
  match s with
  | EmptyString => false
  | String a EmptyString => Ascii.eqb a c
  | String _ s' => endswith_char c s'
  end.

(** [sub in s] *)
Fixpoint contains (sub s : string) : bool :=
  startswith sub s
  || match s with
     | EmptyString => false
     | String _ s' => contains sub s'
     end.

(** The pieces of [s] between the non-overlapping occurrences of [sep],
    found left to right.  [skip] counts the characters of a separator
    that was matched and is still to be passed over. *)
Fixpoint split_from (sep : string) (skip : nat) (s : string) : list string :=
  match s with
  | EmptyString => [EmptyString]
  | String c s' =>
      match skip with
      | S k => split_from sep k s'
      | O =>
          if startswith sep s
          then EmptyString :: split_from sep (Nat.pred (String.length sep)) s'
          else match split_from sep O s' with
               | piece :: pieces => String c piece :: pieces
               | [] => [String c EmptyString]
               end
      end
  end.

(** [s.split(sep)]: an empty separator is a [ValueError]. *)
Definition split (sep s : string) : res (list string) :=
  match sep with
  | EmptyString => Raise (ValueError "empty separator")
  | String _ _ => Ok (split_from sep O s)
  end.

(** [l[i]] for a non-negative literal index [i] *)
Definition index {A} (l : list A) (i : nat) : res A :=
  match l !! i with
  | Some a => Ok a
  | None => Raise IndexError
  end.

(** [sep.join(l)] *)
Fixpoint join (sep : string) (l : list string) : string :=
  match l with
  | [] => EmptyString
  | [s] => s
  | s :: l' => s +:+ sep +:+ join sep l'
  end.

(** [s.replace(old, new)] for a non-empty [old]: every occurrence, left
    to right, which is what joining the split pieces with [new] gives. *)
Definition replace (old new s : string) : string :=
  match old with
  | EmptyString => s
  | String _ _ => join new (split_from old O s)
  end.

(** [c.isspace()] on the code points below 256 *)
Definition isspace (c : ascii) : bool :=
  let n := N_of_ascii c in
  ((9 <=? n) && (n <=? 13) || (28 <=? n) && (n <=? 32)
   || (n =? 133) || (n =? 160))%N.

Fixpoint lstrip (s : string) : string :=
  match s with
  | EmptyString => EmptyString
  | String c s' => if isspace c then lstrip s' else s
  end.

Fixpoint rstrip (s : string) : string :=
  match s with
  | EmptyString => EmptyString
  | String c s' =>
      match rstrip s' with
      | EmptyString => if isspace c then EmptyString else String c EmptyString
      | r => String c r
      end
  end.

(** [s.strip()] *)
Definition strip (s : string) : string := rstrip (lstrip s).

(** Truth value of a string: non-empty. *)
Definition truthy (s : string) : bool :=
  match s with
  | EmptyString => false
  | String _ _ => true
  end.

(** Truth value of an optional argument ([None] or a string). *)
Definition truthy_opt (o : option string) : bool :=
  match o with
  | None => false
  | Some s => truthy s
  end.

(** [str(n)] for an integer *)
Definition str_int (n : Z) : string := NilZero.string_of_int (Z.to_int n).

(** [range(n)] *)
Definition range (n : Z) : list Z := map Z.of_nat (seq 0 (Z.to_nat n)).

(** [l[start:stop]] with Python's treatment of negative and
    out-of-range bounds. *)
Definition clamp_index (len i : Z) : Z :=
  if i <? 0 then Z.max 0 (i + len) else Z.min i len.

Definition slice {A} (l : list A) (start stop : Z) : list A :=
  let len := Z.of_nat (length l) in
  let lo := clamp_index len start in
  let hi := clamp_index len stop in
  take (Z.to_nat (hi - lo)) (drop (Z.to_nat lo) l).

(** What reading in text mode makes of the text a file holds
    ([open(p, 'r')], so [newline=None]): a carriage return becomes a line
    feed, and a line feed that follows a carriage return is dropped.
    [pending_cr] tells that the character before was a carriage return. *)
Fixpoint translate_newlines (pending_cr : bool) (s : string) : string :=
  match s with
  | EmptyString => EmptyString
  | String c s' =>
      if Ascii.eqb c "013" then String "010" (translate_newlines true s')
      else if Ascii.eqb c "010"
      then if pending_cr then translate_newlines false s'
           else String c (translate_newlines false s')
      else String c (translate_newlines false s')
  end.

Definition universal_newlines (s : string) : string := translate_newlines false s.

(** A text cut after every line feed: each piece ends with its line
    feed, except a last piece that the text does not terminate. *)
Fixpoint split_lines (s : string) : list string :=
  match s with
  | EmptyString => []
  | String c s' =>
      if Ascii.eqb c "010"
      then String c EmptyString :: split_lines s'
      else match split_lines s' with
           | l :: ls => String c l :: ls
           | [] => [String c EmptyString]
           end
  end.

(** The lines a text-mode file object yields for a file that holds [s]:
    the text after newline translation, cut after every line feed. *)
Definition lines (s : string) : list string := split_lines (universal_newlines s).

End Py.

(** ** os.path *)

Module OsPath.

(** [posixpath.join(a, b)] *)
Definition join (a b : string) : string :=
  if Py.startswith "/" b then b
  else if negb (Py.truthy a) || Py.endswith_char "/" a then a +:+ b
  else a +:+ "/" +:+ b.

(** [posixpath.basename(p)]: what follows the last slash. *)
Definition basename (p : string) : string :=
  List.last (Py.split_from "/" O p) EmptyString.

End OsPath.

(** ** The Identifier Normalizer *)

Definition extract_video_id_from_url (url : string) : res string :=
  if Py.contains "youtube.com/watch?v=" url then
    res_bind (Py.split "youtube.com/watch?v=" url) (λ parts,
    res_bind (Py.index parts 1) (λ tail,
    res_bind (Py.split "&" tail) (λ pieces,
    Py.index pieces 0)))
  else if Py.contains "youtu.be/" url then
    res_bind (Py.split "youtu.be/" url) (λ parts,
    res_bind (Py.index parts 1) (λ tail,
    res_bind (Py.split "?" tail) (λ pieces,
    Py.index pieces 0)))
  else Ok url.

(** ** The outside world

    One external process launch either runs to an exit code, with what it
    printed and the files it left behind, or fails to start. *)

Inductive launch : Type :=
| Exited (returncode : Z) (stdout stderr : string) (files : list (string * string))
| NotStarted (e : exn).

(** What [time.sleep] is called with: whole seconds drawn by
    [random.randint], or the back-off [2 ** attempt + random.uniform(0, 1)],
    whose float jitter is kept as the raw draw it comes from. *)
Inductive duration : Type :=
| Seconds (n : Z)
| Backoff (base : Z) (jitter : N).

(** The effects, in the order they happen.  [EBatch] and [EFetch] mark the
    entry into [download_batch] and [download_video]. *)
Inductive event : Type :=
| EInvoke (cmd : list string)
| ESleep (d : duration)
| EAppend (path text : string)
| EWrite (path text : string)
| EBatch (urls : list string)
| EFetch (url : string).

(** The store holds the regular files (directories are not represented);
    [launches], [draws] and [picks] are what the environment will answer to
    the next process launches, random draws and pool completions, each
    with the number already consumed. *)
Record world : Type := World {
  fs : gmap string string;
  launches : nat → launch;
  launched : nat;
  draws : nat → N;
  drawn : nat;
  picks : nat → nat;
  picked : nat;
  trace : list event
}.

Definition with_fs (f : gmap string string) (w : world) : world :=
  World f (launches w) (launched w) (draws w) (drawn w) (picks w) (picked w) (trace w).
Definition with_launched (n : nat) (w : world) : world :=
  World (fs w) (launches w) n (draws w) (drawn w) (picks w) (picked w) (trace w).
Definition with_drawn (n : nat) (w : world) : world :=
  World (fs w) (launches w) (launched w) (draws w) n (picks w) (picked w) (trace w).
Definition with_picked (n : nat) (w : world) : world :=
  World (fs w) (launches w) (launched w) (draws w) (drawn w) (picks w) n (trace w).
Definition emit (e : event) (w : world) : world :=
  World (fs w) (launches w) (launched w) (draws w) (drawn w) (picks w) (picked w)
        (trace w ++ [e]).

(** ** The monad of the script: state passing with exceptions *)

Definition M (A : Type) : Type := world → res A * world.

Definition ret {A} (a : A) : M A := λ w, (Ok a, w).
Definition raise {A} (e : exn) : M A := λ w, (Raise e, w).
Definition bind {A B} (m : M A) (k : A → M B) : M B :=
  λ w, match m w with
       | (Ok a, w') => k a w'
       | (Raise e, w') => (Raise e, w')
       end.
Definition lift {A} (r : res A) : M A := λ w, (r, w).

(** [try: m except Exception as e: h e] *)
Definition try_except {A} (m : M A) (h : exn → M A) : M A :=
  λ w, match m w with
       | (Ok a, w') => (Ok a, w')
       | (Raise e, w') => h e w'
       end.

Declare Scope py_scope.
Delimit Scope py_scope with py.
Notation "'let*' x := m 'in' k" := (bind m (λ x, k))
  (at level 10, x name, m at level 100, k at level 200) : py_scope.
Notation "'let*' ' p := m 'in' k" := (bind m (λ x, match x with p => k end))
  (at level 10, p pattern, m at level 100, k at level 200) : py_scope.
Notation "m >> k" := (bind m (λ _, k))
  (at level 100, k at level 200, right associativity) : py_scope.
Local Open Scope py_scope.

(** [for x in l: body], where the body answers [Some r] for [return r]
    and [None] to go on; falling off the end answers [None]. *)
Fixpoint for_in {A R} (l : list A) (body : A → M (option R)) : M (option R) :=
  match l with
  | [] => ret None
  | x :: l' =>
      let* r := body x in
      match r with
      | Some v => ret (Some v)
      | None => for_in l' body
      end
  end.

(** A loop that threads an accumulator and never returns early. *)
Fixpoint fold_in {A S} (l : list A) (acc : S) (body : S → A → M S) : M S :=
  match l with
  | [] => ret acc
  | x :: l' => let* acc' := body acc x in fold_in l' acc' body
  end.

Definition mark (e : event) : M unit := λ w, (Ok tt, emit e w).

(** [os.path.exists] *)
Definition os_path_exists (p : string) : M bool :=
  λ w, (Ok (match fs w !! p with Some _ => true | None => false end), w).

(** [open(p, 'r')] and reading the text *)
Definition read_text (p : string) : M string :=
  λ w, match fs w !! p with
       | Some text => (Ok text, w)
       | None => (Raise (FileNotFoundError p), w)
       end.

(** [with open(p, 'a') as f: f.write(text)].  The line separator of the
    platform is taken to be the line feed, so that writing stores the text
    as it is given; a carriage return written is translated when the file
    is read, by [Py.lines]. *)
Definition append_text (p text : string) : M unit :=
  λ w, (Ok tt, emit (EAppend p text)
                 (with_fs (<[p := default EmptyString (fs w !! p) +:+ text]> (fs w)) w)).

(** [with open(p, 'w') as f: ...] writing [text] in all *)
Definition write_text (p text : string) : M unit :=
  λ w, (Ok tt, emit (EWrite p text) (with_fs (<[p := text]> (fs w)) w)).

Definition leave_files (files : list (string * string)) (f : gmap string string)
  : gmap string string :=
  foldl (λ acc kv, <[kv.1 := kv.2]> acc) f files.

(** [subprocess.Popen(cmd, ...)] then [communicate()]: the return code
    and the two captured streams. *)
Definition popen (cmd : list string) : M (Z * string * string) :=
  λ w, let w1 := emit (EInvoke cmd) (with_launched (S (launched w)) w) in
       match launches w (launched w) with
       | Exited rc out err files => (Ok (rc, out, err), with_fs (leave_files files (fs w)) w1)
       | NotStarted e => (Raise e, w1)
       end.

(** The next raw draw of the random source. *)
Definition draw : M N :=
  λ w, (Ok (draws w (drawn w)), with_drawn (S (drawn w)) w).

(** [random.randint(a, b)]: an integer of [a..b], both ends included. *)
Definition random_randint (a b : Z) : M Z :=
  let* r := draw in ret (a + Z.of_N r mod (b - a + 1)).

Definition time_sleep (d : duration) : M unit := mark (ESleep d).

(** The pool hands back one of the [n] pending tasks. *)
Definition pick (n : nat) : M nat :=
  λ w, (Ok (picks w (picked w) `mod` n)%nat, with_picked (S (picked w)) w).

(** ** Reading the item list and the ledger *)

Definition stripped_lines (text : string) : list string :=
  filter (λ s, Py.truthy s = true) (map Py.strip (Py.lines text)).

Definition read_urls (file_path : string) : M (list string) :=
  let* text := read_text file_path in
  ret (stripped_lines text).

Definition read_downloaded_urls (file_path : string) : M (gset string) :=
  let* found := os_path_exists file_path in
  if found then
    let* text := read_text file_path in
    ret (list_to_set (stripped_lines text))
  else ret ∅.

(** ** The Item Fetcher *)

(** The dictionary [download_video] returns. *)
Record result : Type := Result {
  status : string;
  url_of : string;
  video_id_of : string;
  error : option string;
  details : option string
}.

Definition bot_check : string := "Sign in to confirm you're not a bot".
Definition unavailable : string := "Video unavailable".

Definition already_exists (url video_id : string) : result :=
  Result "already_exists" url video_id None None.
Definition success (url video_id : string) : result :=
  Result "success" url video_id None None.
Definition auth_required (url video_id stderr : string) : result :=
  Result "error" url video_id
    (Some "Authentication required. Use --cookies-file or --cookies-from-browser")
    (Some stderr).
Definition video_unavailable (url video_id output : string) : result :=
  Result "error" url video_id (Some "Video unavailable (removed or private)")
    (Some output).
Definition retries_exhausted (url video_id : string) (retry_count : Z) (output : string)
  : result :=
  Result "error" url video_id
    (Some ("Failed after " +:+ Py.str_int retry_count +:+ " attempts")) (Some output).
Definition invocation_failure (url video_id : string) (e : exn) : result :=
  Result "error" url video_id (Some (str_exn e)) None.

Definition cookie_args (cookies_file cookies_from_browser : option string) : list string :=
  (match cookies_file with
   | Some f => if Py.truthy f then ["--cookies"; f] else []
   | None => []
   end)
  ++ (match cookies_from_browser with
      | Some b => if Py.truthy b then ["--cookies-from-browser"; b] else []
      | None => []
      end).

Definition primary_cmd (url output_template : string)
    (cookies_file cookies_from_browser : option string) : list string :=
  ["yt-dlp"; url; "-f"; "313"; "-o"; output_template; "--no-playlist";
   "--no-check-certificate"; "--ignore-errors"]
  ++ cookie_args cookies_file cookies_from_browser.

Definition fallback_cmd (url output_template : string)
    (cookies_file cookies_from_browser : option string) : list string :=
  ["yt-dlp"; url; "-f"; "bestvideo[ext=webm]"; "-o"; output_template; "--no-playlist";
   "--no-check-certificate"; "--extractor-arg"; "youtube:player_client=android_vr"]
  ++ cookie_args cookies_file cookies_from_browser.

(** [time.sleep((2 ** attempt) + random.uniform(0, 1))] *)
Definition backoff (attempt : Z) : M unit :=
  let* jitter := draw in time_sleep (Backoff (2 ^ attempt) jitter).

(** The alternate-format launch of the second attempt; it rebinds
    [stdout] and [stderr], and answers [Some r] when the function returns. *)
Definition alternate (url video_id output_template : string)
    (cookies_file cookies_from_browser : option string) (attempt : Z)
    (stdout stderr : string) : M (option result * string * string) :=
  if attempt =? 1 then
    let* '(rc, out, err) :=
      popen (fallback_cmd url output_template cookies_file cookies_from_browser) in
    if rc =? 0 then ret (Some (success url video_id), out, err)
    else ret (None, out, err)
  else ret (None, stdout, stderr).

(** The two tests on the captured output.  The source nests the test
    for missing cookies inside the test for the bot-check text and falls
    through to the next test when either fails; the conjunction takes the
    same branches. *)
Definition auth_branch (cookies_file cookies_from_browser : option string)
    (stdout stderr : string) : bool :=
  (Py.contains bot_check stderr || Py.contains bot_check stdout)
  && negb (Py.truthy_opt cookies_file || Py.truthy_opt cookies_from_browser).

Definition unavailable_branch (stdout stderr : string) : bool :=
  Py.contains unavailable stdout || Py.contains unavailable stderr.

(** The [try] block of one attempt. *)
Definition attempt_try (url video_id output_template : string) (retry_count : Z)
    (cookies_file cookies_from_browser : option string) (attempt : Z)
  : M (option result) :=
  let* '(rc, stdout, stderr) :=
    popen (primary_cmd url output_template cookies_file cookies_from_browser) in
  if negb (rc =? 0) then
    if auth_branch cookies_file cookies_from_browser stdout stderr
    then ret (Some (auth_required url video_id stderr))
    else if unavailable_branch stdout stderr
    then ret (Some (video_unavailable url video_id (stdout +:+ stderr)))
    else
      let* '(returned, stdout, stderr) :=
        alternate url video_id output_template cookies_file cookies_from_browser
                  attempt stdout stderr in
      match returned with
      | Some r => ret (Some r)
      | None =>
          if attempt <? retry_count - 1
          then backoff attempt >> ret None
          else ret (Some (retries_exhausted url video_id retry_count (stdout +:+ stderr)))
      end
  else ret (Some (success url video_id)).

(** One pass of the retry loop: the [try] block and its handler. *)
Definition attempt_body (url video_id output_template : string) (retry_count : Z)
    (cookies_file cookies_from_browser : option string) (attempt : Z)
  : M (option result) :=
  try_except
    (attempt_try url video_id output_template retry_count
                 cookies_file cookies_from_browser attempt)
    (λ e, if attempt <? retry_count - 1
          then backoff attempt >> ret None
          else ret (Some (invocation_failure url video_id e))).

(** The container extensions the existence check goes through, and the
    path it tests for each. *)
Definition container_exts : list string := ["mp4"; "mkv"; "webm"].

Definition output_path (output_dir video_id ext : string) : string :=
  OsPath.join output_dir (video_id +:+ "." +:+ ext).

(** The loop over the extensions that precedes the retry loop. *)
Definition existence_check (url output_dir video_id : string) : M (option result) :=
  for_in container_exts (λ ext,
    let* found := os_path_exists (output_path output_dir video_id ext) in
    if found then ret (Some (already_exists url video_id)) else ret None).

(** [verbose] only switches console output on, which is not represented. *)
Definition download_video (url output_dir : string) (retry_count : Z) (verbose : bool)
    (cookies_file cookies_from_browser : option string) : M (option result) :=
  mark (EFetch url) >>
  let* video_id := lift (extract_video_id_from_url url) in
  let output_template := OsPath.join output_dir (video_id +:+ ".%(ext)s") in
  let* existing := existence_check url output_dir video_id in
  match existing with
  | Some r => ret (Some r)
  | None =>
      for_in (Py.range retry_count)
        (attempt_body url video_id output_template retry_count
                      cookies_file cookies_from_browser)
  end.

(** ** The Batch Scheduler *)

(** An entry of [failed_urls]. *)
Record failure : Type := Failure {
  failed_url : string;
  failed_error : string;
  failed_details : string
}.

(** What the loop body does with the result of one fetch. *)
Definition record_result (downloaded_file : string)
    (acc : list string * list failure) (url : string) (result : option result)
  : M (list string * list failure) :=
  let '(successful_urls, failed_urls) := acc in
  match result with
  | None => raise (TypeError "'NoneType' object is not subscriptable")
  | Some r =>
      if bool_decide (status r ∈ ["success"; "already_exists"]) then
        append_text downloaded_file (url +:+ Py.LF) >>
        ret (successful_urls ++ [url], failed_urls)
      else
        ret (successful_urls,
             failed_urls ++ [Failure url (default "Unknown error" (error r))
                                     (default EmptyString (details r))])
  end.

(** [download_video] as [download_batch] calls it: the retry count is
    left at its default. *)
Definition fetch_and_record (output_dir downloaded_file : string) (verbose : bool)
    (cookies_file cookies_from_browser : option string)
    (acc : list string * list failure) (url : string)
  : M (list string * list failure) :=
  let* result := download_video url output_dir 3 verbose cookies_file cookies_from_browser in
  record_result downloaded_file acc url result.

(** The thread pool: the submitted fetches complete one after the other in
    an order the environment picks, and each completion is recorded as it
    arrives.  The fetches are taken as indivisible: the interleaving of
    their process launches is not represented.  [n] counts the pending
    fetches, so the pick always lands on one of them. *)
Fixpoint as_completed (n : nat) (pending : list string)
    (acc : list string * list failure)
    (body : list string * list failure → string → M (list string * list failure))
  : M (list string * list failure) :=
  match n with
  | O => ret acc
  | S n' =>
      let* i := pick (length pending) in
      match pending !! i with
      | None => ret acc
      | Some url =>
          let* acc' := body acc url in
          as_completed n' (delete i pending) acc' body
      end
  end.

Definition failed_lines (failed_urls : list failure) : string :=
  foldr (λ f rest, failed_url f +:+ Py.TAB +:+ failed_error f +:+ Py.LF +:+ rest)
        EmptyString failed_urls.

(** [os.makedirs(output_dir, exist_ok=True)] only touches directories,
    which the store does not hold, and is left out. *)
Definition download_batch (urls : list string) (output_dir downloaded_file : string)
    (max_workers : Z) (verbose : bool) (cookies_file cookies_from_browser : option string)
  : M unit :=
  mark (EBatch urls) >>
  let* downloaded_urls := read_downloaded_urls downloaded_file in
  let urls_to_download := filter (λ url, url ∉ downloaded_urls) urls in
  match urls_to_download with
  | [] => ret tt
  | _ :: _ =>
      let body := fetch_and_record output_dir downloaded_file verbose
                                   cookies_file cookies_from_browser in
      let* '(successful_urls, failed_urls) :=
        if max_workers =? 1 then fold_in urls_to_download ([], []) body
        else if max_workers <=? 0
        then raise (ValueError "max_workers must be greater than 0")
        else as_completed (length urls_to_download) urls_to_download ([], []) body in
      let failed_file := Py.replace "downloaded_" "failed_" downloaded_file in
      write_text failed_file (failed_lines failed_urls)
  end.

(** ** The Run Driver *)

(** [a // b] *)
Definition floordiv (a b : Z) : M Z :=
  if b =? 0 then raise ZeroDivisionError else ret (a / b).

(** The body of the loop over the batch numbers. *)
Definition batch_step (urls_to_download : list string) (output_dir downloaded_file : string)
    (batch_size max_workers : Z) (verbose : bool)
    (cookies_file cookies_from_browser : option string) (batch_num : Z)
  : M (option unit) :=
  let start_idx := batch_num * batch_size in
  let end_idx := Z.min ((batch_num + 1) * batch_size)
                       (Z.of_nat (length urls_to_download)) in
  let batch_urls := Py.slice urls_to_download start_idx end_idx in
  download_batch batch_urls output_dir downloaded_file max_workers verbose
                 cookies_file cookies_from_browser >>
  let* sleep_time := random_randint 5 60 in
  time_sleep (Seconds sleep_time) >>
  ret None.

(** [os.path.basename(url_file).split('.')[0]] *)
Definition file_base_of (url_file : string) : res string :=
  res_bind (Py.split "." (OsPath.basename url_file)) (λ pieces, Py.index pieces 0).

Definition batch_download_from_file (url_file output_dir : string)
    (batch_size max_workers : Z) (verbose : bool)
    (cookies_file cookies_from_browser : option string) : M unit :=
  let* file_base := lift (file_base_of url_file) in
  let downloaded_file := "downloaded_" +:+ file_base +:+ "_urls.txt" in
  let* all_urls := read_urls url_file in
  let* downloaded_urls := read_downloaded_urls downloaded_file in
  let urls_to_download := filter (λ url, url ∉ downloaded_urls) all_urls in
  let* total_batches :=
    floordiv (Z.of_nat (length urls_to_download) + batch_size - 1) batch_size in
  for_in (Py.range total_batches)
    (batch_step urls_to_download output_dir downloaded_file batch_size max_workers
                verbose cookies_file cookies_from_browser) >>
  ret tt.

(** ** Observations on a run *)

Definition run {A} (m : M A) (w : world) : res A := (m w).1.
Definition after {A} (m : M A) (w : world) : world := (m w).2.

(** What a run adds to the trace. *)
Definition effects {A} (m : M A) (w : world) : list event :=
  drop (length (trace w)) (trace (after m w)).

Definition is_invoke (e : event) : bool :=
  match e with EInvoke _ => true | _ => false end.
Definition is_sleep (e : event) : bool :=
  match e with ESleep _ => true | _ => false end.

Definition invocations (t : list event) : list event := List.filter is_invoke t.
Definition sleeps (t : list event) : list event := List.filter is_sleep t.

(** The world after a process launch that ran to its end, and after a
    back-off sleep. *)
Definition launched_with (cmd : list string) (files : list (string * string)) (w : world)
  : world :=
  with_fs (leave_files files (fs w)) (emit (EInvoke cmd) (with_launched (S (launched w)) w)).

Definition slept (attempt : Z) (w : world) : world :=
  emit (ESleep (Backoff (2 ^ attempt) (draws w (drawn w)))) (with_drawn (S (drawn w)) w).

(** A launch that fails with a generic error: non-zero exit, neither
    marker in what it printed. *)
Definition generic_failure (l : launch) : bool :=
  match l with
  | Exited rc out err _ =>
      negb (rc =? 0)
      && negb (Py.contains bot_check out || Py.contains bot_check err
               || Py.contains unavailable out || Py.contains unavailable err)
  | NotStarted _ => false
  end.

(** [stdout + stderr] of a launch *)
Definition launch_output (l : launch) : string :=
  match l with
  | Exited _ out err _ => out +:+ err
  | NotStarted _ => EmptyString
  end.

(** A world for concrete runs: the given store, every launch answering
    [l], the [n]-th draw being [n + first_draw], the pool completing in
    submission order. *)
Definition quiet (l : launch) (first_draw : N) (files : gmap string string) : world :=
  World files (λ _, l) 0 (λ n, N.of_nat n + first_draw)%N 0 (λ _, 0%nat) 0 [].

(** ** Predicates on runs and views of the trace *)

(** [m] never raises, and what it answers satisfies [Q]. *)
Definition returns {A} (Q : A → Prop) (m : M A) : Prop :=
  ∀ w, ∃ a, run m w = Ok a ∧ Q a.

(** [m] only adds to the trace, and only events satisfying [P]. *)
Definition emits {A} (P : event → Prop) (m : M A) : Prop :=
  ∀ w, ∃ t, trace (after m w) = trace w ++ t ∧ Forall P t.

(** The events of one fetch: its marker, process launches, back-off
    sleeps. *)
Definition fetch_event (e : event) : Prop :=
  match e with
  | EFetch _ | EInvoke _ | ESleep (Backoff _ _) => True
  | _ => False
  end.

(** Whatever [m] answers, when it does not raise, satisfies [Q]. *)
Definition ensures {A} (Q : A → Prop) (m : M A) : Prop :=
  ∀ w a, run m w = Ok a → Q a.

(** [Q] holds of what a loop body or a function returns, if it returns. *)
Definition on_return {R} (Q : R → Prop) (o : option R) : Prop :=
  ∀ r, o = Some r → Q r.

(** The dictionary of the authentication branch, whatever it carries. *)
Definition is_auth_required (r : result) : Prop :=
  ∃ url video_id stderr, r = auth_required url video_id stderr.

(** The set the ledger file at [p] stands for in the store of [w]. *)
Definition ledger_of (w : world) (p : string) : gset string :=
  match fs w !! p with
  | Some text => list_to_set (stripped_lines text)
  | None => ∅
  end.

(** What goes on inside a batch: everything but the entry into a batch
    and the pause between batches. *)
Definition inner_event (e : event) : Prop :=
  match e with
  | EBatch _ | ESleep (Seconds _) => False
  | _ => True
  end.

(** The slices the loop of the driver cuts, in the order it cuts them. *)
Definition batches (urls_to_download : list string) (batch_size : Z) : list (list string) :=
  let len := Z.of_nat (length urls_to_download) in
  map (λ batch_num,
         Py.slice urls_to_download (batch_num * batch_size)
                  (Z.min ((batch_num + 1) * batch_size) len))
      (Py.range ((len + batch_size - 1) / batch_size)).

(** What the driver does with one slice. *)
Definition process_chunk (output_dir downloaded_file : string) (max_workers : Z)
    (verbose : bool) (cookies_file cookies_from_browser : option string)
    (batch_urls : list string) : M (option unit) :=
  download_batch batch_urls output_dir downloaded_file max_workers verbose
                 cookies_file cookies_from_browser >>
  let* sleep_time := random_randint 5 60 in
  time_sleep (Seconds sleep_time) >>
  ret None.

(** The events of the driver's own level: entries into batches and the
    pauses between them. *)
Definition driver_event (e : event) : bool :=
  match e with
  | EBatch _ | ESleep (Seconds _) => true
  | _ => false
  end.

Definition view (t : list event) : list event := List.filter driver_event t.

(** Batch, pause, batch, pause, and so on. *)
Fixpoint paced (chunks : list (list string)) (pauses : list Z) : list event :=
  match chunks, pauses with
  | c :: chunks', p :: pauses' => EBatch c :: ESleep (Seconds p) :: paced chunks' pauses'
  | _, _ => []
  end.

(** The batches entered, in order. *)
Definition batches_in (t : list event) : list (list string) :=
  omap (λ e, match e with EBatch urls => Some urls | _ => None end) t.

(** The pauses taken, in order. *)
Definition pauses_in (t : list event) : list Z :=
  omap (λ e, match e with ESleep (Seconds n) => Some n | _ => None end) t.

(** The [n]-th run of [size] elements of [l]. *)
Definition nth_chunk {A} (size : nat) (l : list A) (n : nat) : list A :=
  take size (drop (n * size) l).

(** A store for concrete runs of the driver: a list of three references,
    the second of which the ledger already holds. *)
Definition three_urls : string := "a" +:+ Py.LF +:+ "b" +:+ Py.LF +:+ "c" +:+ Py.LF.

Definition resumed : world :=
  quiet (Exited 1 EmptyString "ERROR: timed out" []) 0
        {[ "lists/test_urls.txt" := three_urls;
           "downloaded_test_urls_urls.txt" := "b" +:+ Py.LF ]}.

(** A world for concrete runs in which every launch fails, the third
    one (the fallback launch of a fetch) printing [stderr] and the others
    a time-out. *)
Definition fallback_answering (stderr : string) : world :=
  World ∅
        (λ k, if (k =? 2)%nat then Exited 1 EmptyString stderr []
              else Exited 1 EmptyString "ERROR: timed out" [])
        0 (λ k, N.of_nat k) 0 (λ _, 0%nat) 0 [].

(** ** Further notions *)

(** A text that a line can be appended to: empty, or ending with a line
    feed. *)
Definition well_terminated (text : string) : Prop :=
  text = EmptyString ∨ Py.endswith_char "010" text = true.

(** No line feed in the string; no carriage return in the string. *)
Definition no_lf (s : string) : Prop := Py.contains Py.LF s = false.
Definition no_cr (s : string) : Prop := Py.contains Py.CR s = false.

(** A world for concrete runs in which the first [n] launches time out
    and the later ones succeed. *)
Definition recovering (n : nat) (files : gmap string string) : world :=
  World files
        (λ k, if (k <? n)%nat then Exited 1 EmptyString "ERROR: timed out" []
              else Exited 0 "[download] 100%" EmptyString [])
        0 (λ k, N.of_nat k) 0 (λ _, 0%nat) 0 [].

(** A world for concrete runs in which no process can be started. *)
Definition not_installed (files : gmap string string) : world :=
  World files (λ _, NotStarted (FileNotFoundError "yt-dlp"))
        0 (λ k, N.of_nat k) 0 (λ _, 0%nat) 0 [].

(** The bases of the back-off sleeps, in order. *)
Definition sleep_bases (t : list event) : list Z :=
  omap (λ e, match e with ESleep (Backoff base _) => Some base | _ => None end) t.

(** The events of the retry loop: process launches and back-off sleeps. *)
Definition pass_event (e : event) : Prop :=
  match e with
  | EInvoke _ | ESleep (Backoff _ _) => True
  | _ => False
  end.

(** The references whose fetch was started, the texts appended and the
    files written, each in order. *)
Definition fetches_in (t : list event) : list string :=
  omap (λ e, match e with EFetch url => Some url | _ => None end) t.

Definition appends_in (t : list event) : list (string * string) :=
  omap (λ e, match e with EAppend path text => Some (path, text) | _ => None end) t.

Definition writes_in (t : list event) : list (string * string) :=
  omap (λ e, match e with EWrite path text => Some (path, text) | _ => None end) t.

(** The outcome of fetching and recording the references [fetched], in
    the order their fetches were started: each one is among the successes
    or among the failures, the successes are appended to the ledger
    [downloaded_file] in order, and nothing is written. *)
Definition recorded (downloaded_file : string) (successful : list string)
    (failed : list failure) (t : list event) (fetched : list string) : Prop :=
  fetches_in t = fetched
  ∧ writes_in t = []
  ∧ appends_in t = map (λ url, (downloaded_file, url +:+ Py.LF)) successful
  ∧ successful ++ map failed_url failed ≡ₚ fetched.

(** The store after the references [urls] were appended to the file at
    [path], one line each. *)
Definition appended (path : string) (urls : list string) (files : gmap string string)
  : gmap string string :=
  foldl (λ f url, <[path := default EmptyString (f !! path) +:+ url +:+ Py.LF]> f)
        files urls.

(** A launch that leaves the file at [p] as it is. *)
Definition spares (p : string) (l : launch) : Prop :=
  match l with
  | Exited _ _ _ files => p ∉ files.*1
  | NotStarted _ => True
  end.

(** A reference as [read_urls] gives them: not empty, no white space
    around it, no line feed and no carriage return in it. *)
Definition listed (url : string) : Prop :=
  url ≠ EmptyString ∧ Py.strip url = url ∧ no_lf url ∧ no_cr url.

(** The text of the file at [p], a missing file counting as empty. *)
Definition text_at (files : gmap string string) (p : string) : string :=
  default EmptyString (files !! p).

(** A store for concrete runs of the driver in worlds of their own: the
    list of [three_urls] and a ledger that holds the second reference. *)
Definition listed_store : gmap string string :=
  {[ "lists/test_urls.txt" := three_urls;
     "downloaded_test_urls_urls.txt" := "b" +:+ Py.LF ]}.

(** The commands of the processes launched, in order. *)
Definition commands_in (t : list event) : list (list string) :=
  omap (λ e, match e with EInvoke cmd => Some cmd | _ => None end) t.

(** No more than four process launches and two back-off sleeps for each
    of the references [fetched]. *)
Definition bounded_effort (t : list event) (fetched : list string) : Prop :=
  (length (invocations t) ≤ 4 * length fetched)%nat
  ∧ (length (sleep_bases t) ≤ 2 * length fetched)%nat.

(** * Properties *)

(** ** Strings *)

Section Splitting.
Variable sep : string.
Hypothesis sep_nonempty : Py.truthy sep = true.

Lemma split_from_cons (skip : nat) (s : string) :
  ∃ piece pieces, Py.split_from sep skip s = piece :: pieces.
Proof.
  revert skip. induction s as [|c s IH]; intros skip; cbn [Py.split_from].
  - eauto.
  - destruct skip as [|k]; [|apply IH].
    destruct (Py.startswith sep (String c s)); [eauto|].
    destruct (IH O) as (p & ps & ->). eauto.
Qed.

(** A separator that occurs cuts the string into two pieces at least,
    so [s.split(sep)[1]] is there whenever [sep in s] holds. *)
Lemma split_from_contains (s : string) :
  Py.contains sep s = true →
  ∃ before next pieces, Py.split_from sep O s = before :: next :: pieces.
Proof.
  induction s as [|c s IH]; intros Hin.
  - destruct sep; [discriminate sep_nonempty | discriminate Hin].
  - cbn [Py.split_from]. cbn [Py.contains] in Hin.
    destruct (Py.startswith sep (String c s)).
    + destruct (split_from_cons (Nat.pred (String.length sep)) s) as (p & ps & ->).
      eauto.
    + destruct (IH Hin) as (b & n & ps & ->). eauto.
Qed.

Lemma split_ok (s : string) : Py.split sep s = Ok (Py.split_from sep O s).
Proof.
  unfold Py.split. generalize sep_nonempty.
  destruct sep; [discriminate | reflexivity].
Qed.

Lemma split_index_0 (s : string) :
  ∃ piece, res_bind (Py.split sep s) (λ pieces, Py.index pieces 0) = Ok piece.
Proof.
  rewrite split_ok. destruct (split_from_cons O s) as (p & ps & ->). cbn. eauto.
Qed.

Lemma split_index_1 (s : string) :
  Py.contains sep s = true →
  ∃ piece, Py.split sep s = Ok (Py.split_from sep O s)
           ∧ Py.index (Py.split_from sep O s) 1 = Ok piece.
Proof.
  intros Hin. rewrite split_ok.
  destruct (split_from_contains s Hin) as (b & n & ps & ->). cbn. eauto.
Qed.
End Splitting.

(** The normalizer never raises: both list indexings are in range. *)
Lemma extract_video_id_total (url : string) :
  ∃ video_id, extract_video_id_from_url url = Ok video_id.
Proof.
  unfold extract_video_id_from_url.
  destruct (Py.contains "youtube.com/watch?v=" url) eqn:Hlong.
  - destruct (split_index_1 "youtube.com/watch?v=" eq_refl url Hlong) as (tail & -> & Htail).
    cbn [res_bind]. rewrite Htail. cbn [res_bind].
    apply (split_index_0 "&" eq_refl).
  - destruct (Py.contains "youtu.be/" url) eqn:Hshort; [|eauto].
    destruct (split_index_1 "youtu.be/" eq_refl url Hshort) as (tail & -> & Htail).
    cbn [res_bind]. rewrite Htail. cbn [res_bind].
    apply (split_index_0 "?" eq_refl).
Qed.

(** C2, as the code has it: the long-form marker is the text
    [youtube.com/watch?v=], host included.  A long-form YouTube URL and a
    short-form URL give the identifier [ABC], a bare identifier is returned
    as it is, and so is [https://x/watch?v=ABC&t=5], which carries neither
    marker. *)
Theorem normalizer_vectors :
  extract_video_id_from_url "https://www.youtube.com/watch?v=ABC&t=5" = Ok "ABC"
  ∧ extract_video_id_from_url "https://youtu.be/ABC?t=5" = Ok "ABC"
  ∧ extract_video_id_from_url "ABC" = Ok "ABC"
  ∧ extract_video_id_from_url "https://x/watch?v=ABC&t=5" = Ok "https://x/watch?v=ABC&t=5".
Proof. repeat split; vm_compute; reflexivity. Qed.

(** C2 as stated fails on its first vector: the host [x] is not the
    marker's host, so the reference comes back whole. *)
Lemma normalizer_vectors_counterexample :
  ¬ (extract_video_id_from_url "https://x/watch?v=ABC&t=5" = Ok "ABC"
     ∧ extract_video_id_from_url "https://youtu.be/ABC?t=5" = Ok "ABC"
     ∧ extract_video_id_from_url "ABC" = Ok "ABC").
Proof. intros [H _]. vm_compute in H. discriminate H. Qed.

(** ** Reasoning about runs *)

Lemma effects_app {A} (m : M A) (w : world) (t : list event) :
  trace (after m w) = trace w ++ t → effects m w = t.
Proof. intros H. unfold effects. rewrite H. apply drop_app_length. Qed.

Lemma emits_effects {A} (P : event → Prop) (m : M A) (w : world) :
  emits P m → trace (after m w) = trace w ++ effects m w ∧ Forall P (effects m w).
Proof.
  intros H. destruct (H w) as (t & Ht & HP).
  rewrite (effects_app m w t Ht). auto.
Qed.

Lemma bind_ok {A B} (m : M A) (k : A → M B) (w w' : world) (a : A) :
  m w = (Ok a, w') → bind m k w = k a w'.
Proof. intros H. unfold bind. rewrite H. reflexivity. Qed.

Lemma bind_raise {A B} (m : M A) (k : A → M B) (w w' : world) (e : exn) :
  m w = (Raise e, w') → bind m k w = (Raise e, w').
Proof. intros H. unfold bind. rewrite H. reflexivity. Qed.

Section Returns.
Context {A B : Type}.

Lemma returns_ret (Q : A → Prop) (a : A) : Q a → returns Q (ret a).
Proof. intros H w. exists a. auto. Qed.

Lemma returns_bind (Q : A → Prop) (R : B → Prop) (m : M A) (k : A → M B) :
  returns Q m → (∀ a, Q a → returns R (k a)) → returns R (bind m k).
Proof.
  intros Hm Hk w. destruct (Hm w) as (a & Ha & HQ).
  unfold run in *. destruct (m w) as [r w'] eqn:E. cbn in Ha. subst r.
  rewrite (bind_ok m k w w' a E). apply (Hk a HQ).
Qed.

Lemma returns_weaken (Q R : A → Prop) (m : M A) :
  (∀ a, Q a → R a) → returns Q m → returns R m.
Proof. intros HQR Hm w. destruct (Hm w) as (a & Ha & HQ). eauto. Qed.

Lemma returns_try_except (Q : A → Prop) (m : M A) (h : exn → M A) :
  (∀ w a, run m w = Ok a → Q a) → (∀ e, returns Q (h e)) →
  returns Q (try_except m h).
Proof.
  intros Hm Hh w. unfold run, try_except in *.
  specialize (Hm w). destruct (m w) as [[a|e] w'].
  - exists a. cbn in *. auto.
  - apply Hh.
Qed.
End Returns.

Lemma returns_for_in {A R} (l : list A) (body : A → M (option R)) :
  (∀ x, returns (λ _, True) (body x)) → returns (λ _, True) (for_in l body).
Proof.
  intros Hbody. induction l as [|x l IH]; cbn [for_in].
  - apply returns_ret. exact I.
  - eapply returns_bind; [apply Hbody|].
    intros [v|] _; [apply returns_ret; exact I | apply IH].
Qed.

(** A loop whose last pass always returns does not fall off its end. *)
Lemma returns_for_in_last {A R} (l : list A) (last : A) (body : A → M (option R)) :
  (∀ x, returns (λ _, True) (body x)) →
  returns is_Some (body last) →
  returns is_Some (for_in (l ++ [last]) body).
Proof.
  intros Hbody Hlast. induction l as [|x l IH]; cbn [for_in app].
  - eapply returns_bind; [apply Hlast|].
    intros o [v ->]. apply returns_ret. eauto.
  - eapply returns_bind; [apply Hbody|].
    intros [v|] _; [apply returns_ret; eauto | apply IH].
Qed.

Lemma returns_fold_in {A S} (l : list A) (acc : S) (body : S → A → M S) :
  (∀ s x, returns (λ _, True) (body s x)) → returns (λ _, True) (fold_in l acc body).
Proof.
  intros Hbody. revert acc. induction l as [|x l IH]; intros acc; cbn [fold_in].
  - apply returns_ret. exact I.
  - eapply returns_bind; [apply Hbody|]. intros s _. apply IH.
Qed.

Section Emits.
Context {A B : Type} (P : event → Prop).

Lemma emits_silent (m : M A) : (∀ w, trace (after m w) = trace w) → emits P m.
Proof. intros H w. exists []. rewrite H, app_nil_r. auto. Qed.

Lemma emits_ret (a : A) : emits P (ret a).
Proof. apply emits_silent. reflexivity. Qed.

Lemma emits_raise (e : exn) : emits P (@raise A e).
Proof. apply emits_silent. reflexivity. Qed.

Lemma emits_lift (r : res A) : emits P (lift r).
Proof. apply emits_silent. reflexivity. Qed.

Lemma emits_bind (m : M A) (k : A → M B) :
  emits P m → (∀ a, emits P (k a)) → emits P (bind m k).
Proof.
  intros Hm Hk w. destruct (Hm w) as (t & Ht & HP).
  unfold after, bind in *. destruct (m w) as [[a|e] w']; cbn in Ht.
  - destruct (Hk a w') as (t' & Ht' & HP'). unfold after in Ht'.
    exists (t ++ t'). rewrite Ht', Ht, app_assoc. split; [reflexivity|].
    apply Forall_app. auto.
  - exists t. auto.
Qed.

Lemma emits_try_except (m : M A) (h : exn → M A) :
  emits P m → (∀ e, emits P (h e)) → emits P (try_except m h).
Proof.
  intros Hm Hh w. destruct (Hm w) as (t & Ht & HP).
  unfold after, try_except in *. destruct (m w) as [[a|e] w']; cbn in Ht.
  - exists t. auto.
  - destruct (Hh e w') as (t' & Ht' & HP'). unfold after in Ht'.
    exists (t ++ t'). rewrite Ht', Ht, app_assoc. split; [reflexivity|].
    apply Forall_app. auto.
Qed.
End Emits.

Lemma emits_weaken {A} (P Q : event → Prop) (m : M A) :
  (∀ e, P e → Q e) → emits P m → emits Q m.
Proof.
  intros HPQ Hm w. destruct (Hm w) as (t & Ht & HP).
  exists t. split; [exact Ht|]. eapply Forall_impl; eauto.
Qed.

Lemma emits_mark (P : event → Prop) (e : event) : P e → emits P (mark e).
Proof. intros H w. exists [e]. split; [reflexivity | repeat constructor; exact H]. Qed.

Lemma emits_for_in {A R} (P : event → Prop) (l : list A) (body : A → M (option R)) :
  (∀ x, emits P (body x)) → emits P (for_in l body).
Proof.
  intros Hbody. induction l as [|x l IH]; cbn [for_in].
  - apply emits_ret.
  - apply emits_bind; [apply Hbody|].
    intros [v|]; [apply emits_ret | apply IH].
Qed.

Lemma emits_fold_in {A S} (P : event → Prop) (l : list A) (acc : S)
    (body : S → A → M S) :
  (∀ s x, emits P (body s x)) → emits P (fold_in l acc body).
Proof.
  intros Hbody. revert acc. induction l as [|x l IH]; intros acc; cbn [fold_in].
  - apply emits_ret.
  - apply emits_bind; [apply Hbody | intros s; apply IH].
Qed.

(** ** The primitives *)

Lemma returns_mark (e : event) : returns (λ _, True) (mark e).
Proof. intros w. exists tt. auto. Qed.

Lemma returns_draw : returns (λ _, True) draw.
Proof. intros w. eexists. split; [reflexivity | exact I]. Qed.

Lemma returns_pick (n : nat) : returns (λ i, (0 < n)%nat → (i < n)%nat) (pick n).
Proof.
  intros w. eexists. split; [reflexivity|].
  intros Hn. apply Nat.mod_upper_bound. lia.
Qed.

Lemma returns_os_path_exists (p : string) : returns (λ _, True) (os_path_exists p).
Proof. intros w. eexists. split; [reflexivity | exact I]. Qed.

Lemma returns_append_text (p text : string) : returns (λ _, True) (append_text p text).
Proof. intros w. exists tt. auto. Qed.

Lemma returns_write_text (p text : string) : returns (λ _, True) (write_text p text).
Proof. intros w. exists tt. auto. Qed.

Lemma returns_backoff (attempt : Z) : returns (λ _, True) (backoff attempt).
Proof.
  unfold backoff. eapply returns_bind; [apply returns_draw|].
  intros j _. apply returns_mark.
Qed.

Lemma returns_random_randint (a b : Z) :
  a ≤ b → returns (λ n, a ≤ n ≤ b) (random_randint a b).
Proof.
  intros Hab. unfold random_randint.
  eapply returns_bind; [apply returns_draw|].
  intros r _. apply returns_ret.
  pose proof (Z.mod_pos_bound (Z.of_N r) (b - a + 1)). lia.
Qed.

Section PrimitiveEvents.
Variable P : event → Prop.

Lemma emits_os_path_exists (p : string) : emits P (os_path_exists p).
Proof. apply emits_silent. reflexivity. Qed.

Lemma emits_read_text (p : string) : emits P (read_text p).
Proof.
  apply emits_silent. intros w. unfold after, read_text.
  destruct (fs w !! p); reflexivity.
Qed.

Lemma emits_draw : emits P draw.
Proof. apply emits_silent. reflexivity. Qed.

Lemma emits_pick (n : nat) : emits P (pick n).
Proof. apply emits_silent. reflexivity. Qed.

Lemma emits_popen (cmd : list string) : P (EInvoke cmd) → emits P (popen cmd).
Proof.
  intros H w. exists [EInvoke cmd]. split; [|repeat constructor; exact H].
  unfold after, popen. destruct (launches w (launched w)); reflexivity.
Qed.

Lemma emits_append_text (p text : string) :
  P (EAppend p text) → emits P (append_text p text).
Proof. intros H w. exists [EAppend p text]. split; [reflexivity | repeat constructor; exact H]. Qed.

Lemma emits_write_text (p text : string) :
  P (EWrite p text) → emits P (write_text p text).
Proof. intros H w. exists [EWrite p text]. split; [reflexivity | repeat constructor; exact H]. Qed.

Lemma emits_read_downloaded_urls (p : string) : emits P (read_downloaded_urls p).
Proof.
  unfold read_downloaded_urls. apply emits_bind; [apply emits_os_path_exists|].
  intros [|]; [|apply emits_ret].
  apply emits_bind; [apply emits_read_text | intros; apply emits_ret].
Qed.
End PrimitiveEvents.

(** ** The Item Fetcher *)

Section Fetcher.
Variables (url video_id output_template : string) (retry_count : Z).
Variables (cookies_file cookies_from_browser : option string).

Let body := attempt_body url video_id output_template retry_count
                         cookies_file cookies_from_browser.

Lemma returns_handler (attempt : Z) (e : exn) :
  returns (λ _, True)
    (if attempt <? retry_count - 1
     then backoff attempt >> ret None
     else ret (Some (invocation_failure url video_id e))).
Proof.
  destruct (attempt <? retry_count - 1).
  - eapply returns_bind; [apply returns_backoff|].
    intros _ _. apply returns_ret. exact I.
  - apply returns_ret. exact I.
Qed.

(** A pass of the retry loop never raises: the handler takes every
    exception of the [try] block. *)
Lemma returns_attempt_body (attempt : Z) : returns (λ _, True) (body attempt).
Proof.
  apply returns_try_except; [auto|]. apply returns_handler.
Qed.

(** What the [try] block answers on the last pass is a [return]. *)
Lemma attempt_try_last (attempt : Z) (w : world) (o : option result) :
  (attempt <? retry_count - 1) = false →
  run (attempt_try url video_id output_template retry_count
                   cookies_file cookies_from_browser attempt) w = Ok o →
  is_Some o.
Proof.
  intros Hlast. unfold run, attempt_try, alternate, bind, popen, ret.
  rewrite Hlast.
  repeat (case_match; simplify_eq/=; try done); intros; simplify_eq/=; eauto.
Qed.

Lemma returns_attempt_body_last (attempt : Z) :
  (attempt <? retry_count - 1) = false → returns is_Some (body attempt).
Proof.
  intros Hlast. apply returns_try_except.
  - intros w o. apply attempt_try_last. exact Hlast.
  - intros e. rewrite Hlast. apply returns_ret. eauto.
Qed.
End Fetcher.

Lemma range_snoc (n : Z) : 1 ≤ n → Py.range n = Py.range (n - 1) ++ [n - 1].
Proof.
  intros Hn. unfold Py.range.
  replace (Z.to_nat n) with (S (Z.to_nat (n - 1))) by lia.
  rewrite seq_S, map_app. cbn [map]. do 2 f_equal. lia.
Qed.

Lemma range_nonpos (n : Z) : n ≤ 0 → Py.range n = [].
Proof.
  intros Hn. unfold Py.range. replace (Z.to_nat n) with O by lia. reflexivity.
Qed.

Section ExistenceCheck.
Variables (url output_dir video_id : string).

Lemma existence_check_found (w : world) (ext : string) :
  ext ∈ container_exts →
  is_Some (fs w !! output_path output_dir video_id ext) →
  existence_check url output_dir video_id w
  = (Ok (Some (already_exists url video_id)), w).
Proof.
  unfold existence_check. generalize container_exts as exts.
  induction exts as [|x exts IH]; intros Hin Hfile.
  - apply elem_of_nil in Hin. contradiction.
  - cbn [for_in]. unfold bind at 1. unfold bind at 1. unfold os_path_exists at 1.
    destruct (fs w !! output_path output_dir video_id x) eqn:Hx; cbn.
    + reflexivity.
    + apply elem_of_cons in Hin as [->|Hin].
      * rewrite Hx in Hfile. destruct Hfile as [? [=]].
      * apply IH; assumption.
Qed.

Lemma existence_check_none (w : world) :
  (∀ ext, ext ∈ container_exts → fs w !! output_path output_dir video_id ext = None) →
  existence_check url output_dir video_id w = (Ok None, w).
Proof.
  unfold existence_check. generalize container_exts as exts.
  induction exts as [|x exts IH]; intros Hnone.
  - reflexivity.
  - cbn [for_in]. unfold bind at 1. unfold bind at 1. unfold os_path_exists at 1.
    rewrite (Hnone x) by (apply elem_of_cons; auto). cbn.
    apply IH. intros ext Hext. apply Hnone. apply elem_of_cons. auto.
Qed.

Lemma returns_existence_check :
  returns (λ _, True) (existence_check url output_dir video_id).
Proof.
  apply returns_for_in. intros ext.
  eapply returns_bind; [apply returns_os_path_exists|].
  intros [|] _; apply returns_ret; exact I.
Qed.

Lemma emits_existence_check (P : event → Prop) :
  emits P (existence_check url output_dir video_id).
Proof.
  apply emits_for_in. intros ext.
  apply emits_bind; [apply emits_os_path_exists|].
  intros [|]; apply emits_ret.
Qed.
End ExistenceCheck.

(** The fetch up to the retry loop, when no output file is there. *)
Lemma download_video_enters_loop (url output_dir : string) (retry_count : Z)
    (verbose : bool) (cookies_file cookies_from_browser : option string)
    (w : world) (video_id : string) :
  extract_video_id_from_url url = Ok video_id →
  (∀ ext, ext ∈ container_exts → fs w !! output_path output_dir video_id ext = None) →
  download_video url output_dir retry_count verbose cookies_file cookies_from_browser w
  = for_in (Py.range retry_count)
      (attempt_body url video_id (OsPath.join output_dir (video_id +:+ ".%(ext)s"))
                    retry_count cookies_file cookies_from_browser)
      (emit (EFetch url) w).
Proof.
  intros Hid Hnone. unfold download_video.
  rewrite (bind_ok _ _ w (emit (EFetch url) w) tt) by reflexivity.
  rewrite (bind_ok _ _ _ (emit (EFetch url) w) video_id) by (unfold lift; rewrite Hid; reflexivity).
  rewrite (bind_ok _ _ _ (emit (EFetch url) w) None) by (apply existence_check_none, Hnone).
  reflexivity.
Qed.

(** From retry count one on, a fetch answers a dictionary. *)
Lemma returns_download_video (url output_dir : string) (retry_count : Z)
    (verbose : bool) (cookies_file cookies_from_browser : option string) :
  1 ≤ retry_count →
  returns is_Some
    (download_video url output_dir retry_count verbose cookies_file cookies_from_browser).
Proof.
  intros Hn. unfold download_video.
  eapply returns_bind; [apply returns_mark|]. intros _ _.
  destruct (extract_video_id_total url) as (video_id & Hid). rewrite Hid.
  eapply returns_bind; [intros w; exists video_id; split; [reflexivity | exact I]|].
  intros vid _.
  eapply returns_bind; [apply returns_existence_check|].
  intros [r|] _.
  - apply returns_ret. eauto.
  - rewrite (range_snoc retry_count Hn). apply returns_for_in_last.
    + apply returns_attempt_body.
    + apply returns_attempt_body_last. lia.
Qed.

Lemma popen_exited (cmd : list string) (w : world) (rc : Z) (out err : string)
    (files : list (string * string)) :
  launches w (launched w) = Exited rc out err files →
  popen cmd w = (Ok (rc, out, err), launched_with cmd files w).
Proof. intros H. unfold popen. rewrite H. reflexivity. Qed.

Lemma popen_not_started (cmd : list string) (w : world) (e : exn) :
  launches w (launched w) = NotStarted e →
  popen cmd w = (Raise e, emit (EInvoke cmd) (with_launched (S (launched w)) w)).
Proof. intros H. unfold popen. rewrite H. reflexivity. Qed.

Lemma generic_failure_inv (l : launch) :
  generic_failure l = true →
  ∃ rc out err files,
    l = Exited rc out err files ∧ rc ≠ 0
    ∧ (∀ cookies_file cookies_from_browser,
         auth_branch cookies_file cookies_from_browser out err = false)
    ∧ unavailable_branch out err = false.
Proof.
  destruct l as [rc out err files|e]; [|discriminate]. cbn.
  intros H. apply andb_prop in H as [Hrc H].
  apply negb_true_iff in Hrc, H. apply Z.eqb_neq in Hrc.
  repeat (apply orb_false_elim in H as [H ?]).
  exists rc, out, err, files. unfold auth_branch, unavailable_branch.
  repeat split; [exact Hrc | | ].
  - intros cf cb. rewrite H, H2. reflexivity.
  - rewrite H1, H0. reflexivity.
Qed.

(** One pass of the retry loop, case by case, when the primary launch
    runs to its end. *)
Section Attempt.
Variables (url video_id output_template : string) (retry_count : Z).
Variables (cookies_file cookies_from_browser : option string).

Let body := attempt_body url video_id output_template retry_count
                         cookies_file cookies_from_browser.
Let primary := primary_cmd url output_template cookies_file cookies_from_browser.
Let fallback := fallback_cmd url output_template cookies_file cookies_from_browser.

Variables (attempt : Z) (w : world).
Variables (rc : Z) (stdout stderr : string) (files : list (string * string)).
Hypothesis primary_exits : launches w (launched w) = Exited rc stdout stderr files.

Ltac enter :=
  unfold body, attempt_body, try_except, attempt_try;
  rewrite (bind_ok _ _ _ _ _ (popen_exited _ _ _ _ _ _ primary_exits));
  cbv beta iota.

Ltac failed Hrc := apply Z.eqb_neq in Hrc; rewrite Hrc; cbn [negb].

Lemma attempt_success :
  rc = 0 →
  body attempt w = (Ok (Some (success url video_id)), launched_with primary files w).
Proof. intros ->. enter. reflexivity. Qed.

Lemma attempt_auth :
  rc ≠ 0 → auth_branch cookies_file cookies_from_browser stdout stderr = true →
  body attempt w
  = (Ok (Some (auth_required url video_id stderr)), launched_with primary files w).
Proof. intros Hrc Hauth. enter. failed Hrc. rewrite Hauth. reflexivity. Qed.

Lemma attempt_unavailable :
  rc ≠ 0 → auth_branch cookies_file cookies_from_browser stdout stderr = false →
  unavailable_branch stdout stderr = true →
  body attempt w
  = (Ok (Some (video_unavailable url video_id (stdout +:+ stderr))),
     launched_with primary files w).
Proof.
  intros Hrc Hauth Hun. enter. failed Hrc. rewrite Hauth, Hun. reflexivity.
Qed.

Section Generic.
Hypothesis exit_code : rc ≠ 0.
Hypothesis no_auth_branch :
  auth_branch cookies_file cookies_from_browser stdout stderr = false.
Hypothesis no_unavailable_branch : unavailable_branch stdout stderr = false.

Ltac generic :=
  enter; pose proof exit_code as Hrc; failed Hrc;
  rewrite no_auth_branch, no_unavailable_branch.

Lemma attempt_retry :
  attempt ≠ 1 → attempt < retry_count - 1 →
  body attempt w = (Ok None, slept attempt (launched_with primary files w)).
Proof.
  intros Hne Hlt. generic. unfold alternate.
  apply Z.eqb_neq in Hne. rewrite Hne.
  apply Z.ltb_lt in Hlt. cbn [bind ret]. unfold bind at 1, ret at 1.
  rewrite Hlt. reflexivity.
Qed.

Lemma attempt_exhausted :
  attempt ≠ 1 → ¬ attempt < retry_count - 1 →
  body attempt w
  = (Ok (Some (retries_exhausted url video_id retry_count (stdout +:+ stderr))),
     launched_with primary files w).
Proof.
  intros Hne Hlt. generic. unfold alternate.
  apply Z.eqb_neq in Hne. rewrite Hne.
  apply Z.ltb_nlt in Hlt. unfold bind at 1, ret at 1.
  rewrite Hlt. reflexivity.
Qed.

(** The second attempt, with its alternate-format launch. *)
Section Alternate.
Variables (rc' : Z) (stdout' stderr' : string) (files' : list (string * string)).
Hypothesis second_attempt : attempt = 1.
Hypothesis fallback_exits :
  launches w (S (launched w)) = Exited rc' stdout' stderr' files'.

Let w' := launched_with fallback files' (launched_with primary files w).

Ltac alternate :=
  generic; unfold alternate; rewrite second_attempt; cbn [Z.eqb Pos.eqb];
  unfold bind at 1;
  rewrite (bind_ok _ _ _ _ _
             (popen_exited _ (launched_with primary files w) _ _ _ _ fallback_exits));
  cbv beta iota.

Lemma attempt_alternate_success :
  rc' = 0 → body attempt w = (Ok (Some (success url video_id)), w').
Proof. intros ->. alternate. reflexivity. Qed.

Lemma attempt_alternate_retry :
  rc' ≠ 0 → 1 < retry_count - 1 → body attempt w = (Ok None, slept 1 w').
Proof.
  intros Hrc' Hlt. alternate. failed Hrc'.
  apply Z.ltb_lt in Hlt. unfold ret at 1. cbv beta iota.
  rewrite Hlt. reflexivity.
Qed.

Lemma attempt_alternate_exhausted :
  rc' ≠ 0 → ¬ 1 < retry_count - 1 →
  body attempt w
  = (Ok (Some (retries_exhausted url video_id retry_count (stdout' +:+ stderr'))),
     w').
Proof.
  intros Hrc' Hlt. alternate. failed Hrc'.
  apply Z.ltb_nlt in Hlt. unfold ret at 1. cbv beta iota.
  rewrite Hlt. reflexivity.
Qed.
End Alternate.
End Generic.
End Attempt.

Lemma for_in_return {A R} (x : A) (l : list A) (body : A → M (option R))
    (w w' : world) (r : R) :
  body x w = (Ok (Some r), w') → for_in (x :: l) body w = (Ok (Some r), w').
Proof. intros H. cbn [for_in]. rewrite (bind_ok _ _ _ _ _ H). reflexivity. Qed.

Lemma for_in_next {A R} (x : A) (l : list A) (body : A → M (option R))
    (w w' : world) :
  body x w = (Ok None, w') → for_in (x :: l) body w = for_in l body w'.
Proof. intros H. cbn [for_in]. rewrite (bind_ok _ _ _ _ _ H). reflexivity. Qed.

Lemma run_after {A} (m : M A) (w w' : world) (r : res A) :
  m w = (r, w') → run m w = r ∧ after m w = w'.
Proof. intros H. unfold run, after. rewrite H. auto. Qed.

(** What a run that ends in [w'] added to the trace of [w]. *)
Lemma effects_of {A} (m : M A) (w w' : world) (r : res A) (t : list event) :
  m w = (r, w') → trace w' = trace w ++ t → effects m w = t.
Proof.
  intros H Ht. apply effects_app. unfold after. rewrite H. exact Ht.
Qed.

(** ** Claims on the Item Fetcher *)

(** C6.  When [<ID>.<ext>] is in the output directory for one of the
    container extensions, [ID] being the normalized reference, the fetch
    answers [already_exists] and launches no process: its only trace is
    the marker of the call. *)
Theorem existence_short_circuit (url output_dir : string) (retry_count : Z)
    (verbose : bool) (cookies_file cookies_from_browser : option string)
    (w : world) (video_id ext : string) :
  extract_video_id_from_url url = Ok video_id →
  ext ∈ container_exts →
  is_Some (fs w !! output_path output_dir video_id ext) →
  let m := download_video url output_dir retry_count verbose
                          cookies_file cookies_from_browser in
  run m w = Ok (Some (already_exists url video_id))
  ∧ effects m w = [EFetch url]
  ∧ invocations (effects m w) = []
  ∧ launched (after m w) = launched w.
Proof.
  intros Hid Hext Hfile m.
  assert (m w = (Ok (Some (already_exists url video_id)), emit (EFetch url) w)) as Hm.
  { unfold m, download_video.
    rewrite (bind_ok _ _ w (emit (EFetch url) w) tt) by reflexivity.
    rewrite (bind_ok _ _ _ (emit (EFetch url) w) video_id)
      by (unfold lift; rewrite Hid; reflexivity).
    rewrite (bind_ok _ _ _ (emit (EFetch url) w) (Some (already_exists url video_id)))
      by (apply (existence_check_found _ _ _ _ ext); assumption).
    reflexivity. }
  destruct (run_after _ _ _ _ Hm) as [-> Hafter].
  rewrite (effects_of _ _ _ _ [EFetch url] Hm) by reflexivity.
  rewrite Hafter. auto.
Qed.

Lemma existence_short_circuit_witness :
  let w := quiet (Exited 1 EmptyString EmptyString []) 0 {[ "out/ABC.mkv" := EmptyString ]} in
  let m := download_video "https://youtu.be/ABC?t=5" "out" 3 false None None in
  run m w = Ok (Some (already_exists "https://youtu.be/ABC?t=5" "ABC"))
  ∧ effects m w = [EFetch "https://youtu.be/ABC?t=5"]
  ∧ invocations (effects m w) = []
  ∧ launched (after m w) = launched w.
Proof.
  apply (existence_short_circuit _ _ _ _ _ _ _ "ABC" "mkv").
  - reflexivity.
  - apply elem_of_cons. right. apply elem_of_cons. left. reflexivity.
  - exists EmptyString. vm_compute. reflexivity.
Defined.

(** C9.  With retry count 0 and no output file in place, the retry loop
    has no pass: the fetch falls off its end and answers [None], having
    launched nothing.  From retry count 1 on, every fetch answers a
    dictionary, whatever the environment does. *)
Theorem zero_retries_answer_none (url output_dir : string) (verbose : bool)
    (cookies_file cookies_from_browser : option string) (w : world) (video_id : string) :
  (extract_video_id_from_url url = Ok video_id →
   (∀ ext, ext ∈ container_exts → fs w !! output_path output_dir video_id ext = None) →
   let m := download_video url output_dir 0 verbose cookies_file cookies_from_browser in
   run m w = Ok None ∧ effects m w = [EFetch url])
  ∧ (∀ retry_count, 1 ≤ retry_count →
     ∃ r, run (download_video url output_dir retry_count verbose
                              cookies_file cookies_from_browser) w = Ok (Some r)).
Proof.
  split.
  - intros Hid Hnone m.
    assert (m w = (Ok None, emit (EFetch url) w)) as Hm.
    { unfold m. rewrite (download_video_enters_loop _ _ _ _ _ _ _ video_id Hid Hnone).
      reflexivity. }
    destruct (run_after _ _ _ _ Hm) as [-> _].
    rewrite (effects_of _ _ _ _ [EFetch url] Hm) by reflexivity. auto.
  - intros retry_count Hn.
    destruct (returns_download_video url output_dir retry_count verbose
                cookies_file cookies_from_browser Hn w) as (o & Ho & [r ->]).
    eauto.
Qed.

Lemma zero_retries_answer_none_witness :
  let w := quiet (Exited 0 EmptyString EmptyString []) 0 ∅ in
  (run (download_video "ABC" "out" 0 false None None) w = Ok None
   ∧ effects (download_video "ABC" "out" 0 false None None) w = [EFetch "ABC"])
  ∧ ∃ r, run (download_video "ABC" "out" 1 false None None) w = Ok (Some r).
Proof.
  pose proof (zero_retries_answer_none "ABC" "out" false None None
                (quiet (Exited 0 EmptyString EmptyString []) 0 ∅) "ABC") as [Hzero Hone].
  split.
  - apply Hzero; [reflexivity|]. intros ext _. reflexivity.
  - apply (Hone 1). lia.
Defined.

(** C1, as the code has it.  With retry count 3, no output file in place
    and every launch failing with a generic error, the fetch launches the
    downloader four times: the primary format at attempts 0, 1 and 2, and
    the fallback format once, inside attempt 1.  It sleeps after attempts 0
    and 1 and answers that the retries are exhausted, with the output of
    the last launch. *)
Theorem retry_exhaustion (url output_dir : string) (verbose : bool)
    (cookies_file cookies_from_browser : option string) (w : world) (video_id : string) :
  extract_video_id_from_url url = Ok video_id →
  (∀ ext, ext ∈ container_exts → fs w !! output_path output_dir video_id ext = None) →
  (∀ k, generic_failure (launches w k) = true) →
  let m := download_video url output_dir 3 verbose cookies_file cookies_from_browser in
  let template := OsPath.join output_dir (video_id +:+ ".%(ext)s") in
  let primary := EInvoke (primary_cmd url template cookies_file cookies_from_browser) in
  let fallback := EInvoke (fallback_cmd url template cookies_file cookies_from_browser) in
  run m w = Ok (Some (retries_exhausted url video_id 3
                        (launch_output (launches w (3 + launched w)%nat))))
  ∧ effects m w = [EFetch url;
                   primary; ESleep (Backoff 1 (draws w (drawn w)));
                   primary; fallback; ESleep (Backoff 2 (draws w (S (drawn w))));
                   primary]
  ∧ length (invocations (effects m w)) = 4%nat
  ∧ launched (after m w) = (4 + launched w)%nat.
Proof.
  intros Hid Hnone Hgen m template primary fallback.
  destruct (generic_failure_inv _ (Hgen (launched w)))
    as (rc0 & o0 & e0 & f0 & L0 & Hrc0 & A0 & U0).
  destruct (generic_failure_inv _ (Hgen (1 + launched w)%nat))
    as (rc1 & o1 & e1 & f1 & L1 & Hrc1 & A1 & U1).
  destruct (generic_failure_inv _ (Hgen (2 + launched w)%nat))
    as (rc2 & o2 & e2 & f2 & L2 & Hrc2 & A2 & U2).
  destruct (generic_failure_inv _ (Hgen (3 + launched w)%nat))
    as (rc3 & o3 & e3 & f3 & L3 & Hrc3 & A3 & U3).
  pose (p := primary_cmd url template cookies_file cookies_from_browser).
  pose (q := fallback_cmd url template cookies_file cookies_from_browser).
  pose (w1 := slept 0 (launched_with p f0 (emit (EFetch url) w))).
  pose (w2 := slept 1 (launched_with q f2 (launched_with p f1 w1))).
  assert (m w = (Ok (Some (retries_exhausted url video_id 3 (o3 +:+ e3))),
                 launched_with p f3 w2)) as Hm.
  { unfold m. rewrite (download_video_enters_loop _ _ _ _ _ _ _ video_id Hid Hnone).
    change (Py.range 3) with [0; 1; 2].
    rewrite (for_in_next 0 _ _ _ w1).
    2:{ apply (attempt_retry _ _ _ _ _ _ 0 (emit (EFetch url) w) rc0 o0 e0 f0 L0);
        auto; lia. }
    rewrite (for_in_next 1 _ _ _ w2).
    2:{ apply (attempt_alternate_retry _ _ _ _ _ _ 1 w1 rc1 o1 e1 f1 L1 Hrc1
                 (A1 _ _) U1 rc2 o2 e2 f2 eq_refl L2); auto; lia. }
    apply for_in_return.
    apply (attempt_exhausted _ _ _ _ _ _ 2 w2 rc3 o3 e3 f3 L3); auto; lia. }
  destruct (run_after _ _ _ _ Hm) as [-> ->].
  rewrite L3. cbn [launch_output].
  rewrite (effects_of _ _ _ _
             [EFetch url; primary; ESleep (Backoff 1 (draws w (drawn w)));
              primary; fallback; ESleep (Backoff 2 (draws w (S (drawn w)))); primary] Hm).
  2:{ cbn. rewrite <- !app_assoc. reflexivity. }
  repeat split; reflexivity.
Qed.

Lemma retry_exhaustion_witness :
  let w := quiet (Exited 1 EmptyString "ERROR: timed out" []) 0 ∅ in
  let m := download_video "ABC" "out" 3 false None None in
  run m w = Ok (Some (retries_exhausted "ABC" "ABC" 3 "ERROR: timed out"))
  ∧ length (invocations (effects m w)) = 4%nat.
Proof.
  pose proof (retry_exhaustion "ABC" "out" false None None
                (quiet (Exited 1 EmptyString "ERROR: timed out" []) 0 ∅) "ABC") as H.
  cbv zeta in H. destruct H as (Hrun & _ & Hcount & _).
  - reflexivity.
  - intros ext _. reflexivity.
  - intros k. vm_compute. reflexivity.
  - split; [exact Hrun | exact Hcount].
Defined.

(** C1 as stated fails: with every launch failing the same generic way,
    the downloader is launched four times, not three. *)
Lemma retry_exhaustion_counterexample :
  let w := quiet (Exited 1 EmptyString "ERROR: timed out" []) 0 ∅ in
  let m := download_video "ABC" "out" 3 false None None in
  (∀ k, generic_failure (launches w k) = true)
  ∧ run m w = Ok (Some (retries_exhausted "ABC" "ABC" 3 "ERROR: timed out"))
  ∧ length (invocations (effects m w)) ≠ 3%nat.
Proof.
  cbv zeta. split; [intros k; vm_compute; reflexivity|].
  split; [vm_compute; reflexivity|].
  vm_compute. discriminate.
Qed.

(** ** What a run can answer *)

Section Ensures.
Context {A B : Type}.

Lemma ensures_ret (Q : A → Prop) (a : A) : Q a → ensures Q (ret a).
Proof. intros H w b [= <-]. exact H. Qed.

Lemma ensures_bind (Q : A → Prop) (R : B → Prop) (m : M A) (k : A → M B) :
  ensures Q m → (∀ a, Q a → ensures R (k a)) → ensures R (bind m k).
Proof.
  intros Hm Hk w b. unfold run, bind. specialize (Hm w). unfold run in Hm.
  destruct (m w) as [[a|e] w'].
  - apply Hk. apply Hm. reflexivity.
  - discriminate.
Qed.

Lemma ensures_any (m : M A) : ensures (λ _, True) m.
Proof. intros w a _. exact I. Qed.

Lemma ensures_try_except (Q : A → Prop) (m : M A) (h : exn → M A) :
  ensures Q m → (∀ e, ensures Q (h e)) → ensures Q (try_except m h).
Proof.
  intros Hm Hh w a. unfold run, try_except. specialize (Hm w).
  unfold run in Hm. destruct (m w) as [[a'|e] w'].
  - apply Hm.
  - apply Hh.
Qed.
End Ensures.

Lemma ensures_for_in {A R} (Q : R → Prop) (l : list A) (body : A → M (option R)) :
  (∀ x, ensures (on_return Q) (body x)) → ensures (on_return Q) (for_in l body).
Proof.
  intros Hbody. induction l as [|x l IH]; cbn [for_in].
  - apply ensures_ret. intros r [=].
  - intros w o. unfold run, bind. specialize (Hbody x w). unfold run in Hbody.
    destruct (body x w) as [[[v|]|e] w'].
    + intros [= <-]. apply Hbody. reflexivity.
    + apply IH.
    + discriminate.
Qed.

Lemma auth_branch_supplied (cookies_file cookies_from_browser : option string)
    (stdout stderr : string) :
  Py.truthy_opt cookies_file || Py.truthy_opt cookies_from_browser = true →
  auth_branch cookies_file cookies_from_browser stdout stderr = false.
Proof. intros H. unfold auth_branch. rewrite H. apply andb_false_r. Qed.

Lemma auth_branch_missing (stdout stderr : string)
    (cookies_file cookies_from_browser : option string) :
  Py.truthy_opt cookies_file = false → Py.truthy_opt cookies_from_browser = false →
  Py.contains bot_check stdout || Py.contains bot_check stderr = true →
  auth_branch cookies_file cookies_from_browser stdout stderr = true.
Proof.
  unfold auth_branch. intros -> -> H. rewrite orb_comm, H. reflexivity.
Qed.

(** With cookies supplied, no pass of the retry loop returns the
    dictionary of the authentication branch. *)
Section Supplied.
Variables (url video_id output_template : string) (retry_count : Z).
Variables (cookies_file cookies_from_browser : option string).
Hypothesis supplied :
  Py.truthy_opt cookies_file || Py.truthy_opt cookies_from_browser = true.

Ltac other_dictionary :=
  apply ensures_ret; intros r [= <-] (u & v & d & Heq); discriminate Heq.

Lemma alternate_supplied (attempt : Z) (stdout stderr : string) :
  ensures (λ x, on_return (λ r, ¬ is_auth_required r) x.1.1)
    (alternate url video_id output_template cookies_file cookies_from_browser
               attempt stdout stderr).
Proof.
  unfold alternate. destruct (attempt =? 1).
  - eapply ensures_bind; [apply ensures_any|]. intros [[rc out] err] _.
    destruct (rc =? 0); apply ensures_ret; cbn.
    + intros r [= <-] (u & v & d & Heq). discriminate Heq.
    + intros r [=].
  - apply ensures_ret. intros r [=].
Qed.

Lemma attempt_body_supplied (attempt : Z) :
  ensures (on_return (λ r, ¬ is_auth_required r))
    (attempt_body url video_id output_template retry_count
                  cookies_file cookies_from_browser attempt).
Proof.
  apply ensures_try_except.
  - unfold attempt_try. eapply ensures_bind; [apply ensures_any|].
    intros [[rc stdout] stderr] _.
    rewrite (auth_branch_supplied _ _ _ _ supplied).
    destruct (negb (rc =? 0)); [|other_dictionary].
    destruct (unavailable_branch stdout stderr); [other_dictionary|].
    eapply ensures_bind; [apply alternate_supplied|].
    intros [[[r|] out] err] Hr; cbn in Hr.
    + apply ensures_ret. intros r' [= <-]. apply Hr. reflexivity.
    + destruct (attempt <? retry_count - 1).
      * eapply ensures_bind; [apply ensures_any|]. intros _ _.
        apply ensures_ret. intros r [=].
      * other_dictionary.
  - intros e. destruct (attempt <? retry_count - 1).
    + eapply ensures_bind; [apply ensures_any|]. intros _ _.
      apply ensures_ret. intros r [=].
    + other_dictionary.
Qed.

End Supplied.

Lemma download_video_supplied (url output_dir : string) (retry_count : Z)
    (verbose : bool) (cookies_file cookies_from_browser : option string) :
  Py.truthy_opt cookies_file || Py.truthy_opt cookies_from_browser = true →
  ensures (on_return (λ r, ¬ is_auth_required r))
    (download_video url output_dir retry_count verbose
                    cookies_file cookies_from_browser).
Proof.
  intros supplied. unfold download_video.
  eapply ensures_bind; [apply ensures_any|]. intros _ _.
  eapply ensures_bind; [apply ensures_any|]. intros vid _.
  eapply ensures_bind with (Q := on_return (λ r, ¬ is_auth_required r)).
  - apply ensures_for_in. intros ext.
    eapply ensures_bind; [apply ensures_any|]. intros [|] _.
    + apply ensures_ret. intros r [= <-] (u & v & d & Heq). discriminate Heq.
    + apply ensures_ret. intros r [=].
  - intros [r|] Hr.
    + apply ensures_ret. intros r' [= <-]. apply Hr. reflexivity.
    + apply ensures_for_in. intros attempt.
      apply attempt_body_supplied. exact supplied.
Qed.

(** The fetch whose first launch runs to its end with a non-zero code,
    up to the answer of its first pass. *)
Lemma download_video_first_pass (url output_dir : string) (retry_count : Z)
    (verbose : bool) (cookies_file cookies_from_browser : option string)
    (w w' : world) (video_id : string) (r : result) :
  extract_video_id_from_url url = Ok video_id →
  (∀ ext, ext ∈ container_exts → fs w !! output_path output_dir video_id ext = None) →
  1 ≤ retry_count →
  attempt_body url video_id (OsPath.join output_dir (video_id +:+ ".%(ext)s"))
               retry_count cookies_file cookies_from_browser 0 (emit (EFetch url) w)
  = (Ok (Some r), w') →
  download_video url output_dir retry_count verbose cookies_file cookies_from_browser w
  = (Ok (Some r), w').
Proof.
  intros Hid Hnone Hn Hbody.
  rewrite (download_video_enters_loop _ _ _ _ _ _ _ video_id Hid Hnone).
  unfold Py.range. replace (Z.to_nat retry_count) with (S (Z.to_nat (retry_count - 1))) by lia.
  cbn [seq map]. apply for_in_return. exact Hbody.
Qed.

(** C4, as the code has it.  Authentication material counts as supplied
    when the code attaches it to the command line: given and not empty.
    With none supplied, a pass of the retry loop whose primary launch (the
    launch that opens the pass) fails with the bot-check text in either
    stream makes the loop return the authentication error at once,
    whatever attempts were still to come: one launch, no sleep.  In
    particular a fetch whose first launch does so consists of that one
    launch.  With material supplied, no fetch ever answers the dictionary
    of this branch.  The output of the fallback launch, which the pass
    numbered 1 makes after a generic failure of its primary launch, is not
    tested: when the fallback launch fails, whatever it printed, the pass
    ends with its back-off sleep and the loop goes on, or, no attempt being
    left, with the error of exhausted retries. *)
Theorem auth_required_not_retried (url : string) (retry_count : Z)
    (cookies_file cookies_from_browser : option string) :
  (Py.truthy_opt cookies_file = false → Py.truthy_opt cookies_from_browser = false →
   ∀ w rc stdout stderr files,
     launches w (launched w) = Exited rc stdout stderr files → rc ≠ 0 →
     Py.contains bot_check stdout || Py.contains bot_check stderr = true →
     (∀ video_id output_template attempt later,
        for_in (attempt :: later)
          (attempt_body url video_id output_template retry_count
                        cookies_file cookies_from_browser) w
        = (Ok (Some (auth_required url video_id stderr)),
           launched_with (primary_cmd url output_template
                                      cookies_file cookies_from_browser) files w))
     ∧ (∀ output_dir verbose video_id,
          extract_video_id_from_url url = Ok video_id →
          (∀ ext, ext ∈ container_exts →
                  fs w !! output_path output_dir video_id ext = None) →
          1 ≤ retry_count →
          let m := download_video url output_dir retry_count verbose
                                  cookies_file cookies_from_browser in
          run m w = Ok (Some (auth_required url video_id stderr))
          ∧ effects m w
            = [EFetch url;
               EInvoke (primary_cmd url (OsPath.join output_dir (video_id +:+ ".%(ext)s"))
                                    cookies_file cookies_from_browser)]))
  ∧ (Py.truthy_opt cookies_file || Py.truthy_opt cookies_from_browser = true →
     ∀ output_dir verbose w r,
       run (download_video url output_dir retry_count verbose
                           cookies_file cookies_from_browser) w = Ok (Some r) →
       ¬ is_auth_required r)
  ∧ (∀ w rc stdout stderr files rc' stdout' stderr' files' video_id output_template,
       launches w (launched w) = Exited rc stdout stderr files → rc ≠ 0 →
       auth_branch cookies_file cookies_from_browser stdout stderr = false →
       unavailable_branch stdout stderr = false →
       launches w (S (launched w)) = Exited rc' stdout' stderr' files' → rc' ≠ 0 →
       let body := attempt_body url video_id output_template retry_count
                                cookies_file cookies_from_browser in
       let w' :=
         launched_with
           (fallback_cmd url output_template cookies_file cookies_from_browser) files'
           (launched_with
              (primary_cmd url output_template cookies_file cookies_from_browser)
              files w) in
       (1 < retry_count - 1 → body 1 w = (Ok None, slept 1 w'))
       ∧ (¬ 1 < retry_count - 1 →
          body 1 w
          = (Ok (Some (retries_exhausted url video_id retry_count
                                         (stdout' +:+ stderr'))), w'))).
Proof.
  split; [|split].
  - intros Hfile Hbrowser w rc stdout stderr files Hexit Hrc Hbot.
    pose proof (auth_branch_missing _ _ _ _ Hfile Hbrowser Hbot) as Hauth.
    split.
    + intros video_id output_template attempt later. apply for_in_return.
      apply (attempt_auth _ _ _ _ _ _ _ _ rc stdout stderr files); assumption.
    + intros output_dir verbose video_id Hid Hnone Hn m.
      assert (m w = (Ok (Some (auth_required url video_id stderr)),
                     launched_with
                       (primary_cmd url (OsPath.join output_dir (video_id +:+ ".%(ext)s"))
                                    cookies_file cookies_from_browser)
                       files (emit (EFetch url) w))) as Hm.
      { apply (download_video_first_pass _ _ _ _ _ _ _ _ video_id); try assumption.
        apply (attempt_auth _ _ _ _ _ _ _ _ rc stdout stderr files); assumption. }
      destruct (run_after _ _ _ _ Hm) as [-> _].
      split; [reflexivity|].
      apply (effects_of _ _ _ _ _ Hm). cbn. rewrite <- app_assoc. reflexivity.
  - intros Hsupplied output_dir verbose w r Hrun.
    apply (download_video_supplied _ _ _ _ _ _ Hsupplied w _ Hrun). reflexivity.
  - intros w rc stdout stderr files rc' stdout' stderr' files' video_id output_template
      Hexit Hrc Hauth Hun Hexit' Hrc' body w'.
    split; intros Hlt.
    + apply (attempt_alternate_retry url video_id output_template retry_count
               cookies_file cookies_from_browser 1 w rc stdout stderr files Hexit
               Hrc Hauth Hun rc' stdout' stderr' files' eq_refl Hexit' Hrc' Hlt).
    + apply (attempt_alternate_exhausted url video_id output_template retry_count
               cookies_file cookies_from_browser 1 w rc stdout stderr files Hexit
               Hrc Hauth Hun rc' stdout' stderr' files' eq_refl Hexit' Hrc' Hlt).
Qed.

Lemma auth_required_not_retried_witness :
  let stderr := "ERROR: Sign in to confirm you're not a bot" in
  let w := quiet (Exited 1 EmptyString stderr []) 0 ∅ in
  (let m := download_video "ABC" "out" 3 false None None in
   run m w = Ok (Some (auth_required "ABC" "ABC" stderr))
   ∧ effects m w
     = [EFetch "ABC"; EInvoke (primary_cmd "ABC" "out/ABC.%(ext)s" None None)])
  ∧ (¬ is_auth_required
         (retries_exhausted "ABC" "ABC" 1 (EmptyString +:+ stderr)))
  ∧ (let w1 := with_launched 1 (fallback_answering stderr) in
     let primary := primary_cmd "ABC" "out/ABC.%(ext)s" None None in
     let fallback := fallback_cmd "ABC" "out/ABC.%(ext)s" None None in
     attempt_body "ABC" "ABC" "out/ABC.%(ext)s" 3 None None 1 w1
     = (Ok None, slept 1 (launched_with fallback [] (launched_with primary [] w1)))).
Proof.
  cbv zeta. split; [|split].
  - destruct (auth_required_not_retried "ABC" 3 None None) as (Hmissing & _ & _).
    destruct (Hmissing eq_refl eq_refl
                (quiet (Exited 1 EmptyString "ERROR: Sign in to confirm you're not a bot" []) 0 ∅)
                1 EmptyString "ERROR: Sign in to confirm you're not a bot" [])
      as [_ Hfetch].
    + reflexivity.
    + lia.
    + vm_compute. reflexivity.
    + apply (Hfetch "out" false "ABC").
      * reflexivity.
      * intros ext _. reflexivity.
      * lia.
  - destruct (auth_required_not_retried "ABC" 1 (Some "cookies.txt") None)
      as (_ & Hsupplied & _).
    apply (Hsupplied eq_refl "out" false
             (quiet (Exited 1 EmptyString "ERROR: Sign in to confirm you're not a bot" []) 0 ∅)).
    vm_compute. reflexivity.
  - destruct (auth_required_not_retried "ABC" 3 None None) as (_ & _ & Hfallback).
    destruct (Hfallback
                (with_launched 1
                   (fallback_answering "ERROR: Sign in to confirm you're not a bot"))
                1 EmptyString "ERROR: timed out" []
                1 EmptyString "ERROR: Sign in to confirm you're not a bot" []
                "ABC" "out/ABC.%(ext)s") as [Hretry _].
    + reflexivity.
    + lia.
    + vm_compute. reflexivity.
    + vm_compute. reflexivity.
    + reflexivity.
    + lia.
    + apply Hretry. lia.
Defined.

(** C4 as stated fails for the fallback launch: it is a downloader
    invocation, it fails with the bot-check text and no authentication
    material was supplied, yet the fetch sleeps, makes its third attempt
    and ends with the error of exhausted retries. *)
Lemma auth_required_not_retried_counterexample :
  let stderr := "ERROR: Sign in to confirm you're not a bot" in
  let w := fallback_answering stderr in
  let m := download_video "ABC" "out" 3 false None None in
  let primary := primary_cmd "ABC" "out/ABC.%(ext)s" None None in
  let fallback := fallback_cmd "ABC" "out/ABC.%(ext)s" None None in
  launches w 2%nat = Exited 1 EmptyString stderr []
  ∧ Py.contains bot_check stderr = true
  ∧ effects m w
    = [EFetch "ABC"; EInvoke primary; ESleep (Backoff 1 0); EInvoke primary;
       EInvoke fallback; ESleep (Backoff 2 1); EInvoke primary]
  ∧ run m w
    = Ok (Some (retries_exhausted "ABC" "ABC" 3 (EmptyString +:+ "ERROR: timed out")))
  ∧ run m w ≠ Ok (Some (auth_required "ABC" "ABC" stderr)).
Proof.
  cbv zeta. split; [reflexivity|]. split; [vm_compute; reflexivity|].
  split; [vm_compute; reflexivity|]. split; [vm_compute; reflexivity|].
  vm_compute. discriminate.
Qed.

(** C5, as the code has it.  The bot check comes first: the unavailable
    marker decides only when the authentication branch is not taken (no
    bot-check text in the output, or cookies supplied).  Then a pass whose
    primary launch (the launch that opens the pass) fails with the marker
    in either stream makes the retry loop return the unavailable error at
    once, whatever attempts were still to come, and a fetch whose first
    launch does so consists of that one launch: one attempt, no retry, no
    sleep.  The output of the fallback launch, which the pass numbered 1
    makes after a generic failure of its primary launch, is not tested for
    the marker: when the fallback launch fails, whatever it printed, the
    pass ends with its back-off sleep and the loop goes on, or, no attempt
    being left, with the error of exhausted retries. *)
Theorem unavailable_not_retried (url : string) (retry_count : Z)
    (cookies_file cookies_from_browser : option string) :
  (∀ (w : world) (rc : Z) (stdout stderr : string) (files : list (string * string)),
     launches w (launched w) = Exited rc stdout stderr files → rc ≠ 0 →
     Py.contains unavailable stdout || Py.contains unavailable stderr = true →
     auth_branch cookies_file cookies_from_browser stdout stderr = false →
     (∀ video_id output_template attempt later,
        for_in (attempt :: later)
          (attempt_body url video_id output_template retry_count
                        cookies_file cookies_from_browser) w
        = (Ok (Some (video_unavailable url video_id (stdout +:+ stderr))),
           launched_with (primary_cmd url output_template
                                      cookies_file cookies_from_browser) files w))
     ∧ (∀ output_dir verbose video_id,
          extract_video_id_from_url url = Ok video_id →
          (∀ ext, ext ∈ container_exts →
                  fs w !! output_path output_dir video_id ext = None) →
          1 ≤ retry_count →
          let m := download_video url output_dir retry_count verbose
                                  cookies_file cookies_from_browser in
          run m w = Ok (Some (video_unavailable url video_id (stdout +:+ stderr)))
          ∧ effects m w
            = [EFetch url;
               EInvoke (primary_cmd url (OsPath.join output_dir (video_id +:+ ".%(ext)s"))
                                    cookies_file cookies_from_browser)]
          ∧ length (invocations (effects m w)) = 1%nat
          ∧ sleeps (effects m w) = []))
  ∧ (∀ w rc stdout stderr files rc' stdout' stderr' files' video_id output_template,
       launches w (launched w) = Exited rc stdout stderr files → rc ≠ 0 →
       auth_branch cookies_file cookies_from_browser stdout stderr = false →
       unavailable_branch stdout stderr = false →
       launches w (S (launched w)) = Exited rc' stdout' stderr' files' → rc' ≠ 0 →
       let body := attempt_body url video_id output_template retry_count
                                cookies_file cookies_from_browser in
       let w' :=
         launched_with
           (fallback_cmd url output_template cookies_file cookies_from_browser) files'
           (launched_with
              (primary_cmd url output_template cookies_file cookies_from_browser)
              files w) in
       (1 < retry_count - 1 → body 1 w = (Ok None, slept 1 w'))
       ∧ (¬ 1 < retry_count - 1 →
          body 1 w
          = (Ok (Some (retries_exhausted url video_id retry_count
                                         (stdout' +:+ stderr'))), w'))).
Proof.
  split.
  2:{ intros w rc stdout stderr files rc' stdout' stderr' files' video_id output_template
        Hexit Hrc Hauth Hun Hexit' Hrc' body w'.
      split; intros Hlt.
      - apply (attempt_alternate_retry url video_id output_template retry_count
                 cookies_file cookies_from_browser 1 w rc stdout stderr files Hexit
                 Hrc Hauth Hun rc' stdout' stderr' files' eq_refl Hexit' Hrc' Hlt).
      - apply (attempt_alternate_exhausted url video_id output_template retry_count
                 cookies_file cookies_from_browser 1 w rc stdout stderr files Hexit
                 Hrc Hauth Hun rc' stdout' stderr' files' eq_refl Hexit' Hrc' Hlt). }
  intros w rc stdout stderr files Hexit Hrc Hmarker Hauth. split.
  - intros video_id output_template attempt later. apply for_in_return.
    apply (attempt_unavailable _ _ _ _ _ _ _ _ rc stdout stderr files); assumption.
  - intros output_dir verbose video_id Hid Hnone Hn m.
    assert (m w = (Ok (Some (video_unavailable url video_id (stdout +:+ stderr))),
                   launched_with
                     (primary_cmd url (OsPath.join output_dir (video_id +:+ ".%(ext)s"))
                                  cookies_file cookies_from_browser)
                     files (emit (EFetch url) w))) as Hm.
    { apply (download_video_first_pass _ _ _ _ _ _ _ _ video_id); try assumption.
      apply (attempt_unavailable _ _ _ _ _ _ _ _ rc stdout stderr files); assumption. }
    destruct (run_after _ _ _ _ Hm) as [-> _].
    split; [reflexivity|].
    rewrite (effects_of _ _ _ _
               [EFetch url;
                EInvoke (primary_cmd url (OsPath.join output_dir (video_id +:+ ".%(ext)s"))
                                     cookies_file cookies_from_browser)] Hm).
    + repeat split; reflexivity.
    + cbn. rewrite <- app_assoc. reflexivity.
Qed.

Lemma unavailable_not_retried_witness :
  let stdout := "ERROR: [youtube] ABC: Video unavailable" in
  let w := quiet (Exited 1 stdout EmptyString []) 0 ∅ in
  let m := download_video "ABC" "out" 3 false None None in
  (run m w = Ok (Some (video_unavailable "ABC" "ABC" (stdout +:+ EmptyString)))
   ∧ length (invocations (effects m w)) = 1%nat
   ∧ sleeps (effects m w) = [])
  ∧ (let w1 := with_launched 1 (fallback_answering stdout) in
     let primary := primary_cmd "ABC" "out/ABC.%(ext)s" None None in
     let fallback := fallback_cmd "ABC" "out/ABC.%(ext)s" None None in
     attempt_body "ABC" "ABC" "out/ABC.%(ext)s" 3 None None 1 w1
     = (Ok None, slept 1 (launched_with fallback [] (launched_with primary [] w1)))).
Proof.
  cbv zeta.
  destruct (unavailable_not_retried "ABC" 3 None None) as [Hprimary Hfallback].
  split.
  2:{ destruct (Hfallback
                  (with_launched 1
                     (fallback_answering "ERROR: [youtube] ABC: Video unavailable"))
                  1 EmptyString "ERROR: timed out" []
                  1 EmptyString "ERROR: [youtube] ABC: Video unavailable" []
                  "ABC" "out/ABC.%(ext)s") as [Hretry _].
      - reflexivity.
      - lia.
      - vm_compute. reflexivity.
      - vm_compute. reflexivity.
      - reflexivity.
      - lia.
      - apply Hretry. lia. }
  destruct (Hprimary
              (quiet (Exited 1 "ERROR: [youtube] ABC: Video unavailable" EmptyString []) 0 ∅)
              1 "ERROR: [youtube] ABC: Video unavailable" EmptyString [])
    as [_ Hfetch].
  - reflexivity.
  - lia.
  - vm_compute. reflexivity.
  - vm_compute. reflexivity.
  - destruct (Hfetch "out" false "ABC") as (Hrun & _ & Hcount & Hsleeps).
    + reflexivity.
    + intros ext _. reflexivity.
    + lia.
    + auto.
Defined.

(** C5 as stated fails in two ways.  When the failing launch prints both
    markers and no cookies were supplied, the fetch answers the
    authentication error.  And when it is the fallback launch that fails
    with the marker, the fetch sleeps, makes its third attempt and ends
    with the error of exhausted retries: four launches and two sleeps. *)
Lemma unavailable_not_retried_counterexample :
  let stderr := "ERROR: Sign in to confirm you're not a bot. Video unavailable" in
  let w := quiet (Exited 1 EmptyString stderr []) 0 ∅ in
  let m := download_video "ABC" "out" 3 false None None in
  let gone := "ERROR: [youtube] ABC: Video unavailable" in
  let primary := primary_cmd "ABC" "out/ABC.%(ext)s" None None in
  let fallback := fallback_cmd "ABC" "out/ABC.%(ext)s" None None in
  (Py.contains unavailable stderr = true
   ∧ run m w = Ok (Some (auth_required "ABC" "ABC" stderr))
   ∧ run m w ≠ Ok (Some (video_unavailable "ABC" "ABC" (EmptyString +:+ stderr))))
  ∧ (launches (fallback_answering gone) 2%nat = Exited 1 EmptyString gone []
     ∧ Py.contains unavailable gone = true
     ∧ effects m (fallback_answering gone)
       = [EFetch "ABC"; EInvoke primary; ESleep (Backoff 1 0); EInvoke primary;
          EInvoke fallback; ESleep (Backoff 2 1); EInvoke primary]
     ∧ run m (fallback_answering gone)
       = Ok (Some (retries_exhausted "ABC" "ABC" 3
                                     (EmptyString +:+ "ERROR: timed out")))).
Proof.
  cbv zeta. split.
  - split; [vm_compute; reflexivity|].
    split; [vm_compute; reflexivity|].
    vm_compute. discriminate.
  - split; [reflexivity|]. split; [vm_compute; reflexivity|].
    split; vm_compute; reflexivity.
Qed.

(** ** The trace of a fetch *)

Section FetchEvents.
Variable P : event → Prop.
Hypothesis P_fetch : ∀ url, P (EFetch url).
Hypothesis P_invoke : ∀ cmd, P (EInvoke cmd).
Hypothesis P_backoff : ∀ base jitter, P (ESleep (Backoff base jitter)).

Lemma emits_backoff (attempt : Z) : emits P (backoff attempt).
Proof.
  unfold backoff. apply emits_bind; [apply emits_draw|].
  intros j. apply emits_mark. apply P_backoff.
Qed.

Lemma emits_attempt_body (url video_id output_template : string) (retry_count : Z)
    (cookies_file cookies_from_browser : option string) (attempt : Z) :
  emits P (attempt_body url video_id output_template retry_count
                        cookies_file cookies_from_browser attempt).
Proof.
  assert (∀ r : option result, emits P (backoff attempt >> ret r)) as Hsleep.
  { intros r. apply emits_bind; [apply emits_backoff | intros; apply emits_ret]. }
  apply emits_try_except.
  - unfold attempt_try. apply emits_bind; [apply emits_popen, P_invoke|].
    intros [[rc stdout] stderr].
    destruct (negb (rc =? 0)); [|apply emits_ret].
    destruct (auth_branch _ _ _ _); [apply emits_ret|].
    destruct (unavailable_branch _ _); [apply emits_ret|].
    apply emits_bind.
    + unfold alternate. destruct (attempt =? 1); [|apply emits_ret].
      apply emits_bind; [apply emits_popen, P_invoke|].
      intros [[rc' out] err]. destruct (rc' =? 0); apply emits_ret.
    + intros [[[r|] out] err]; [apply emits_ret|].
      destruct (attempt <? retry_count - 1); [apply Hsleep | apply emits_ret].
  - intros e. destruct (attempt <? retry_count - 1); [apply Hsleep | apply emits_ret].
Qed.

Lemma emits_download_video (url output_dir : string) (retry_count : Z) (verbose : bool)
    (cookies_file cookies_from_browser : option string) :
  emits P (download_video url output_dir retry_count verbose
                          cookies_file cookies_from_browser).
Proof.
  unfold download_video.
  apply emits_bind; [apply emits_mark, P_fetch|]. intros _.
  apply emits_bind; [apply emits_lift|]. intros video_id.
  apply emits_bind; [apply emits_existence_check|].
  intros [r|]; [apply emits_ret|].
  apply emits_for_in. intros attempt. apply emits_attempt_body.
Qed.
End FetchEvents.

(** A computation that starts by marking [e] has [e] first among its
    effects. *)
Lemma effects_marked {A} (P : event → Prop) (e : event) (k : M A) (w : world) :
  emits P k →
  ∃ t, effects (mark e >> k) w = e :: t ∧ Forall P t.
Proof.
  intros Hk. destruct (Hk (emit e w)) as (t & Ht & HP).
  exists t. split; [|exact HP].
  apply effects_app. unfold after in *. unfold bind, mark.
  rewrite Ht. cbn. rewrite <- app_assoc. reflexivity.
Qed.

(** ** The Progress Ledger *)

Lemma read_downloaded_urls_eq (p : string) (w : world) :
  read_downloaded_urls p w = (Ok (ledger_of w p), w).
Proof.
  unfold read_downloaded_urls, ledger_of, bind, os_path_exists, read_text, ret.
  destruct (fs w !! p) eqn:E; cbn; rewrite ?E; reflexivity.
Qed.

Lemma elem_of_stripped_lines (text x : string) :
  x ∈ stripped_lines text ↔
  ∃ line, line ∈ Py.lines text ∧ x = Py.strip line ∧ x ≠ EmptyString.
Proof.
  unfold stripped_lines. rewrite list_elem_of_filter, list_elem_of_In, in_map_iff.
  split.
  - intros (Hne & line & <- & Hin). exists line.
    rewrite list_elem_of_In. repeat split; [exact Hin|].
    intros Heq. rewrite Heq in Hne. discriminate.
  - intros (line & Hin & -> & Hne). split.
    + destruct (Py.strip line); [contradiction | reflexivity].
    + exists line. rewrite <- list_elem_of_In. auto.
Qed.

(** C8, as the code has it.  Loading touches nothing.  Where no file is
    at the path it answers the empty set and does not raise.  Where a file
    is, it answers the set of the file's lines with the white space around
    them stripped, the lines that are blank (empty once stripped) left
    out. *)
Theorem ledger_load (p : string) (w : world) :
  let m := read_downloaded_urls p in
  after m w = w
  ∧ (fs w !! p = None → run m w = Ok ∅)
  ∧ (∀ text, fs w !! p = Some text →
       ∃ ledger : gset string,
         run m w = Ok ledger
         ∧ ∀ x, x ∈ ledger ↔
                ∃ line, line ∈ Py.lines text ∧ x = Py.strip line ∧ x ≠ EmptyString).
Proof.
  cbv zeta. unfold run, after. rewrite read_downloaded_urls_eq. cbn [fst snd].
  unfold ledger_of. split; [reflexivity|]. split.
  - intros ->. reflexivity.
  - intros text ->. eexists. split; [reflexivity|].
    intros x. rewrite elem_of_list_to_set. apply elem_of_stripped_lines.
Qed.

Lemma ledger_load_witness :
  let w := quiet (Exited 0 EmptyString EmptyString []) 0 {[ "downloaded_train_urls.txt" := "ABC" ]} in
  run (read_downloaded_urls "downloaded_test_urls.txt") w = Ok ∅
  ∧ ∃ ledger : gset string,
      run (read_downloaded_urls "downloaded_train_urls.txt") w = Ok ledger
      ∧ ∀ x, x ∈ ledger ↔
             ∃ line, line ∈ Py.lines "ABC" ∧ x = Py.strip line ∧ x ≠ EmptyString.
Proof.
  cbv zeta. split.
  - apply (ledger_load "downloaded_test_urls.txt"
             (quiet (Exited 0 EmptyString EmptyString []) 0 {[ "downloaded_train_urls.txt" := "ABC" ]})).
    vm_compute. reflexivity.
  - apply (ledger_load "downloaded_train_urls.txt"
             (quiet (Exited 0 EmptyString EmptyString []) 0 {[ "downloaded_train_urls.txt" := "ABC" ]})).
    vm_compute. reflexivity.
Defined.

(** C8 as stated fails on a ledger whose line carries white space around
    the reference: the line [ ABC] is not blank, yet the set loaded holds
    [ABC] and not the line. *)
Lemma ledger_load_counterexample :
  let text := " ABC" in
  let w := quiet (Exited 0 EmptyString EmptyString []) 0 {[ "downloaded_train_urls.txt" := text ]} in
  Py.lines text = [text] ∧ Py.strip text ≠ EmptyString
  ∧ ∃ ledger : gset string,
      run (read_downloaded_urls "downloaded_train_urls.txt") w = Ok ledger
      ∧ "ABC" ∈ ledger ∧ text ∉ ledger.
Proof.
  cbv zeta. split; [reflexivity|]. split; [vm_compute; discriminate|].
  eexists. split.
  - unfold run. rewrite read_downloaded_urls_eq. reflexivity.
  - unfold ledger_of.
    replace (fs _ !! "downloaded_train_urls.txt") with (Some " ABC")
      by (vm_compute; reflexivity).
    change (stripped_lines " ABC") with ["ABC"].
    rewrite !elem_of_list_to_set, !list_elem_of_singleton.
    split; [reflexivity | discriminate].
Qed.

(** ** The Batch Scheduler *)

Lemma effects_bind {A B} (m : M A) (k : A → M B) (w : world) :
  emits (λ _, True) m → (∀ a, emits (λ _, True) (k a)) →
  ∃ t, effects (bind m k) w = effects m w ++ t.
Proof.
  intros Hm Hk. destruct (Hm w) as (t1 & Ht1 & _).
  rewrite (effects_app m w t1 Ht1). unfold after in Ht1.
  destruct (m w) as [[a|e] w'] eqn:E; cbn in Ht1.
  - destruct (Hk a w') as (t2 & Ht2 & _). exists t2.
    apply effects_app. unfold after in *. rewrite (bind_ok _ _ _ _ _ E).
    rewrite Ht2, Ht1, app_assoc. reflexivity.
  - exists []. apply effects_app. unfold after.
    rewrite (bind_raise _ _ _ _ _ E). cbn. rewrite Ht1, app_nil_r. reflexivity.
Qed.

Section Batch.
Variables (output_dir downloaded_file : string) (verbose : bool).
Variables (cookies_file cookies_from_browser : option string).

Let body := fetch_and_record output_dir downloaded_file verbose
                             cookies_file cookies_from_browser.

Section BatchEvents.
Variable P : event → Prop.
Hypothesis P_inner : ∀ e, inner_event e → P e.

Lemma emits_record_result (acc : list string * list failure) (url : string)
    (result : option result) :
  emits P (record_result downloaded_file acc url result).
Proof.
  unfold record_result. destruct acc as [successful failed].
  destruct result as [r|]; [|apply emits_raise].
  case_bool_decide; [|apply emits_ret].
  apply emits_bind; [|intros; apply emits_ret].
  apply emits_append_text, P_inner. exact I.
Qed.

Lemma emits_body (acc : list string * list failure) (url : string) :
  emits P (body acc url).
Proof.
  unfold body, fetch_and_record. apply emits_bind.
  - apply emits_download_video; intros; apply P_inner; exact I.
  - intros result. apply emits_record_result.
Qed.

Lemma emits_as_completed (n : nat) (pending : list string)
    (acc : list string * list failure) :
  emits P (as_completed n pending acc body).
Proof.
  revert pending acc. induction n as [|n IH]; intros pending acc; cbn [as_completed].
  - apply emits_ret.
  - apply emits_bind; [apply emits_pick|]. intros i.
    destruct (pending !! i) as [url|]; [|apply emits_ret].
    apply emits_bind; [apply emits_body | intros acc'; apply IH].
Qed.

(** The part of [download_batch] that follows the marker. *)
Lemma emits_download_batch (urls : list string) (max_workers : Z) :
  emits P
    (let* downloaded_urls := read_downloaded_urls downloaded_file in
     let urls_to_download := filter (λ url, url ∉ downloaded_urls) urls in
     match urls_to_download with
     | [] => ret tt
     | _ :: _ =>
         let* '(successful_urls, failed_urls) :=
           if max_workers =? 1 then fold_in urls_to_download ([], []) body
           else if max_workers <=? 0
           then raise (ValueError "max_workers must be greater than 0")
           else as_completed (length urls_to_download) urls_to_download ([], []) body in
         let failed_file := Py.replace "downloaded_" "failed_" downloaded_file in
         write_text failed_file (failed_lines failed_urls)
     end).
Proof.
  apply emits_bind; [apply emits_read_downloaded_urls|]. intros ledger.
  destruct (filter _ urls) as [|u rest]; [apply emits_ret|].
  apply emits_bind.
  - destruct (max_workers =? 1); [apply emits_fold_in, emits_body|].
    destruct (max_workers <=? 0); [apply emits_raise | apply emits_as_completed].
  - intros [successful failed]. apply emits_write_text, P_inner. exact I.
Qed.
End BatchEvents.

(** A batch marks its entry and then does inner things only. *)
Lemma effects_download_batch (urls : list string) (max_workers : Z) (w : world) :
  ∃ t, effects (download_batch urls output_dir downloaded_file max_workers verbose
                               cookies_file cookies_from_browser) w
       = EBatch urls :: t
       ∧ Forall inner_event t.
Proof.
  unfold download_batch. apply effects_marked.
  apply emits_download_batch. auto.
Qed.

Lemma returns_record_result (acc : list string * list failure) (url : string)
    (r : result) :
  returns (λ _, True) (record_result downloaded_file acc url (Some r)).
Proof.
  unfold record_result. destruct acc as [successful failed].
  case_bool_decide; [|apply returns_ret; exact I].
  eapply returns_bind; [apply returns_append_text|].
  intros _ _. apply returns_ret. exact I.
Qed.

(** With the default retry count a fetch answers a dictionary, so
    recording it never raises. *)
Lemma returns_body (acc : list string * list failure) (url : string) :
  returns (λ _, True) (body acc url).
Proof.
  unfold body, fetch_and_record.
  eapply returns_bind; [apply returns_download_video; lia|].
  intros o [r ->]. apply returns_record_result.
Qed.

Lemma returns_as_completed (n : nat) (pending : list string)
    (acc : list string * list failure) :
  returns (λ _, True) (as_completed n pending acc body).
Proof.
  revert pending acc. induction n as [|n IH]; intros pending acc; cbn [as_completed].
  - apply returns_ret. exact I.
  - eapply returns_bind; [apply returns_pick|]. intros i _.
    destruct (pending !! i) as [url|]; [|apply returns_ret; exact I].
    eapply returns_bind; [apply returns_body | intros acc' _; apply IH].
Qed.

(** With at least one worker, a batch never raises. *)
Lemma returns_download_batch (urls : list string) (max_workers : Z) :
  1 ≤ max_workers →
  returns (λ _, True)
    (download_batch urls output_dir downloaded_file max_workers verbose
                    cookies_file cookies_from_browser).
Proof.
  intros Hw. unfold download_batch.
  eapply returns_bind; [apply returns_mark|]. intros _ _.
  apply (returns_bind (λ _, True)).
  { intros w. rewrite (proj1 (run_after _ _ _ _ (read_downloaded_urls_eq _ w))).
    eexists. split; [reflexivity | exact I]. }
  intros ledger _. destruct (filter _ urls) as [|u rest]; [apply returns_ret; exact I|].
  eapply returns_bind.
  - destruct (max_workers =? 1); [apply returns_fold_in, returns_body|].
    replace (max_workers <=? 0) with false by (symmetry; apply Z.leb_gt; lia).
    apply returns_as_completed.
  - intros [successful failed] _. apply returns_write_text.
Qed.

(** A batch with nothing left to fetch stops after reading the ledger. *)
Lemma download_batch_filtered (urls : list string) (max_workers : Z) (w : world) :
  filter (λ url, url ∉ ledger_of w downloaded_file) urls = [] →
  download_batch urls output_dir downloaded_file max_workers verbose
                 cookies_file cookies_from_browser w
  = (Ok tt, emit (EBatch urls) w).
Proof.
  intros Hnone. unfold download_batch.
  rewrite (bind_ok _ _ w (emit (EBatch urls) w) tt) by reflexivity.
  rewrite (bind_ok _ _ _ _ _ (read_downloaded_urls_eq _ _)).
  change (ledger_of (emit (EBatch urls) w) downloaded_file)
    with (ledger_of w downloaded_file).
  rewrite Hnone. reflexivity.
Qed.
End Batch.

Lemma effects_ext {A} (m m' : M A) (w : world) :
  m w = m' w → effects m w = effects m' w.
Proof. intros H. unfold effects, after. rewrite H. reflexivity. Qed.

Lemma effects_mark_then {A} (e : event) (k : M A) (w : world) :
  emits (λ _, True) k → effects (mark e >> k) w = e :: effects k (emit e w).
Proof.
  intros Hk. destruct (Hk (emit e w)) as (t & Ht & _).
  rewrite (effects_app k (emit e w) t Ht).
  apply effects_app. unfold after in *. unfold bind, mark.
  rewrite Ht. cbn. rewrite <- app_assoc. reflexivity.
Qed.

Lemma effects_silent_then {A B} (m : M A) (k : A → M B) (w : world) (a : A) :
  m w = (Ok a, w) → effects (bind m k) w = effects (k a) w.
Proof. intros H. apply effects_ext. apply bind_ok. exact H. Qed.

Section BatchFirst.
Variables (output_dir downloaded_file : string) (verbose : bool).
Variables (cookies_file cookies_from_browser : option string).

Let body := fetch_and_record output_dir downloaded_file verbose
                             cookies_file cookies_from_browser.

Lemma effects_download_video_first (url : string) (retry_count : Z) (w : world) :
  ∃ t, effects (download_video url output_dir retry_count verbose
                               cookies_file cookies_from_browser) w
       = EFetch url :: t
       ∧ Forall fetch_event t.
Proof.
  unfold download_video. apply effects_marked.
  apply emits_bind; [apply emits_lift|]. intros video_id.
  apply emits_bind; [apply emits_existence_check|].
  intros [r|]; [apply emits_ret|].
  apply emits_for_in. intros attempt. apply emits_attempt_body; intros; exact I.
Qed.

(** Fetching and recording a reference starts with the marker of the
    fetch. *)
Lemma effects_body_first (acc : list string * list failure) (url : string)
    (w : world) :
  ∃ t, effects (body acc url) w = EFetch url :: t.
Proof.
  unfold body, fetch_and_record.
  destruct (effects_bind
              (download_video url output_dir 3 verbose cookies_file cookies_from_browser)
              (λ result, record_result downloaded_file acc url result) w) as (t & ->).
  - apply emits_download_video; intros; exact I.
  - intros result. apply emits_record_result. intros; exact I.
  - destruct (effects_download_video_first url 3 w) as (t' & -> & _). eauto.
Qed.

(** The fetching phase of a batch that has something to fetch and a
    worker to do it starts with the fetch of one of its references. *)
Lemma effects_phase_first (urls_to_download : list string) (max_workers : Z)
    (w : world) :
  urls_to_download ≠ [] → 1 ≤ max_workers →
  ∃ url t,
    url ∈ urls_to_download
    ∧ effects (if max_workers =? 1 then fold_in urls_to_download ([], []) body
               else if max_workers <=? 0
               then raise (ValueError "max_workers must be greater than 0")
               else as_completed (length urls_to_download) urls_to_download
                                 ([], []) body) w
      = EFetch url :: t.
Proof.
  intros Hne Hw. destruct urls_to_download as [|u rest]; [contradiction|].
  destruct (max_workers =? 1).
  - cbn [fold_in].
    destruct (effects_bind (body ([], []) u) (λ acc', fold_in rest acc' body) w)
      as (t & ->).
    + apply emits_body. intros; exact I.
    + intros acc'. apply emits_fold_in. intros. apply emits_body. intros; exact I.
    + destruct (effects_body_first ([], []) u w) as (t' & ->).
      exists u, (t' ++ t). split; [apply elem_of_cons; auto | reflexivity].
  - replace (max_workers <=? 0) with false by (symmetry; apply Z.leb_gt; lia).
    cbn [as_completed length].
    set (i := (picks w (picked w) `mod` S (length rest))%nat).
    assert (i < length (u :: rest))%nat as Hi
      by (apply Nat.mod_upper_bound; discriminate).
    destruct (lookup_lt_is_Some_2 _ _ Hi) as [url Hurl].
    rewrite (effects_ext _
               (λ w', (let* acc' := body ([], []) url in
                       as_completed (length rest) (delete i (u :: rest)) acc' body)
                      (with_picked (S (picked w)) w)) w).
    2:{ unfold bind at 1, pick. fold i. rewrite Hurl. reflexivity. }
    destruct (effects_bind (body ([], []) url)
                (λ acc', as_completed (length rest) (delete i (u :: rest)) acc' body)
                (with_picked (S (picked w)) w)) as (t & Ht).
    + apply emits_body. intros; exact I.
    + intros acc'. apply emits_as_completed. intros; exact I.
    + destruct (effects_body_first ([], []) url (with_picked (S (picked w)) w))
        as (t' & Ht').
      exists url, (t' ++ t). split; [eapply list_elem_of_lookup_2; eauto|].
      rewrite Ht' in Ht. exact Ht.
Qed.
End BatchFirst.

Lemma effects_ret {A} (a : A) (w : world) : effects (ret a) w = [].
Proof. apply effects_app. cbn. rewrite app_nil_r. reflexivity. Qed.

Lemma effects_raise {A} (e : exn) (w : world) : effects (@raise A e) w = [].
Proof. apply effects_app. cbn. rewrite app_nil_r. reflexivity. Qed.

Lemma effects_bind_eq {A B} (m : M A) (k : A → M B) (w : world) :
  emits (λ _, True) m → (∀ a, emits (λ _, True) (k a)) →
  effects (bind m k) w
  = effects m w ++ match m w with
                   | (Ok a, w') => effects (k a) w'
                   | (Raise _, _) => []
                   end.
Proof.
  intros Hm Hk. destruct (Hm w) as (t1 & Ht1 & _).
  rewrite (effects_app m w t1 Ht1). unfold after in Ht1.
  destruct (m w) as [[a|e] w'] eqn:E; cbn in Ht1.
  - destruct (Hk a w') as (t2 & Ht2 & _). rewrite (effects_app _ _ _ Ht2).
    apply effects_app. unfold after in *. rewrite (bind_ok _ _ _ _ _ E).
    rewrite Ht2, Ht1, app_assoc. reflexivity.
  - apply effects_app. unfold after.
    rewrite (bind_raise _ _ _ _ _ E). cbn. rewrite Ht1, app_nil_r. reflexivity.
Qed.

Lemma filter_not_in_nil (ledger : gset string) (urls : list string) :
  (∀ url, url ∈ urls → url ∈ ledger) → filter (λ url, url ∉ ledger) urls = [].
Proof.
  intros Hall. induction urls as [|u urls IH]; [reflexivity|].
  rewrite filter_cons. destruct (decide (u ∉ ledger)) as [Hu|_].
  - exfalso. apply Hu, Hall. apply elem_of_cons. auto.
  - apply IH. intros url Hin. apply Hall. apply elem_of_cons. auto.
Qed.

Lemma filter_not_in_cons (ledger : gset string) (urls : list string) (url : string) :
  url ∈ urls → url ∉ ledger → filter (λ url, url ∉ ledger) urls ≠ [].
Proof.
  intros Hin Hnew Hnil.
  assert (url ∈ filter (λ url, url ∉ ledger) urls) as Hfiltered
    by (apply list_elem_of_filter; auto).
  rewrite Hnil in Hfiltered. apply elem_of_nil in Hfiltered. exact Hfiltered.
Qed.

(** A batch with something to fetch and a worker to do it ends by writing
    the failure file anew. *)
Lemma download_batch_attempted (urls : list string) (output_dir downloaded_file : string)
    (max_workers : Z) (verbose : bool) (cookies_file cookies_from_browser : option string)
    (w : world) :
  1 ≤ max_workers →
  filter (λ url, url ∉ ledger_of w downloaded_file) urls ≠ [] →
  ∃ failed_urls w' t,
    let failed_file := Py.replace "downloaded_" "failed_" downloaded_file in
    let text := failed_lines failed_urls in
    download_batch urls output_dir downloaded_file max_workers verbose
                   cookies_file cookies_from_browser w
    = (Ok tt, emit (EWrite failed_file text) (with_fs (<[failed_file := text]> (fs w')) w'))
    ∧ trace w' = trace w ++ t.
Proof.
  intros Hw Hsome. unfold download_batch.
  rewrite (bind_ok _ _ w (emit (EBatch urls) w) tt) by reflexivity.
  rewrite (bind_ok _ _ _ _ _ (read_downloaded_urls_eq _ _)).
  change (ledger_of (emit (EBatch urls) w) downloaded_file)
    with (ledger_of w downloaded_file).
  destruct (filter _ urls) as [|u rest]; [contradiction|].
  set (phase := if max_workers =? 1 then _ else _).
  assert (returns (λ _, True) phase) as Hreturns.
  { unfold phase. destruct (max_workers =? 1); [apply returns_fold_in, returns_body|].
    replace (max_workers <=? 0) with false by (symmetry; apply Z.leb_gt; lia).
    apply returns_as_completed. }
  assert (emits (λ _, True) phase) as Hemits.
  { unfold phase. destruct (max_workers =? 1).
    - apply emits_fold_in. intros. apply emits_body. intros; exact I.
    - destruct (max_workers <=? 0); [apply emits_raise|].
      apply emits_as_completed. intros; exact I. }
  destruct (Hreturns (emit (EBatch urls) w)) as ([successful failed] & Hrun & _).
  destruct (Hemits (emit (EBatch urls) w)) as (t & Ht & _).
  unfold run, after in *.
  destruct (phase (emit (EBatch urls) w)) as [r w'] eqn:Hphase. cbn in Hrun, Ht. subst r.
  exists failed, w', (EBatch urls :: t).
  cbv zeta. rewrite (bind_ok _ _ _ _ _ Hphase). split; [reflexivity|].
  rewrite Ht. cbn. rewrite <- app_assoc. reflexivity.
Qed.

(** C10.  A batch whose references are all in the ledger already (an
    empty batch among them) returns after reading the ledger: it writes
    nothing, so the whole store, and with it a failure file left by an
    earlier batch, is as it was.  Whenever a batch does write a file, one
    of its references was missing from the ledger and its fetch was
    started.  And a batch with such a reference and a worker does end by
    writing the failure file anew. *)
Theorem filtered_batch_keeps_failure_file (urls : list string)
    (output_dir downloaded_file : string) (max_workers : Z) (verbose : bool)
    (cookies_file cookies_from_browser : option string) (w : world) :
  let m := download_batch urls output_dir downloaded_file max_workers verbose
                          cookies_file cookies_from_browser in
  let ledger := ledger_of w downloaded_file in
  let failed_file := Py.replace "downloaded_" "failed_" downloaded_file in
  ((∀ url, url ∈ urls → url ∈ ledger) →
   run m w = Ok tt
   ∧ effects m w = [EBatch urls]
   ∧ fs (after m w) = fs w
   ∧ fs (after m w) !! failed_file = fs w !! failed_file)
  ∧ (∀ path text, EWrite path text ∈ effects m w →
       ∃ url, url ∈ urls ∧ (url ∉ ledger) ∧ EFetch url ∈ effects m w)
  ∧ (1 ≤ max_workers → (∃ url, url ∈ urls ∧ (url ∉ ledger)) →
     ∃ failed_urls,
       run m w = Ok tt
       ∧ last (effects m w) = Some (EWrite failed_file (failed_lines failed_urls))
       ∧ fs (after m w) !! failed_file = Some (failed_lines failed_urls)).
Proof.
  intros m ledger failed_file. split; [|split].
  3:{ intros Hw (url & Hin & Hnew).
      destruct (download_batch_attempted urls output_dir downloaded_file max_workers
                  verbose cookies_file cookies_from_browser w Hw
                  (filter_not_in_cons _ _ _ Hin Hnew))
        as (failed_urls & w' & t & Hm & Ht).
      cbv zeta in Hm. fold m failed_file in Hm. exists failed_urls.
      destruct (run_after _ _ _ _ Hm) as [-> ->].
      split; [reflexivity|]. split.
      - rewrite (effects_of _ _ _ _
                   (t ++ [EWrite failed_file (failed_lines failed_urls)]) Hm)
          by (cbn; rewrite Ht, app_assoc; reflexivity).
        apply last_snoc.
      - cbn. apply lookup_insert_eq. }
  - intros Hall.
    pose proof (download_batch_filtered output_dir downloaded_file verbose
                  cookies_file cookies_from_browser urls max_workers w
                  (filter_not_in_nil _ _ Hall)) as Hm.
    fold m in Hm. destruct (run_after _ _ _ _ Hm) as [-> Hafter].
    rewrite (effects_of _ _ _ _ [EBatch urls] Hm) by reflexivity.
    rewrite Hafter. auto.
  - intros path text Hwrite. unfold m, download_batch in *.
    rewrite effects_mark_then in Hwrite |- *
      by (apply emits_download_batch; intros; exact I).
    apply elem_of_cons in Hwrite as [[=]|Hwrite].
    rewrite (effects_silent_then _ _ _ _ (read_downloaded_urls_eq _ _)) in Hwrite |- *.
    change (ledger_of (emit (EBatch urls) w) downloaded_file) with ledger in *.
    destruct (filter (λ url, url ∉ ledger) urls) as [|u rest] eqn:Hfilter.
    { rewrite effects_ret in Hwrite. apply elem_of_nil in Hwrite. contradiction. }
    assert (∀ acc url, emits (λ _, True)
              (fetch_and_record output_dir downloaded_file verbose
                                cookies_file cookies_from_browser acc url)) as Hbody
      by (intros; apply emits_body; intros; exact I).
    rewrite effects_bind_eq in Hwrite |- *.
    2,4: destruct (max_workers =? 1);
         [apply emits_fold_in, Hbody |
          destruct (max_workers <=? 0);
          [apply emits_raise | apply emits_as_completed; intros; exact I]].
    2,3: intros [successful failed]; apply emits_write_text; exact I.
    destruct (Z_le_gt_dec 1 max_workers) as [Hw|Hw].
    + destruct (effects_phase_first output_dir downloaded_file verbose
                  cookies_file cookies_from_browser (u :: rest) max_workers
                  (emit (EBatch urls) w)) as (url & t & Hin & Hfirst);
        [discriminate | exact Hw |].
      exists url. rewrite <- Hfilter in Hin. apply list_elem_of_filter in Hin as [Hnew Hin].
      split; [exact Hin|]. split; [exact Hnew|].
      rewrite Hfirst. apply elem_of_cons. right. apply elem_of_cons. auto.
    + exfalso.
      replace (max_workers =? 1) with false in Hwrite by (symmetry; apply Z.eqb_neq; lia).
      replace (max_workers <=? 0) with true in Hwrite by (symmetry; apply Z.leb_le; lia).
      rewrite effects_raise in Hwrite. cbn in Hwrite.
      apply elem_of_nil in Hwrite. contradiction.
Qed.

Lemma filtered_batch_keeps_failure_file_witness :
  let ledger_file := "downloaded_train_urls.txt" in
  let failed_file := "failed_train_urls.txt" in
  let left_over := "b" +:+ Py.TAB +:+ "Video unavailable (removed or private)" +:+ Py.LF in
  let w := quiet (Exited 0 EmptyString EmptyString []) 0
                 {[ ledger_file := "a" +:+ Py.LF; failed_file := left_over ]} in
  (run (download_batch ["a"] "out" ledger_file 10 false None None) w = Ok tt
   ∧ fs (after (download_batch ["a"] "out" ledger_file 10 false None None) w) !! failed_file
     = Some left_over)
  ∧ (∃ url, url ∈ ["c"]
            ∧ EFetch url ∈ effects (download_batch ["c"] "out" ledger_file 10 false None None) w)
  ∧ ∃ failed_urls,
      run (download_batch ["c"] "out" ledger_file 10 false None None) w = Ok tt
      ∧ fs (after (download_batch ["c"] "out" ledger_file 10 false None None) w) !! failed_file
        = Some (failed_lines failed_urls).
Proof.
  cbv zeta.
  set (w := quiet (Exited 0 EmptyString EmptyString []) 0
              {[ "downloaded_train_urls.txt" := "a" +:+ Py.LF;
                 "failed_train_urls.txt"
                 := "b" +:+ Py.TAB +:+ "Video unavailable (removed or private)" +:+ Py.LF ]}).
  assert (ledger_of w "downloaded_train_urls.txt" = list_to_set ["a"]) as Hledger.
  { unfold ledger_of.
    replace (fs w !! "downloaded_train_urls.txt") with (Some ("a" +:+ Py.LF))
      by (vm_compute; reflexivity).
    reflexivity. }
  split; [|split].
  - destruct (filtered_batch_keeps_failure_file ["a"] "out" "downloaded_train_urls.txt"
                10 false None None w) as [Hkept _].
    destruct Hkept as (Hrun & _ & _ & Hfailed).
    + intros url Hin. rewrite Hledger. apply elem_of_list_to_set. exact Hin.
    + split; [exact Hrun|].
      change (Py.replace "downloaded_" "failed_" "downloaded_train_urls.txt")
        with "failed_train_urls.txt" in Hfailed.
      rewrite Hfailed. vm_compute. reflexivity.
  - destruct (filtered_batch_keeps_failure_file ["c"] "out" "downloaded_train_urls.txt"
                10 false None None w) as (_ & Hwritten & _).
    destruct (Hwritten "failed_train_urls.txt" EmptyString) as (url & Hin & _ & Hfetch).
    + replace (effects _ w)
        with [EBatch ["c"]; EFetch "c";
              EInvoke (primary_cmd "c" "out/c.%(ext)s" None None);
              EAppend "downloaded_train_urls.txt" ("c" +:+ Py.LF);
              EWrite "failed_train_urls.txt" EmptyString]
        by (vm_compute; reflexivity).
      do 4 (apply elem_of_cons; right). apply elem_of_cons. left. reflexivity.
    + eauto.
  - destruct (filtered_batch_keeps_failure_file ["c"] "out" "downloaded_train_urls.txt"
                10 false None None w) as (_ & _ & Hanew).
    destruct Hanew as (failed_urls & Hrun & _ & Hfile).
    + lia.
    + exists "c". split; [apply list_elem_of_singleton; reflexivity|].
      rewrite Hledger, elem_of_list_to_set, list_elem_of_singleton. discriminate.
    + exists failed_urls. split; [exact Hrun | exact Hfile].
Defined.

(** ** The Run Driver *)

Lemma for_in_map {A B R} (f : A → B) (l : list A) (body : B → M (option R)) :
  for_in (map f l) body = for_in l (λ x, body (f x)).
Proof.
  induction l as [|x l IH]; cbn [map for_in]; [reflexivity|].
  rewrite IH. reflexivity.
Qed.

Lemma view_inner (t : list event) : Forall inner_event t → view t = [].
Proof.
  induction 1 as [|e t He _ IH]; [reflexivity|].
  unfold view in *. cbn [List.filter]. rewrite IH.
  destruct e as [| [|] | | | |]; cbn in *; try reflexivity; contradiction.
Qed.

Lemma view_app (t1 t2 : list event) : view (t1 ++ t2) = view t1 ++ view t2.
Proof. apply List.filter_app. Qed.

Section Driver.
Variables (output_dir downloaded_file : string) (max_workers : Z) (verbose : bool).
Variables (cookies_file cookies_from_browser : option string).

Let step := process_chunk output_dir downloaded_file max_workers verbose
                          cookies_file cookies_from_browser.

Lemma emits_step (chunk : list string) : emits (λ _, True) (step chunk).
Proof.
  unfold step, process_chunk. apply emits_bind.
  - unfold download_batch. apply emits_bind; [apply emits_mark; exact I|].
    intros _. apply emits_download_batch. intros; exact I.
  - intros _. apply emits_bind.
    + unfold random_randint. apply emits_bind; [apply emits_draw|].
      intros r. apply emits_ret.
    + intros t. apply emits_bind; [apply emits_mark; exact I|].
      intros _. apply emits_ret.
Qed.

(** One slice: the batch, and when it did not raise, one pause of 5 to
    60 seconds. *)
Lemma step_view (chunk : list string) (w : world) :
  (∃ e w', step chunk w = (Raise e, w')
           ∧ view (effects (step chunk) w) = [EBatch chunk]
           ∧ ¬ 1 ≤ max_workers)
  ∨ (∃ t w', step chunk w = (Ok None, w')
             ∧ 5 ≤ t ≤ 60
             ∧ view (effects (step chunk) w) = [EBatch chunk; ESleep (Seconds t)]).
Proof.
  destruct (effects_download_batch output_dir downloaded_file verbose
              cookies_file cookies_from_browser chunk max_workers w)
    as (t & Ht & Hinner).
  pose proof (emits_step chunk) as Hstep. unfold step, process_chunk in *.
  set (batch := download_batch chunk output_dir downloaded_file max_workers verbose
                               cookies_file cookies_from_browser) in *.
  assert (emits (λ _, True) batch) as Hbatch.
  { unfold batch, download_batch. apply emits_bind; [apply emits_mark; exact I|].
    intros _. apply emits_download_batch. intros; exact I. }
  destruct (batch w) as [[[]|e] w1] eqn:Hrun.
  - right. exists (5 + Z.of_N (draws w1 (drawn w1)) mod (60 - 5 + 1)).
    eexists. split; [|split].
    + rewrite (bind_ok _ _ _ _ _ Hrun). reflexivity.
    + pose proof (Z.mod_pos_bound (Z.of_N (draws w1 (drawn w1))) (60 - 5 + 1)). lia.
    + rewrite effects_bind_eq; [|exact Hbatch|].
      2:{ intros _. apply emits_bind.
          - unfold random_randint. apply emits_bind; [apply emits_draw|].
            intros r. apply emits_ret.
          - intros s. apply emits_bind; [apply emits_mark; exact I|].
            intros _. apply emits_ret. }
      rewrite Hrun, Ht, view_app. cbn [view List.filter driver_event].
      fold (view t). rewrite (view_inner t Hinner). cbn [app].
      f_equal. apply (f_equal view (y := [ESleep (Seconds _)])).
      apply effects_app. cbn. reflexivity.
  - left. exists e, w1. split; [|split].
    + apply bind_raise. exact Hrun.
    + rewrite effects_bind_eq; [|exact Hbatch|].
      2:{ intros _. apply emits_bind.
          - unfold random_randint. apply emits_bind; [apply emits_draw|].
            intros r. apply emits_ret.
          - intros s. apply emits_bind; [apply emits_mark; exact I|].
            intros _. apply emits_ret. }
      rewrite Hrun, Ht, app_nil_r. cbn [view List.filter driver_event].
      fold (view t). rewrite (view_inner t Hinner). reflexivity.
    + intros Hw.
      destruct (returns_download_batch output_dir downloaded_file verbose
                  cookies_file cookies_from_browser chunk max_workers Hw w)
        as (a & Ha & _).
      fold batch in Ha. unfold run in Ha. rewrite Hrun in Ha. discriminate Ha.
Qed.
End Driver.

Section DriverLoop.
Variables (output_dir downloaded_file : string) (max_workers : Z) (verbose : bool).
Variables (cookies_file cookies_from_browser : option string).

Let step := process_chunk output_dir downloaded_file max_workers verbose
                          cookies_file cookies_from_browser.

(** The loop over the slices: batch and pause alternate, slice after
    slice, up to the batch that raises if one does; with at least one
    worker none does. *)
Lemma loop_view (chunks : list (list string)) (w : world) :
  ∃ pauses,
    length pauses = length chunks
    ∧ Forall (λ t, 5 ≤ t ≤ 60) pauses
    ∧ view (effects (for_in chunks step) w) `prefix_of` paced chunks pauses
    ∧ (1 ≤ max_workers →
       run (for_in chunks step) w = Ok None
       ∧ view (effects (for_in chunks step) w) = paced chunks pauses).
Proof.
  revert w. induction chunks as [|c chunks IH]; intros w.
  - exists []. cbn [for_in]. rewrite effects_ret.
    repeat split; [constructor | apply prefix_nil].
  - cbn [for_in]. rewrite effects_bind_eq.
    2:{ apply emits_step. }
    2:{ intros [v|]; [apply emits_ret|]. apply emits_for_in. intros. apply emits_step. }
    destruct (step_view output_dir downloaded_file max_workers verbose
                cookies_file cookies_from_browser c w)
      as [(e & w' & Hrun & Hview & Hw) | (t & w' & Hrun & Ht & Hview)];
      fold step in Hrun, Hview; rewrite Hrun, view_app, Hview.
    + exists (replicate (S (length chunks)) 5).
      split; [apply length_replicate|].
      split; [apply Forall_replicate; lia|].
      cbn [replicate paced view List.filter app].
      split; [apply prefix_cons, prefix_nil | intros Hw'; contradiction].
    + destruct (IH w') as (pauses & Hlen & Hbounds & Hprefix & Hall).
      exists (t :: pauses). cbn [paced app length].
      split; [rewrite Hlen; reflexivity|].
      split; [constructor; assumption|].
      split; [apply prefix_cons, prefix_cons, Hprefix|].
      intros Hw. destruct (Hall Hw) as [Hok Heq].
      rewrite Heq. split; [|reflexivity].
      unfold run in *. rewrite (bind_ok _ _ _ _ _ Hrun). exact Hok.
Qed.
End DriverLoop.

(** ** The slices *)

Lemma take_take_drop_add {A} (l : list A) (a b : nat) :
  take a l ++ take b (drop a l) = take (a + b) l.
Proof.
  revert l. induction a as [|a IH]; intros l.
  - rewrite drop_0. reflexivity.
  - destruct l as [|x l]; [rewrite drop_nil, !take_nil; reflexivity|].
    cbn. rewrite IH. reflexivity.
Qed.

Lemma concat_nth_chunks {A} (size : nat) (l : list A) (k : nat) :
  concat (map (nth_chunk size l) (seq 0 k)) = take (k * size) l.
Proof.
  induction k as [|k IH]; [reflexivity|].
  rewrite seq_S, map_app, concat_app, IH. cbn [map concat Nat.add].
  rewrite app_nil_r. unfold nth_chunk. rewrite take_take_drop_add.
  f_equal. lia.
Qed.

Lemma length_nth_chunk {A} (size : nat) (l : list A) (n : nat) :
  length (nth_chunk size l n) = (size `min` (length l - n * size))%nat.
Proof. unfold nth_chunk. rewrite length_take, length_drop. reflexivity. Qed.

Section Slices.
Variables (urls : list string) (batch_size : Z).
Hypothesis positive : 1 ≤ batch_size.

Let len := Z.of_nat (length urls).
Let total := (len + batch_size - 1) / batch_size.

Lemma total_bounds : (total - 1) * batch_size < len ≤ total * batch_size.
Proof.
  unfold total. pose proof (Z.div_mod (len + batch_size - 1) batch_size).
  pose proof (Z.mod_pos_bound (len + batch_size - 1) batch_size). nia.
Qed.

Lemma total_nonneg : 0 ≤ total.
Proof. unfold total. apply Z.div_pos; unfold len; lia. Qed.

Lemma batches_eq :
  batches urls batch_size
  = map (nth_chunk (Z.to_nat batch_size) urls) (seq 0 (Z.to_nat total)).
Proof.
  unfold batches, Py.range. fold len. fold total. rewrite map_map.
  apply map_ext_in. intros n Hn. apply in_seq in Hn.
  pose proof total_bounds as Htotal.
  assert (Z.of_nat n * batch_size < len) as Hlo by nia.
  unfold Py.slice, Py.clamp_index. fold len.
  replace (Z.of_nat n * batch_size <? 0) with false by (symmetry; apply Z.ltb_ge; nia).
  replace (Z.min ((Z.of_nat n + 1) * batch_size) len <? 0) with false
    by (symmetry; apply Z.ltb_ge; nia).
  unfold nth_chunk.
  replace (Z.to_nat (Z.min (Z.of_nat n * batch_size) len))
    with (n * Z.to_nat batch_size)%nat by nia.
  destruct (Z_le_gt_dec ((Z.of_nat n + 1) * batch_size) len) as [Hhi|Hhi].
  - f_equal. nia.
  - rewrite (take_ge _ (Z.to_nat batch_size)) by (rewrite length_drop; unfold len in *; nia).
    apply take_ge. rewrite length_drop. unfold len in *. nia.
Qed.

(** The slices, put end to end, are the list. *)
Lemma concat_batches : concat (batches urls batch_size) = urls.
Proof.
  rewrite batches_eq, concat_nth_chunks.
  apply take_ge. pose proof total_bounds. pose proof total_nonneg. unfold len in *. nia.
Qed.

Lemma length_batches : Z.of_nat (length (batches urls batch_size)) = total.
Proof.
  rewrite batches_eq, length_map, length_seq. pose proof total_nonneg. lia.
Qed.

(** Every slice is full, except that the last may hold fewer
    references, though one at least. *)
Lemma batches_sizes (i : nat) (c : list string) :
  batches urls batch_size !! i = Some c →
  1 ≤ Z.of_nat (length c) ≤ batch_size
  ∧ ((S i < length (batches urls batch_size))%nat → Z.of_nat (length c) = batch_size).
Proof.
  intros Hc. pose proof length_batches as Hlen.
  pose proof (lookup_lt_Some _ _ _ Hc) as Hi.
  rewrite batches_eq in Hc. rewrite list_lookup_fmap in Hc.
  rewrite lookup_seq_lt in Hc by lia. cbn in Hc. injection Hc as <-.
  rewrite length_nth_chunk. pose proof total_bounds. unfold len in *.
  split; [nia|]. intros Hnext. nia.
Qed.
End Slices.

(** 120 references in slices of 50 *)
Lemma batches_120_50 (urls : list string) :
  length urls = 120%nat → map length (batches urls 50) = [50; 50; 20]%nat.
Proof.
  intros Hlen. rewrite batches_eq by lia. rewrite Hlen. cbn [Z.to_nat seq map].
  change (Z.to_nat ((Z.of_nat 120 + 50 - 1) / 50)) with 3%nat.
  cbn [seq map]. rewrite !length_nth_chunk, Hlen. reflexivity.
Qed.

Lemma read_urls_eq (file_path text : string) (w : world) :
  fs w !! file_path = Some text →
  read_urls file_path w = (Ok (stripped_lines text), w).
Proof. intros H. unfold read_urls, bind, read_text. rewrite H. reflexivity. Qed.

Lemma file_base_total (url_file : string) :
  ∃ file_base, file_base_of url_file = Ok file_base.
Proof. apply (split_index_0 "." eq_refl). Qed.

Section DriverRun.
Variables (url_file output_dir : string) (batch_size max_workers : Z) (verbose : bool).
Variables (cookies_file cookies_from_browser : option string).
Variables (w : world) (file_base text : string).
Hypothesis base_name : file_base_of url_file = Ok file_base.
Hypothesis readable : fs w !! url_file = Some text.
Hypothesis positive : 1 ≤ batch_size.

Let downloaded_file := "downloaded_" +:+ file_base +:+ "_urls.txt".
Let remaining :=
  filter (λ url, url ∉ ledger_of w downloaded_file) (stripped_lines text).
Let step := process_chunk output_dir downloaded_file max_workers verbose
                          cookies_file cookies_from_browser.
Let m := batch_download_from_file url_file output_dir batch_size max_workers verbose
                                  cookies_file cookies_from_browser.

(** The driver, once it has read its two files, is the loop over the
    slices of what remains. *)
Lemma driver_unfold :
  m w = (for_in (batches remaining batch_size) step >> ret tt) w.
Proof.
  unfold m, batch_download_from_file.
  rewrite (bind_ok _ _ w w file_base) by (unfold lift; rewrite base_name; reflexivity).
  rewrite (bind_ok _ _ _ _ _ (read_urls_eq _ _ _ readable)).
  rewrite (bind_ok _ _ _ _ _ (read_downloaded_urls_eq _ _)).
  fold downloaded_file. fold remaining.
  rewrite (bind_ok _ _ w w
             ((Z.of_nat (length remaining) + batch_size - 1) / batch_size)).
  2:{ unfold floordiv. replace (batch_size =? 0) with false
        by (symmetry; apply Z.eqb_neq; lia). reflexivity. }
  unfold batches. rewrite for_in_map. reflexivity.
Qed.

Lemma driver_view :
  ∃ pauses,
    length pauses = length (batches remaining batch_size)
    ∧ Forall (λ t, 5 ≤ t ≤ 60) pauses
    ∧ view (effects m w) `prefix_of` paced (batches remaining batch_size) pauses
    ∧ (1 ≤ max_workers →
       run m w = Ok tt
       ∧ view (effects m w) = paced (batches remaining batch_size) pauses).
Proof.
  destruct (loop_view output_dir downloaded_file max_workers verbose
              cookies_file cookies_from_browser (batches remaining batch_size) w)
    as (pauses & Hlen & Hbounds & Hprefix & Hall).
  fold step in Hprefix, Hall.
  assert (effects m w = effects (for_in (batches remaining batch_size) step) w) as Heff.
  { rewrite (effects_ext _ _ _ driver_unfold). rewrite effects_bind_eq.
    - destruct (for_in _ step w) as [[a|e] w'];
        [rewrite effects_ret|]; apply app_nil_r.
    - apply emits_for_in. intros c. apply emits_step.
    - intros a. apply emits_ret. }
  exists pauses. rewrite Heff. repeat split; try assumption.
  - unfold run. rewrite driver_unfold. destruct (Hall H) as [Hok _].
    unfold run in Hok. unfold bind.
    destruct (for_in _ step w) as [r w']. cbn in Hok. subst r. reflexivity.
  - apply Hall. assumption.
Qed.
End DriverRun.

Lemma batches_in_view (t : list event) : batches_in (view t) = batches_in t.
Proof.
  induction t as [|e t IH]; [reflexivity|].
  unfold view, batches_in in *. destruct e as [| [|] | | | |]; cbn; rewrite ?IH; reflexivity.
Qed.

Lemma pauses_in_view (t : list event) : pauses_in (view t) = pauses_in t.
Proof.
  induction t as [|e t IH]; [reflexivity|].
  unfold view, pauses_in in *. destruct e as [| [|] | | | |]; cbn; rewrite ?IH; reflexivity.
Qed.

Lemma batches_in_paced (chunks : list (list string)) (pauses : list Z) :
  length pauses = length chunks → batches_in (paced chunks pauses) = chunks.
Proof.
  revert pauses. induction chunks as [|c chunks IH]; intros [|p pauses] Hlen;
    try discriminate; [reflexivity|].
  cbn. f_equal. apply IH. cbn in Hlen. lia.
Qed.

Lemma pauses_in_paced (chunks : list (list string)) (pauses : list Z) :
  length pauses = length chunks → pauses_in (paced chunks pauses) = pauses.
Proof.
  revert pauses. induction chunks as [|c chunks IH]; intros [|p pauses] Hlen;
    try discriminate; [reflexivity|].
  cbn. f_equal. apply IH. cbn in Hlen. lia.
Qed.

Lemma batches_in_prefix (t t' : list event) :
  t `prefix_of` t' → batches_in t `prefix_of` batches_in t'.
Proof.
  intros [k ->]. unfold batches_in. rewrite omap_app. apply prefix_app_r. reflexivity.
Qed.

(** C7.  With a readable item list and a chunk size of one at least, the
    driver works on what the ledger leaves of the list.  Its slices, put
    end to end, are that list in its order; every slice is full, except
    that the last may hold fewer references, though one at least; 120
    references in slices of 50 give slices of 50, 50 and 20.  The batches
    a run enters are these slices in this order: all of them when there is
    a worker, an initial run of them otherwise. *)
Theorem driver_chunking (url_file output_dir : string) (batch_size max_workers : Z)
    (verbose : bool) (cookies_file cookies_from_browser : option string)
    (w : world) (file_base text : string) :
  file_base_of url_file = Ok file_base →
  fs w !! url_file = Some text →
  1 ≤ batch_size →
  let m := batch_download_from_file url_file output_dir batch_size max_workers verbose
                                    cookies_file cookies_from_browser in
  let ledger := ledger_of w ("downloaded_" +:+ file_base +:+ "_urls.txt") in
  let remaining := filter (λ url, url ∉ ledger) (stripped_lines text) in
  let chunks := batches remaining batch_size in
  concat chunks = remaining
  ∧ (∀ i c, chunks !! i = Some c →
       1 ≤ Z.of_nat (length c) ≤ batch_size
       ∧ ((S i < length chunks)%nat → Z.of_nat (length c) = batch_size))
  ∧ (length remaining = 120%nat → batch_size = 50 →
     map length chunks = [50; 50; 20]%nat)
  ∧ batches_in (effects m w) `prefix_of` chunks
  ∧ (1 ≤ max_workers → run m w = Ok tt ∧ batches_in (effects m w) = chunks).
Proof.
  intros Hbase Hfile Hsize m ledger remaining chunks.
  split; [apply concat_batches; exact Hsize|].
  split; [intros i c; apply batches_sizes; exact Hsize|].
  split; [intros Hlen ->; apply batches_120_50; exact Hlen|].
  destruct (driver_view url_file output_dir batch_size max_workers verbose
              cookies_file cookies_from_browser w file_base text Hbase Hfile Hsize)
    as (pauses & Hlen & _ & Hprefix & Hall).
  fold m ledger remaining chunks in Hlen, Hprefix, Hall.
  split.
  - rewrite <- batches_in_view, <- (batches_in_paced chunks pauses Hlen).
    apply batches_in_prefix. exact Hprefix.
  - intros Hw. destruct (Hall Hw) as [Hrun Hview]. split; [exact Hrun|].
    rewrite <- batches_in_view, Hview. apply batches_in_paced. exact Hlen.
Qed.

(** C3, as the code has it.  With a readable item list and a chunk size of
    one at least, a run enters the slices in order and pauses after every
    one of them, the last included, each time for a whole number of seconds
    from 5 to 60, both ends included: batch, pause, batch, pause.  With a
    worker the run goes through all slices, so it takes as many pauses as
    there are slices; otherwise it is an initial run of this sequence. *)
Theorem driver_pacing (url_file output_dir : string) (batch_size max_workers : Z)
    (verbose : bool) (cookies_file cookies_from_browser : option string)
    (w : world) (file_base text : string) :
  file_base_of url_file = Ok file_base →
  fs w !! url_file = Some text →
  1 ≤ batch_size →
  let m := batch_download_from_file url_file output_dir batch_size max_workers verbose
                                    cookies_file cookies_from_browser in
  let ledger := ledger_of w ("downloaded_" +:+ file_base +:+ "_urls.txt") in
  let chunks := batches (filter (λ url, url ∉ ledger) (stripped_lines text)) batch_size in
  ∃ pauses,
    length pauses = length chunks
    ∧ Forall (λ t, 5 ≤ t ≤ 60) pauses
    ∧ view (effects m w) `prefix_of` paced chunks pauses
    ∧ (1 ≤ max_workers →
       run m w = Ok tt
       ∧ view (effects m w) = paced chunks pauses
       ∧ pauses_in (effects m w) = pauses).
Proof.
  intros Hbase Hfile Hsize m ledger chunks.
  destruct (driver_view url_file output_dir batch_size max_workers verbose
              cookies_file cookies_from_browser w file_base text Hbase Hfile Hsize)
    as (pauses & Hlen & Hbounds & Hprefix & Hall).
  fold m ledger chunks in Hlen, Hprefix, Hall.
  exists pauses. repeat split; try assumption.
  - apply Hall. assumption.
  - apply Hall. assumption.
  - destruct (Hall H) as [_ Hview].
    rewrite <- pauses_in_view, Hview. apply pauses_in_paced. exact Hlen.
Qed.

Lemma driver_chunking_witness :
  let m := batch_download_from_file "lists/test_urls.txt" "out" 1 10 false None None in
  let ledger := ledger_of resumed "downloaded_test_urls_urls.txt" in
  let chunks := batches (filter (λ url, url ∉ ledger) (stripped_lines three_urls)) 1 in
  chunks = [["a"]; ["c"]]
  ∧ run m resumed = Ok tt
  ∧ batches_in (effects m resumed) = chunks.
Proof.
  cbv zeta. split; [vm_compute; reflexivity|].
  destruct (driver_chunking "lists/test_urls.txt" "out" 1 10 false None None
              resumed "test_urls" three_urls) as (_ & _ & _ & _ & Hall).
  - vm_compute. reflexivity.
  - vm_compute. reflexivity.
  - lia.
  - apply Hall. lia.
Defined.

Lemma driver_pacing_witness :
  let m := batch_download_from_file "lists/test_urls.txt" "out" 1 10 false None None in
  ∃ pauses,
    length pauses = 2%nat
    ∧ Forall (λ t, 5 ≤ t ≤ 60) pauses
    ∧ run m resumed = Ok tt
    ∧ view (effects m resumed) = paced [["a"]; ["c"]] pauses.
Proof.
  cbv zeta.
  destruct (driver_pacing "lists/test_urls.txt" "out" 1 10 false None None
              resumed "test_urls" three_urls) as (pauses & Hlen & Hbounds & _ & Hall).
  - vm_compute. reflexivity.
  - vm_compute. reflexivity.
  - lia.
  - destruct Hall as (Hrun & Hview & _); [lia|].
    replace (batches _ 1) with [["a"]; ["c"]] in Hlen, Hview by (vm_compute; reflexivity).
    exists pauses. auto.
Defined.

(** C3 as stated fails on both counts.  A list of one reference makes one
    slice, which is the last; the run still ends with a pause after it, and
    with the draw at hand the pause lasts 60 seconds, which is not below
    60. *)
Lemma driver_pacing_counterexample :
  let w := quiet (Exited 0 EmptyString EmptyString []) 55 {[ "urls.txt" := "ABC" ]} in
  let m := batch_download_from_file "urls.txt" "out" 50 1 false None None in
  run m w = Ok tt
  ∧ batches_in (effects m w) = [["ABC"]]
  ∧ last (effects m w) = Some (ESleep (Seconds 60))
  ∧ pauses_in (effects m w) = [60]
  ∧ ¬ (5 ≤ 60 < 60).
Proof.
  cbv zeta. repeat split; try (vm_compute; reflexivity). lia.
Qed.

(** * Further properties *)

(** ** Splitting and searching *)

Lemma append_nil (t : string) : EmptyString +:+ t = t.
Proof. reflexivity. Qed.

Lemma append_cons (a : ascii) (s t : string) : String a s +:+ t = String a (s +:+ t).
Proof. reflexivity. Qed.

Lemma startswith_app (p rest : string) : Py.startswith p (p +:+ rest) = true.
Proof.
  induction p as [|a p IH]; [reflexivity|].
  rewrite append_cons. cbn [Py.startswith]. rewrite Ascii.eqb_refl. exact IH.
Qed.

Lemma contains_char_cons (c a : ascii) (s : string) :
  Py.contains (String c EmptyString) (String a s)
  = Ascii.eqb c a || Py.contains (String c EmptyString) s.
Proof. cbn [Py.contains Py.startswith]. destruct (Ascii.eqb c a); reflexivity. Qed.

Lemma contains_app (sep pre rest : string) :
  Py.contains sep (pre +:+ sep +:+ rest) = true.
Proof.
  induction pre as [|a pre IH].
  - rewrite append_nil. pose proof (startswith_app sep rest) as H.
    destruct (sep +:+ rest); cbn [Py.contains]; rewrite H; reflexivity.
  - rewrite append_cons. cbn [Py.contains]. rewrite IH. apply orb_true_r.
Qed.

(** The characters of a matched separator are passed over. *)
Lemma split_from_skip (sep p rest : string) :
  Py.split_from sep (String.length p) (p +:+ rest) = Py.split_from sep O rest.
Proof. induction p as [|a p IH]; [reflexivity | exact IH]. Qed.

(** Text that lacks the first character of the separator, followed by
    the separator, is the first piece. *)
Lemma split_from_app (c : ascii) (sep' pre rest : string) :
  Py.contains (String c EmptyString) pre = false →
  Py.split_from (String c sep') O (pre +:+ String c sep' +:+ rest)
  = pre :: Py.split_from (String c sep') O rest.
Proof.
  induction pre as [|a pre IH]; intros Hlacks.
  - rewrite append_nil.
    pose proof (startswith_app (String c sep') rest) as Hstart.
    rewrite append_cons in *. cbn [Py.split_from]. rewrite Hstart.
    cbn [String.length Nat.pred]. rewrite split_from_skip. reflexivity.
  - rewrite contains_char_cons in Hlacks.
    apply orb_false_elim in Hlacks as [Hhead Hlacks].
    rewrite append_cons. cbn [Py.split_from Py.startswith]. rewrite Hhead.
    rewrite (IH Hlacks). reflexivity.
Qed.

(** Without an occurrence of the separator there is one piece. *)
Lemma split_from_lacking (sep s : string) :
  Py.contains sep s = false → Py.split_from sep O s = [s].
Proof.
  induction s as [|a s IH]; intros Hlacks; [reflexivity|].
  cbn [Py.contains] in Hlacks. apply orb_false_elim in Hlacks as [Hstart Hlacks].
  cbn [Py.split_from]. rewrite Hstart, (IH Hlacks). reflexivity.
Qed.

(** The first piece cut at a one-character separator lacks that
    character. *)
Lemma split_from_first_lacks (c : ascii) (s piece : string) (pieces : list string) :
  Py.split_from (String c EmptyString) O s = piece :: pieces →
  Py.contains (String c EmptyString) piece = false.
Proof.
  revert piece pieces. induction s as [|a s IH]; intros piece pieces Hsplit.
  - injection Hsplit as <- _. reflexivity.
  - cbn [Py.split_from Py.startswith] in Hsplit.
    destruct (Ascii.eqb c a) eqn:Hhead.
    + destruct s; injection Hsplit as <- _; reflexivity.
    + destruct (Py.split_from (String c EmptyString) O s) as [|p ps] eqn:Hs.
      * injection Hsplit as <- _. rewrite contains_char_cons, Hhead. reflexivity.
      * injection Hsplit as <- _. rewrite contains_char_cons, Hhead.
        apply (IH p ps eq_refl).
Qed.

(** ** The Identifier Normalizer *)

(** X1.  The normalizer never raises: whenever a marker is found the
    split at it has a second piece, and a split always has a first. *)
Theorem normalizer_never_raises (url : string) :
  ∃ video_id, extract_video_id_from_url url = Ok video_id.
Proof. apply extract_video_id_total. Qed.

(** X2.  A long-form reference gives its identifier back.  The text
    before the marker may be anything without the letter y (such as
    [https://www.]); the identifier may be anything without an ampersand;
    it may stand last or be followed by an ampersand and further
    parameters, as long as the marker does not occur again. *)
Theorem long_form_round_trip (pre video_id rest : string) :
  Py.contains "y" pre = false →
  Py.contains "&" video_id = false →
  (Py.contains "youtube.com/watch?v=" video_id = false →
   extract_video_id_from_url (pre +:+ "youtube.com/watch?v=" +:+ video_id) = Ok video_id)
  ∧ (Py.contains "youtube.com/watch?v=" (video_id +:+ "&" +:+ rest) = false →
     extract_video_id_from_url
       (pre +:+ "youtube.com/watch?v=" +:+ video_id +:+ "&" +:+ rest)
     = Ok video_id).
Proof.
  intros Hpre Hid. split; intros Hagain; unfold extract_video_id_from_url.
  - rewrite contains_app.
    cbn [Py.split res_bind]. rewrite (split_from_app _ _ _ _ Hpre).
    rewrite (split_from_lacking _ _ Hagain). cbn [Py.index lookup list_lookup res_bind].
    rewrite (split_from_lacking _ _ Hid). reflexivity.
  - rewrite contains_app.
    cbn [Py.split res_bind]. rewrite (split_from_app _ _ _ _ Hpre).
    rewrite (split_from_lacking _ _ Hagain). cbn [Py.index lookup list_lookup res_bind].
    rewrite (split_from_app _ _ _ _ Hid). reflexivity.
Qed.

Lemma long_form_round_trip_witness :
  extract_video_id_from_url "https://www.youtube.com/watch?v=dQw4w9WgXcQ" = Ok "dQw4w9WgXcQ"
  ∧ extract_video_id_from_url "https://www.youtube.com/watch?v=dQw4w9WgXcQ&t=42&list=PL1"
    = Ok "dQw4w9WgXcQ".
Proof.
  destruct (long_form_round_trip "https://www." "dQw4w9WgXcQ" "t=42&list=PL1")
    as [Hbare Hparams]; [reflexivity | reflexivity |].
  split; [apply Hbare | apply Hparams]; reflexivity.
Defined.

(** X3.  A short-form reference that carries no long-form marker gives
    its identifier back, under the same conditions with the question mark
    in the place of the ampersand. *)
Theorem short_form_round_trip (pre video_id rest : string) :
  Py.contains "y" pre = false →
  Py.contains "?" video_id = false →
  (Py.contains "youtube.com/watch?v=" (pre +:+ "youtu.be/" +:+ video_id) = false →
   Py.contains "youtu.be/" video_id = false →
   extract_video_id_from_url (pre +:+ "youtu.be/" +:+ video_id) = Ok video_id)
  ∧ (Py.contains "youtube.com/watch?v="
       (pre +:+ "youtu.be/" +:+ video_id +:+ "?" +:+ rest) = false →
     Py.contains "youtu.be/" (video_id +:+ "?" +:+ rest) = false →
     extract_video_id_from_url (pre +:+ "youtu.be/" +:+ video_id +:+ "?" +:+ rest)
     = Ok video_id).
Proof.
  intros Hpre Hid. split; intros Hlong Hagain; unfold extract_video_id_from_url.
  - rewrite Hlong, contains_app.
    cbn [Py.split res_bind]. rewrite (split_from_app _ _ _ _ Hpre).
    rewrite (split_from_lacking _ _ Hagain). cbn [Py.index lookup list_lookup res_bind].
    rewrite (split_from_lacking _ _ Hid). reflexivity.
  - rewrite Hlong, contains_app.
    cbn [Py.split res_bind]. rewrite (split_from_app _ _ _ _ Hpre).
    rewrite (split_from_lacking _ _ Hagain). cbn [Py.index lookup list_lookup res_bind].
    rewrite (split_from_app _ _ _ _ Hid). reflexivity.
Qed.

Lemma short_form_round_trip_witness :
  extract_video_id_from_url "https://youtu.be/dQw4w9WgXcQ" = Ok "dQw4w9WgXcQ"
  ∧ extract_video_id_from_url "https://youtu.be/dQw4w9WgXcQ?t=42" = Ok "dQw4w9WgXcQ".
Proof.
  destruct (short_form_round_trip "https://" "dQw4w9WgXcQ" "t=42")
    as [Hbare Hparams]; [reflexivity | reflexivity |].
  split; [apply Hbare | apply Hparams]; reflexivity.
Defined.

(** X4.  What the normalizer cuts out is free of the delimiter it cuts
    at: no ampersand in an identifier taken from a long-form reference, no
    question mark in one taken from a short-form reference. *)
Theorem normalized_id_lacks_delimiter (url video_id : string) :
  extract_video_id_from_url url = Ok video_id →
  (Py.contains "youtube.com/watch?v=" url = true → Py.contains "&" video_id = false)
  ∧ (Py.contains "youtube.com/watch?v=" url = false →
     Py.contains "youtu.be/" url = true → Py.contains "?" video_id = false).
Proof.
  unfold extract_video_id_from_url. intros Hid. split.
  - intros Hlong. rewrite Hlong in Hid. cbn [Py.split res_bind] in Hid.
    destruct (Py.index _ 1) as [tail|e]; [|discriminate Hid]. cbn [res_bind] in Hid.
    unfold Py.index in Hid.
    destruct (Py.split_from "&" O tail) as [|piece pieces] eqn:Hsplit; [discriminate Hid|].
    injection Hid as <-. apply (split_from_first_lacks _ _ _ _ Hsplit).
  - intros Hlong Hshort. rewrite Hlong, Hshort in Hid. cbn [Py.split res_bind] in Hid.
    destruct (Py.index _ 1) as [tail|e]; [|discriminate Hid]. cbn [res_bind] in Hid.
    unfold Py.index in Hid.
    destruct (Py.split_from "?" O tail) as [|piece pieces] eqn:Hsplit; [discriminate Hid|].
    injection Hid as <-. apply (split_from_first_lacks _ _ _ _ Hsplit).
Qed.

Lemma normalized_id_lacks_delimiter_witness :
  Py.contains "&" "ABC" = false ∧ Py.contains "?" "ABC" = false.
Proof.
  split.
  - destruct (normalized_id_lacks_delimiter
                "https://www.youtube.com/watch?v=ABC&t=5&v=x" "ABC") as [Hlong _].
    + reflexivity.
    + apply Hlong. reflexivity.
  - destruct (normalized_id_lacks_delimiter "https://youtu.be/ABC?t=5" "ABC")
      as [_ Hshort].
    + reflexivity.
    + apply Hshort; reflexivity.
Defined.

(** ** Stripping and lines *)

Lemma lstrip_head (s : string) :
  Py.lstrip s = EmptyString
  ∨ ∃ c s', Py.lstrip s = String c s' ∧ Py.isspace c = false.
Proof.
  induction s as [|c s IH]; [left; reflexivity|].
  cbn [Py.lstrip]. destruct (Py.isspace c) eqn:Hc; [exact IH|].
  right. eauto.
Qed.

Lemma rstrip_head (c : ascii) (s : string) :
  Py.isspace c = false → ∃ r, Py.rstrip (String c s) = String c r.
Proof.
  intros Hc. cbn [Py.rstrip]. rewrite Hc.
  destruct (Py.rstrip s); eauto.
Qed.

Lemma rstrip_idem (s : string) : Py.rstrip (Py.rstrip s) = Py.rstrip s.
Proof.
  induction s as [|c s IH]; [reflexivity|].
  cbn [Py.rstrip]. destruct (Py.rstrip s) as [|a r] eqn:Hr.
  - destruct (Py.isspace c) eqn:Hc; [reflexivity|].
    cbn [Py.rstrip]. rewrite Hc. reflexivity.
  - change (Py.rstrip (String c (String a r))) with
      (match Py.rstrip (String a r) with
       | EmptyString => if Py.isspace c then EmptyString else String c EmptyString
       | r' => String c r'
       end).
    rewrite IH. reflexivity.
Qed.

Lemma lstrip_fixed (s : string) :
  (s = EmptyString ∨ ∃ c s', s = String c s' ∧ Py.isspace c = false) →
  Py.lstrip s = s.
Proof.
  intros [->|(c & s' & -> & Hc)]; [reflexivity|].
  cbn [Py.lstrip]. rewrite Hc. reflexivity.
Qed.

(** Stripping twice is stripping once. *)
Lemma strip_idem (s : string) : Py.strip (Py.strip s) = Py.strip s.
Proof.
  unfold Py.strip.
  rewrite (lstrip_fixed (Py.rstrip (Py.lstrip s))); [apply rstrip_idem|].
  destruct (lstrip_head s) as [->|(c & s' & -> & Hc)]; [left; reflexivity|].
  right. destruct (rstrip_head c s' Hc) as [r ->]. eauto.
Qed.

Lemma rstrip_snoc_space (s : string) (c : ascii) :
  Py.isspace c = true → Py.rstrip (s +:+ String c EmptyString) = Py.rstrip s.
Proof.
  intros Hc. induction s as [|a s IH].
  - rewrite append_nil. cbn [Py.rstrip]. rewrite Hc. reflexivity.
  - rewrite append_cons. cbn [Py.rstrip]. rewrite IH. reflexivity.
Qed.

Lemma lstrip_snoc_space (s : string) (c : ascii) :
  Py.isspace c = true →
  Py.lstrip (s +:+ String c EmptyString) = Py.lstrip s
  ∨ (Py.lstrip s ≠ EmptyString
     ∧ Py.lstrip (s +:+ String c EmptyString) = Py.lstrip s +:+ String c EmptyString).
Proof.
  intros Hc. induction s as [|a s IH].
  - left. rewrite append_nil. cbn [Py.lstrip]. rewrite Hc. reflexivity.
  - rewrite append_cons. cbn [Py.lstrip]. destruct (Py.isspace a); [exact IH|].
    right. split; [discriminate | reflexivity].
Qed.

(** A trailing white-space character does not show in the stripped
    string. *)
Lemma strip_snoc_space (s : string) (c : ascii) :
  Py.isspace c = true → Py.strip (s +:+ String c EmptyString) = Py.strip s.
Proof.
  intros Hc. unfold Py.strip.
  destruct (lstrip_snoc_space s c Hc) as [->|[_ ->]]; [reflexivity|].
  apply rstrip_snoc_space. exact Hc.
Qed.

Lemma no_lf_cons (c : ascii) (s : string) :
  no_lf (String c s) ↔ Ascii.eqb c "010" = false ∧ no_lf s.
Proof.
  unfold no_lf, Py.LF. rewrite contains_char_cons, orb_false_iff.
  rewrite (Ascii.eqb_sym "010" c). reflexivity.
Qed.

Lemma no_lf_lstrip (s : string) : no_lf s → no_lf (Py.lstrip s).
Proof.
  induction s as [|c s IH]; intros Hs; [exact Hs|].
  cbn [Py.lstrip]. destruct (Py.isspace c); [|exact Hs].
  apply IH. apply no_lf_cons in Hs. apply Hs.
Qed.

Lemma no_lf_rstrip (s : string) : no_lf s → no_lf (Py.rstrip s).
Proof.
  induction s as [|c s IH]; intros Hs; [exact Hs|].
  apply no_lf_cons in Hs as [Hc Hs]. specialize (IH Hs).
  cbn [Py.rstrip]. destruct (Py.rstrip s) as [|a r].
  - destruct (Py.isspace c); [reflexivity|]. apply no_lf_cons. split; [exact Hc | reflexivity].
  - apply no_lf_cons. auto.
Qed.

Lemma no_lf_strip (s : string) : no_lf s → no_lf (Py.strip s).
Proof. intros Hs. apply no_lf_rstrip, no_lf_lstrip, Hs. Qed.

Lemma no_cr_cons (c : ascii) (s : string) :
  no_cr (String c s) ↔ Ascii.eqb c "013" = false ∧ no_cr s.
Proof.
  unfold no_cr, Py.CR. rewrite contains_char_cons, orb_false_iff.
  rewrite (Ascii.eqb_sym "013" c). reflexivity.
Qed.

Lemma no_cr_lstrip (s : string) : no_cr s → no_cr (Py.lstrip s).
Proof.
  induction s as [|c s IH]; intros Hs; [exact Hs|].
  cbn [Py.lstrip]. destruct (Py.isspace c); [|exact Hs].
  apply IH. apply no_cr_cons in Hs. apply Hs.
Qed.

Lemma no_cr_rstrip (s : string) : no_cr s → no_cr (Py.rstrip s).
Proof.
  induction s as [|c s IH]; intros Hs; [exact Hs|].
  apply no_cr_cons in Hs as [Hc Hs]. specialize (IH Hs).
  cbn [Py.rstrip]. destruct (Py.rstrip s) as [|a r].
  - destruct (Py.isspace c); [reflexivity|]. apply no_cr_cons. split; [exact Hc | reflexivity].
  - apply no_cr_cons. auto.
Qed.

Lemma no_cr_strip (s : string) : no_cr s → no_cr (Py.strip s).
Proof. intros Hs. apply no_cr_rstrip, no_cr_lstrip, Hs. Qed.

(** Newline translation leaves no carriage return, and does nothing to a
    text that has none. *)
Lemma translate_newlines_no_cr (s : string) :
  ∀ pending_cr, no_cr (Py.translate_newlines pending_cr s).
Proof.
  induction s as [|c s IH]; intros pending_cr; [reflexivity|].
  cbn [Py.translate_newlines]. destruct (Ascii.eqb c "013") eqn:Hc.
  - apply no_cr_cons. split; [reflexivity | apply IH].
  - destruct (Ascii.eqb c "010"); [destruct pending_cr|];
      try apply no_cr_cons; auto.
Qed.

Lemma translate_newlines_id (s : string) :
  no_cr s → Py.translate_newlines false s = s.
Proof.
  induction s as [|c s IH]; intros Hs; [reflexivity|].
  apply no_cr_cons in Hs as [Hc Hs].
  cbn [Py.translate_newlines]. rewrite Hc, (IH Hs).
  destruct (Ascii.eqb c "010"); reflexivity.
Qed.

(** The pieces of a text without carriage returns are free of line feeds,
    but for the one that may end them, and of carriage returns. *)
Lemma split_lines_shape (text : string) :
  no_cr text →
  Forall (λ line, ∃ body, no_lf body ∧ no_cr body
                          ∧ (line = body ∨ line = body +:+ Py.LF))
         (Py.split_lines text).
Proof.
  induction text as [|c text IH]; intros Htext; [constructor|].
  apply no_cr_cons in Htext as [Hcr Htext]. specialize (IH Htext).
  cbn [Py.split_lines]. destruct (Ascii.eqb c "010") eqn:Hc.
  - apply Ascii.eqb_eq in Hc as ->. constructor; [|exact IH].
    exists EmptyString. split; [reflexivity|]. split; [reflexivity | right; reflexivity].
  - destruct (Py.split_lines text) as [|l ls].
    + constructor; [|constructor]. exists (String c EmptyString).
      split; [apply no_lf_cons; split; [exact Hc | reflexivity]|].
      split; [apply no_cr_cons; split; [exact Hcr | reflexivity] | left; reflexivity].
    + inversion IH as [|? ? (body & Hbody & Hbody' & Hl) Hls]; subst.
      constructor; [|exact Hls]. exists (String c body).
      split; [apply no_lf_cons; auto|]. split; [apply no_cr_cons; auto|].
      destruct Hl as [->| ->]; [left | right]; reflexivity.
Qed.

(** Every line of a file is free of line feeds, but for the one that may
    end it, and of carriage returns. *)
Lemma lines_shape (text : string) :
  Forall (λ line, ∃ body, no_lf body ∧ no_cr body
                          ∧ (line = body ∨ line = body +:+ Py.LF))
         (Py.lines text).
Proof. apply split_lines_shape, translate_newlines_no_cr. Qed.

Lemma strip_line_no_lf (text line : string) :
  line ∈ Py.lines text → no_lf (Py.strip line).
Proof.
  intros Hin. pose proof (lines_shape text) as Hshape.
  rewrite Forall_forall in Hshape.
  destruct (Hshape line Hin) as (body & Hbody & _ & [->| ->]).
  - apply no_lf_strip, Hbody.
  - unfold Py.LF. rewrite strip_snoc_space by reflexivity. apply no_lf_strip, Hbody.
Qed.

Lemma strip_line_no_cr (text line : string) :
  line ∈ Py.lines text → no_cr (Py.strip line).
Proof.
  intros Hin. pose proof (lines_shape text) as Hshape.
  rewrite Forall_forall in Hshape.
  destruct (Hshape line Hin) as (body & _ & Hbody & [->| ->]).
  - apply no_cr_strip, Hbody.
  - unfold Py.LF. rewrite strip_snoc_space by reflexivity. apply no_cr_strip, Hbody.
Qed.

(** X5.  Reading the item list touches nothing.  A missing file raises
    [FileNotFoundError].  From a file that is there, every reference read
    is non-empty, has no white space around it (stripping it again changes
    nothing) and holds no line feed and no carriage return: reading in
    text mode takes a carriage return for a line break. *)
Theorem read_urls_entries (file_path : string) (w : world) :
  after (read_urls file_path) w = w
  ∧ (fs w !! file_path = None →
     run (read_urls file_path) w = Raise (FileNotFoundError file_path))
  ∧ (∀ text, fs w !! file_path = Some text →
       ∃ urls, run (read_urls file_path) w = Ok urls
               ∧ ∀ url, url ∈ urls →
                        url ≠ EmptyString ∧ Py.strip url = url
                        ∧ no_lf url ∧ no_cr url).
Proof.
  unfold run, after, read_urls, bind, read_text.
  destruct (fs w !! file_path) as [text|] eqn:Hfile; cbn.
  - split; [reflexivity|]. split; [discriminate|].
    intros ? [= <-]. eexists. split; [reflexivity|].
    intros url Hurl. apply elem_of_stripped_lines in Hurl as (line & Hline & -> & Hne).
    split; [exact Hne|]. split; [apply strip_idem|].
    split; [apply (strip_line_no_lf text) | apply (strip_line_no_cr text)]; exact Hline.
  - split; [reflexivity|]. split; [reflexivity | discriminate].
Qed.

Lemma read_urls_entries_witness :
  let w := quiet (Exited 0 EmptyString EmptyString []) 0
                 {[ "train_urls.txt" := " a " +:+ Py.CR +:+ Py.LF +:+ Py.LF +:+ "b" ]} in
  run (read_urls "test_urls.txt") w = Raise (FileNotFoundError "test_urls.txt")
  ∧ ∃ urls, run (read_urls "train_urls.txt") w = Ok urls
            ∧ ∀ url, url ∈ urls →
                     url ≠ EmptyString ∧ Py.strip url = url
                     ∧ no_lf url ∧ no_cr url.
Proof.
  cbv zeta. split.
  - apply (read_urls_entries "test_urls.txt"). vm_compute. reflexivity.
  - destruct (read_urls_entries "train_urls.txt"
                (quiet (Exited 0 EmptyString EmptyString []) 0
                       {[ "train_urls.txt"
                          := " a " +:+ Py.CR +:+ Py.LF +:+ Py.LF +:+ "b" ]}))
      as (_ & _ & Hthere).
    apply (Hthere (" a " +:+ Py.CR +:+ Py.LF +:+ Py.LF +:+ "b")). vm_compute. reflexivity.
Defined.

Lemma split_lines_nil (text : string) : Py.split_lines text = [] → text = EmptyString.
Proof.
  destruct text as [|c text]; [reflexivity|]. cbn [Py.split_lines].
  destruct (Ascii.eqb c "010"); [discriminate|].
  destruct (Py.split_lines text); discriminate.
Qed.

(** Appending to a text that is empty or ends its last line appends to
    its pieces. *)
Lemma split_lines_app (text s : string) :
  well_terminated text →
  Py.split_lines (text +:+ s) = Py.split_lines text ++ Py.split_lines s.
Proof.
  induction text as [|c text IH]; intros Hterm; [reflexivity|].
  destruct Hterm as [Hempty|Hends]; [discriminate Hempty|].
  rewrite append_cons. cbn [Py.split_lines].
  assert (text = EmptyString ∨ well_terminated text ∧ text ≠ EmptyString) as [->|[Hterm Hne]].
  { destruct text as [|a text]; [left; reflexivity|].
    right. split; [right; exact Hends | discriminate]. }
  - cbn [Py.endswith_char] in Hends. rewrite Hends. reflexivity.
  - rewrite (IH Hterm). destruct (Ascii.eqb c "010"); [reflexivity|].
    destruct (Py.split_lines text) as [|l ls] eqn:Hlines; [|reflexivity].
    apply split_lines_nil in Hlines. contradiction.
Qed.

Lemma split_lines_single (url : string) :
  no_lf url → Py.split_lines (url +:+ Py.LF) = [url +:+ Py.LF].
Proof.
  induction url as [|c url IH]; intros Hurl; [reflexivity|].
  apply no_lf_cons in Hurl as [Hc Hurl].
  rewrite append_cons. cbn [Py.split_lines]. rewrite Hc, (IH Hurl). reflexivity.
Qed.

Lemma endswith_char_cons (c a b : ascii) (s : string) :
  Py.endswith_char c (String a (String b s)) = Py.endswith_char c (String b s).
Proof. reflexivity. Qed.

Lemma translate_newlines_cons (pending_cr : bool) (c : ascii) (s : string) :
  Py.translate_newlines pending_cr (String c s)
  = if Ascii.eqb c "013" then String "010" (Py.translate_newlines true s)
    else if Ascii.eqb c "010"
    then if pending_cr then Py.translate_newlines false s
         else String c (Py.translate_newlines false s)
    else String c (Py.translate_newlines false s).
Proof. reflexivity. Qed.

(** A character set before a text that is empty or ends with a line
    feed, the character being a line feed in the first case. *)
Lemma well_terminated_cons (x : ascii) (t : string) :
  (t = EmptyString → x = "010"%char) → well_terminated t →
  well_terminated (String x t).
Proof.
  intros Hx [->|Hend]; right.
  - rewrite (Hx eq_refl). reflexivity.
  - destruct t; [discriminate Hend | exact Hend].
Qed.

(** Newline translation of a text that ends with a line feed: what
    follows the text is translated on its own, and the translated text is
    empty (the line feed ended a pending carriage return) or ends with a
    line feed. *)
Lemma translate_newlines_terminated (text : string) :
  ∀ pending_cr s,
    Py.endswith_char "010" text = true →
    Py.translate_newlines pending_cr (text +:+ s)
    = Py.translate_newlines pending_cr text +:+ Py.translate_newlines false s
    ∧ well_terminated (Py.translate_newlines pending_cr text)
    ∧ (Py.translate_newlines pending_cr text = EmptyString → pending_cr = true).
Proof.
  induction text as [|c text IH]; intros pending_cr s Hends; [discriminate Hends|].
  destruct text as [|a text].
  - cbn [Py.endswith_char] in Hends. apply Ascii.eqb_eq in Hends as ->.
    rewrite append_cons, append_nil, !translate_newlines_cons.
    change (Ascii.eqb "010" "013") with false. change (Ascii.eqb "010" "010") with true.
    cbv iota. change (Py.translate_newlines false EmptyString) with EmptyString.
    destruct pending_cr.
    + split; [reflexivity|]. split; [left; reflexivity | reflexivity].
    + split; [reflexivity|]. split; [right; reflexivity | discriminate].
  - rewrite endswith_char_cons in Hends. rewrite append_cons.
    rewrite (translate_newlines_cons pending_cr c (String a text +:+ s)).
    rewrite (translate_newlines_cons pending_cr c (String a text)).
    destruct (Ascii.eqb c "013").
    + destruct (IH true s Hends) as (-> & Hterm & Hempty). rewrite append_cons.
      split; [reflexivity|]. split; [|discriminate].
      apply well_terminated_cons; [reflexivity | exact Hterm].
    + destruct (IH false s Hends) as (-> & Hterm & Hempty).
      destruct (Ascii.eqb c "010").
      * destruct pending_cr.
        -- split; [reflexivity|]. split; [exact Hterm | reflexivity].
        -- rewrite append_cons. split; [reflexivity|]. split; [|discriminate].
           apply well_terminated_cons; [|exact Hterm].
           intros Ht. discriminate (Hempty Ht).
      * rewrite append_cons. split; [reflexivity|]. split; [|discriminate].
        apply well_terminated_cons; [|exact Hterm].
        intros Ht. discriminate (Hempty Ht).
Qed.

Lemma lines_nil (text : string) : Py.lines text = [] → text = EmptyString.
Proof.
  intros Hlines. apply split_lines_nil in Hlines.
  destruct text as [|c text]; [reflexivity|].
  unfold Py.universal_newlines in Hlines. cbn [Py.translate_newlines] in Hlines.
  destruct (Ascii.eqb c "013"); [discriminate Hlines|].
  destruct (Ascii.eqb c "010"); discriminate Hlines.
Qed.

(** Appending to a file that is empty or ends its last line appends to
    its lines. *)
Lemma lines_app (text s : string) :
  well_terminated text → Py.lines (text +:+ s) = Py.lines text ++ Py.lines s.
Proof.
  intros [->|Hends]; [reflexivity|].
  unfold Py.lines, Py.universal_newlines.
  destruct (translate_newlines_terminated text false s Hends) as (-> & Hterm & _).
  apply split_lines_app, Hterm.
Qed.

Lemma lines_single (url : string) :
  no_lf url → no_cr url → Py.lines (url +:+ Py.LF) = [url +:+ Py.LF].
Proof.
  intros Hlf Hcr. unfold Py.lines, Py.universal_newlines.
  rewrite translate_newlines_id; [apply split_lines_single, Hlf|].
  clear Hlf. induction url as [|c url IH]; [reflexivity|].
  apply no_cr_cons in Hcr as [Hc Hcr]. rewrite append_cons.
  apply no_cr_cons. auto.
Qed.

Lemma endswith_char_snoc (c : ascii) (s : string) :
  Py.endswith_char c (s +:+ String c EmptyString) = true.
Proof.
  induction s as [|a s IH].
  - rewrite append_nil. cbn. apply Ascii.eqb_refl.
  - rewrite append_cons. cbn [Py.endswith_char].
    destruct (s +:+ String c EmptyString) eqn:Hs; [|exact IH].
    destruct s; discriminate Hs.
Qed.

Lemma append_assoc (s t u : string) : (s +:+ t) +:+ u = s +:+ t +:+ u.
Proof. induction s as [|a s IH]; [reflexivity|]. rewrite !append_cons, IH. reflexivity. Qed.

Lemma well_terminated_record (text url : string) :
  well_terminated (text +:+ url +:+ Py.LF).
Proof.
  right. rewrite <- append_assoc. apply endswith_char_snoc.
Qed.

(** The stripped lines of a ledger text after one more reference was
    recorded. *)
Lemma stripped_lines_record (text url : string) :
  well_terminated text → Py.strip url = url → url ≠ EmptyString →
  no_lf url → no_cr url →
  stripped_lines (text +:+ url +:+ Py.LF) = stripped_lines text ++ [url].
Proof.
  intros Hterm Hstrip Hne Hlf Hcr. unfold stripped_lines.
  rewrite (lines_app _ _ Hterm), (lines_single _ Hlf Hcr), map_app, filter_app.
  f_equal. cbn [map]. unfold Py.LF. rewrite strip_snoc_space by reflexivity.
  rewrite Hstrip. rewrite filter_cons. destruct url; [contradiction|].
  cbn. reflexivity.
Qed.

(** X6.  Recording and loading.  Let the ledger file be missing, or empty,
    or end with a line feed, and let the reference be non-empty, without
    white space around it and without a line feed or a carriage return in
    it (as the references [read_urls] gives are; a carriage return inside
    the reference would be read back as a line break).  Appending the
    reference and a line feed and then loading the ledger gives the former
    set with the reference added, and the file keeps ending with a line
    feed. *)
Theorem ledger_record_then_load (p url : string) (w : world) :
  Py.strip url = url → url ≠ EmptyString → no_lf url → no_cr url →
  (∀ text, fs w !! p = Some text → well_terminated text) →
  let m := append_text p (url +:+ Py.LF) >> read_downloaded_urls p in
  run m w = Ok (ledger_of w p ∪ {[ url ]})
  ∧ ∃ text, fs (after m w) !! p = Some text ∧ well_terminated text.
Proof.
  intros Hstrip Hne Hlf Hcr Hterm m.
  set (old := default EmptyString (fs w !! p)).
  assert (well_terminated old) as Hold.
  { unfold old. destruct (fs w !! p) as [text|]; [apply Hterm; reflexivity | left; reflexivity]. }
  assert (ledger_of w p = list_to_set (stripped_lines old)) as Hledger.
  { unfold ledger_of, old. destruct (fs w !! p); reflexivity. }
  set (w' := emit (EAppend p (url +:+ Py.LF))
               (with_fs (<[p := old +:+ url +:+ Py.LF]> (fs w)) w)).
  assert (m w = (Ok (ledger_of w' p), w')) as Hm.
  { unfold m. rewrite (bind_ok _ _ w w' tt) by reflexivity.
    apply read_downloaded_urls_eq. }
  assert (fs w' !! p = Some (old +:+ url +:+ Py.LF)) as Hfile
    by (cbn; apply lookup_insert_eq).
  destruct (run_after _ _ _ _ Hm) as [-> ->]. split.
  - f_equal. unfold ledger_of at 1. rewrite Hfile, Hledger.
    rewrite (stripped_lines_record _ _ Hold Hstrip Hne Hlf Hcr).
    rewrite list_to_set_app_L, list_to_set_cons, list_to_set_nil, (right_id_L ∅ (∪)).
    reflexivity.
  - exists (old +:+ url +:+ Py.LF). split; [exact Hfile | apply well_terminated_record].
Qed.

Lemma ledger_record_then_load_witness :
  let w := quiet (Exited 0 EmptyString EmptyString []) 0
                 {[ "downloaded_train_urls.txt" := "a" +:+ Py.CR +:+ Py.LF ]} in
  let m := append_text "downloaded_train_urls.txt" ("b" +:+ Py.LF)
           >> read_downloaded_urls "downloaded_train_urls.txt" in
  run m w = Ok (ledger_of w "downloaded_train_urls.txt" ∪ {[ "b" ]}).
Proof.
  cbv zeta.
  apply (ledger_record_then_load "downloaded_train_urls.txt" "b").
  - reflexivity.
  - discriminate.
  - reflexivity.
  - reflexivity.
  - intros text Htext. vm_compute in Htext. injection Htext as <-.
    right. reflexivity.
Defined.

(** Why the reference must be free of carriage returns: one that holds
    a carriage return is read back as two lines, and the ledger gains its
    two halves and not the reference. *)
Lemma carriage_return_read_back :
  let p := "downloaded_train_urls.txt" in
  let url := "a" +:+ Py.CR +:+ "b" in
  let m := append_text p (url +:+ Py.LF) >> read_downloaded_urls p in
  let w := quiet (Exited 0 EmptyString EmptyString []) 0 ∅ in
  Py.strip url = url ∧ no_lf url
  ∧ run m w = Ok (list_to_set ["a"; "b"]).
Proof.
  cbv zeta. split; [reflexivity|]. split; [reflexivity|].
  set (w := quiet (Exited 0 EmptyString EmptyString []) 0 ∅).
  set (text := ("a" +:+ Py.CR +:+ "b") +:+ Py.LF).
  set (w' := emit (EAppend "downloaded_train_urls.txt" text)
               (with_fs (<["downloaded_train_urls.txt" := EmptyString +:+ text]> (fs w)) w)).
  unfold run.
  rewrite (bind_ok _ _ w w' tt) by reflexivity.
  rewrite read_downloaded_urls_eq. reflexivity.
Qed.

(** ** More on the Item Fetcher *)

(** X7.  No exception leaves a fetch, whatever the retry count and
    whatever the environment does: the normalizer does not raise, and the
    handler of the retry loop takes every exception of a launch. *)
Theorem fetch_never_raises (url output_dir : string) (retry_count : Z) (verbose : bool)
    (cookies_file cookies_from_browser : option string) (w : world) :
  ∃ answer, run (download_video url output_dir retry_count verbose
                                cookies_file cookies_from_browser) w = Ok answer.
Proof.
  assert (returns (λ _, True)
            (download_video url output_dir retry_count verbose
                            cookies_file cookies_from_browser)) as Hreturns.
  { unfold download_video.
    eapply returns_bind; [apply returns_mark|]. intros _ _.
    destruct (extract_video_id_total url) as (video_id & Hid). rewrite Hid.
    eapply returns_bind; [intros w'; exists video_id; split; [reflexivity | exact I]|].
    intros vid _.
    eapply returns_bind; [apply returns_existence_check|].
    intros [r|] _; [apply returns_ret; exact I|].
    apply returns_for_in. intros attempt. apply returns_attempt_body. }
  destruct (Hreturns w) as (answer & Hrun & _). eauto.
Qed.

Lemma range_two (n : Z) :
  2 ≤ n → ∃ later, Py.range n = 0 :: 1 :: later.
Proof.
  intros Hn. unfold Py.range.
  replace (Z.to_nat n) with (S (S (Z.to_nat (n - 2)))) by lia.
  cbn [seq map]. eauto.
Qed.

(** X8.  The two ways to success.  With no output file in place, a first
    launch that exits with code 0 makes the fetch answer success after that
    one launch.  When the first two launches of the primary format fail
    with a generic error and the fallback launch exits with code 0, the
    fetch answers success after three launches and one sleep, with the
    third attempt never made. *)
Theorem fetch_success (url output_dir : string) (retry_count : Z) (verbose : bool)
    (cookies_file cookies_from_browser : option string) (w : world) (video_id : string) :
  extract_video_id_from_url url = Ok video_id →
  (∀ ext, ext ∈ container_exts → fs w !! output_path output_dir video_id ext = None) →
  let m := download_video url output_dir retry_count verbose
                          cookies_file cookies_from_browser in
  let template := OsPath.join output_dir (video_id +:+ ".%(ext)s") in
  let primary := EInvoke (primary_cmd url template cookies_file cookies_from_browser) in
  let fallback := EInvoke (fallback_cmd url template cookies_file cookies_from_browser) in
  (1 ≤ retry_count →
   ∀ stdout stderr files,
     launches w (launched w) = Exited 0 stdout stderr files →
     run m w = Ok (Some (success url video_id))
     ∧ effects m w = [EFetch url; primary])
  ∧ (2 ≤ retry_count →
     generic_failure (launches w (launched w)) = true →
     generic_failure (launches w (1 + launched w)%nat) = true →
     ∀ stdout stderr files,
       launches w (2 + launched w)%nat = Exited 0 stdout stderr files →
       run m w = Ok (Some (success url video_id))
       ∧ effects m w = [EFetch url; primary; ESleep (Backoff 1 (draws w (drawn w)));
                        primary; fallback]).
Proof.
  intros Hid Hnone m template primary fallback.
  pose (p := primary_cmd url template cookies_file cookies_from_browser).
  pose (q := fallback_cmd url template cookies_file cookies_from_browser).
  split.
  - intros Hn stdout stderr files Hexit.
    assert (m w = (Ok (Some (success url video_id)),
                   launched_with p files (emit (EFetch url) w))) as Hm.
    { apply (download_video_first_pass _ _ _ _ _ _ _ _ video_id); try assumption.
      apply (attempt_success _ _ _ _ _ _ 0 (emit (EFetch url) w) 0 stdout stderr files);
        [exact Hexit | reflexivity]. }
    destruct (run_after _ _ _ _ Hm) as [-> _]. split; [reflexivity|].
    apply (effects_of _ _ _ _ _ Hm). cbn. rewrite <- app_assoc. reflexivity.
  - intros Hn Hfirst Hsecond stdout stderr files Hexit.
    destruct (generic_failure_inv _ Hfirst) as (rc0 & o0 & e0 & f0 & L0 & Hrc0 & A0 & U0).
    destruct (generic_failure_inv _ Hsecond) as (rc1 & o1 & e1 & f1 & L1 & Hrc1 & A1 & U1).
    pose (w1 := slept 0 (launched_with p f0 (emit (EFetch url) w))).
    assert (m w = (Ok (Some (success url video_id)),
                   launched_with q files (launched_with p f1 w1))) as Hm.
    { unfold m. rewrite (download_video_enters_loop _ _ _ _ _ _ _ video_id Hid Hnone).
      destruct (range_two retry_count Hn) as (later & ->).
      rewrite (for_in_next 0 _ _ _ w1).
      2:{ apply (attempt_retry _ _ _ _ _ _ 0 (emit (EFetch url) w) rc0 o0 e0 f0 L0);
          auto; lia. }
      apply for_in_return.
      apply (attempt_alternate_success _ _ _ _ _ _ 1 w1 rc1 o1 e1 f1 L1 Hrc1
               (A1 _ _) U1 0 stdout stderr files eq_refl Hexit eq_refl). }
    destruct (run_after _ _ _ _ Hm) as [-> _]. split; [reflexivity|].
    apply (effects_of _ _ _ _ _ Hm). cbn. rewrite <- !app_assoc. reflexivity.
Qed.

Lemma fetch_success_witness :
  let w := quiet (Exited 0 "[download] 100%" EmptyString []) 0 ∅ in
  let m := download_video "ABC" "out" 3 false None None in
  (run m w = Ok (Some (success "ABC" "ABC"))
   ∧ effects m w = [EFetch "ABC"; EInvoke (primary_cmd "ABC" "out/ABC.%(ext)s" None None)])
  ∧ (run m (recovering 2 ∅) = Ok (Some (success "ABC" "ABC"))
     ∧ length (invocations (effects m (recovering 2 ∅))) = 3%nat).
Proof.
  cbv zeta. split.
  - destruct (fetch_success "ABC" "out" 3 false None None
                (quiet (Exited 0 "[download] 100%" EmptyString []) 0 ∅) "ABC")
      as [Hfirst _].
    + reflexivity.
    + intros ext _. reflexivity.
    + apply (Hfirst ltac:(lia) "[download] 100%" EmptyString []). reflexivity.
  - destruct (fetch_success "ABC" "out" 3 false None None (recovering 2 ∅) "ABC")
      as [_ Hfallback].
    + reflexivity.
    + intros ext _. reflexivity.
    + destruct (Hfallback ltac:(lia) eq_refl eq_refl "[download] 100%" EmptyString []
                  eq_refl) as [Hrun Heffects].
      split; [exact Hrun|]. rewrite Heffects. reflexivity.
Defined.

(** One pass of the retry loop when the primary launch cannot start. *)
Section LaunchFailure.
Variables (url video_id output_template : string) (retry_count : Z).
Variables (cookies_file cookies_from_browser : option string).

Let body := attempt_body url video_id output_template retry_count
                         cookies_file cookies_from_browser.
Let primary := primary_cmd url output_template cookies_file cookies_from_browser.

Variables (attempt : Z) (w : world) (e : exn).
Hypothesis not_started : launches w (launched w) = NotStarted e.

Let w1 := emit (EInvoke primary) (with_launched (S (launched w)) w).

Lemma attempt_not_started_retry :
  attempt < retry_count - 1 → body attempt w = (Ok None, slept attempt w1).
Proof.
  intros Hlt. unfold body, attempt_body, try_except, attempt_try.
  rewrite (bind_raise _ _ _ _ _ (popen_not_started _ _ _ not_started)).
  apply Z.ltb_lt in Hlt. rewrite Hlt. reflexivity.
Qed.

Lemma attempt_not_started_last :
  ¬ attempt < retry_count - 1 →
  body attempt w = (Ok (Some (invocation_failure url video_id e)), w1).
Proof.
  intros Hlt. unfold body, attempt_body, try_except, attempt_try.
  rewrite (bind_raise _ _ _ _ _ (popen_not_started _ _ _ not_started)).
  apply Z.ltb_nlt in Hlt. rewrite Hlt. reflexivity.
Qed.
End LaunchFailure.

Section LaunchFailures.
Variables (url video_id output_template : string) (retry_count : Z).
Variables (cookies_file cookies_from_browser : option string).

Let body := attempt_body url video_id output_template retry_count
                         cookies_file cookies_from_browser.
Let primary := primary_cmd url output_template cookies_file cookies_from_browser.

(** The retry loop from attempt [k] on, with [S m] attempts to go, when no
    launch can start. *)
Lemma launch_failures_loop (m : nat) :
  ∀ (k : nat) (w : world),
    Z.of_nat (k + S m) = retry_count →
    (∀ i, ∃ e, launches w i = NotStarted e) →
    ∃ e w' t,
      for_in (map Z.of_nat (seq k (S m))) body w
      = (Ok (Some (invocation_failure url video_id e)), w')
      ∧ launches w (launched w + m)%nat = NotStarted e
      ∧ trace w' = trace w ++ t
      ∧ invocations t = replicate (S m) (EInvoke primary)
      ∧ sleep_bases t = map (λ i, 2 ^ Z.of_nat i) (seq k m)
      ∧ length (sleeps t) = m.
Proof.
  induction m as [|m IH]; intros k w Hk Hnone.
  - destruct (Hnone (launched w)) as [e He].
    exists e, (emit (EInvoke primary) (with_launched (S (launched w)) w)), [EInvoke primary].
    cbn [seq map]. split; [|rewrite Nat.add_0_r; auto].
    apply for_in_return. apply attempt_not_started_last; [exact He | lia].
  - destruct (Hnone (launched w)) as [e0 He0].
    set (w1 := slept (Z.of_nat k)
                 (emit (EInvoke primary) (with_launched (S (launched w)) w))).
    destruct (IH (S k) w1) as (e & w' & t & Hloop & He & Ht & Hinv & Hbases & Hsleeps);
      [lia | exact Hnone |].
    exists e, w',
      (EInvoke primary :: ESleep (Backoff (2 ^ Z.of_nat k) (draws w (drawn w))) :: t).
    cbn [seq map]. rewrite (for_in_next (Z.of_nat k) _ _ _ w1).
    2:{ apply (attempt_not_started_retry _ _ _ _ _ _ _ _ e0 He0). lia. }
    split; [exact Hloop|]. split.
    { replace (launched w + S m)%nat with (launched w1 + m)%nat by (cbn; lia). exact He. }
    split; [rewrite Ht; cbn; rewrite <- !app_assoc; reflexivity|].
    change (invocations (EInvoke primary :: ESleep ?d :: t))
      with (EInvoke primary :: invocations t).
    change (sleep_bases (EInvoke primary :: ESleep (Backoff ?b ?j) :: t))
      with (b :: sleep_bases t).
    change (sleeps (EInvoke primary :: ESleep ?d :: t)) with (ESleep d :: sleeps t).
    rewrite Hinv, Hbases. cbn [length]. rewrite Hsleeps. auto.
Qed.
End LaunchFailures.

(** X9.  When no launch can start (the tool is missing, say), a fetch
    with retry count [n] of one at least and no output file in place
    launches the primary command [n] times and never the fallback, sleeps
    between the launches for 1, 2, 4, ... seconds plus jitter, and answers
    an error whose message is the text of the last exception, with no
    details. *)
Theorem fetch_launch_failures (url output_dir : string) (retry_count : Z) (verbose : bool)
    (cookies_file cookies_from_browser : option string) (w : world) (video_id : string) :
  extract_video_id_from_url url = Ok video_id →
  (∀ ext, ext ∈ container_exts → fs w !! output_path output_dir video_id ext = None) →
  1 ≤ retry_count →
  (∀ i, ∃ e, launches w i = NotStarted e) →
  let m := download_video url output_dir retry_count verbose
                          cookies_file cookies_from_browser in
  let n := Z.to_nat retry_count in
  let primary :=
    EInvoke (primary_cmd url (OsPath.join output_dir (video_id +:+ ".%(ext)s"))
                         cookies_file cookies_from_browser) in
  ∃ e,
    launches w (launched w + (n - 1))%nat = NotStarted e
    ∧ run m w = Ok (Some (Result "error" url video_id (Some (str_exn e)) None))
    ∧ invocations (effects m w) = replicate n primary
    ∧ sleep_bases (effects m w) = map (λ i, 2 ^ Z.of_nat i) (seq 0 (n - 1)).
Proof.
  intros Hid Hnone Hn Hfail m n primary.
  destruct (launch_failures_loop url video_id
              (OsPath.join output_dir (video_id +:+ ".%(ext)s")) retry_count
              cookies_file cookies_from_browser (n - 1) 0 (emit (EFetch url) w))
    as (e & w' & t & Hloop & He & Ht & Hinv & Hbases & _);
    [unfold n; lia | exact Hfail |].
  assert (m w = (Ok (Some (invocation_failure url video_id e)), w')) as Hm.
  { unfold m. rewrite (download_video_enters_loop _ _ _ _ _ _ _ video_id Hid Hnone).
    unfold Py.range. fold n. replace n with (S (n - 1)) at 1 by (unfold n; lia).
    exact Hloop. }
  exists e. split; [exact He|].
  destruct (run_after _ _ _ _ Hm) as [-> _]. split; [reflexivity|].
  rewrite (effects_of _ _ _ _ (EFetch url :: t) Hm)
    by (rewrite Ht; cbn; rewrite <- app_assoc; reflexivity).
  change (invocations (EFetch url :: t)) with (invocations t).
  change (sleep_bases (EFetch url :: t)) with (sleep_bases t).
  rewrite Hinv, Hbases. replace (S (n - 1)) with n by (unfold n; lia). auto.
Qed.

Lemma fetch_launch_failures_witness :
  let m := download_video "ABC" "out" 3 false None None in
  run m (not_installed ∅)
  = Ok (Some (Result "error" "ABC" "ABC"
                     (Some "[Errno 2] No such file or directory: 'yt-dlp'") None))
  ∧ length (invocations (effects m (not_installed ∅))) = 3%nat
  ∧ sleep_bases (effects m (not_installed ∅)) = [1; 2].
Proof.
  cbv zeta.
  destruct (fetch_launch_failures "ABC" "out" 3 false None None (not_installed ∅) "ABC")
    as (e & He & Hrun & Hinv & Hbases).
  - reflexivity.
  - intros ext _. reflexivity.
  - lia.
  - intros i. eexists. reflexivity.
  - injection He as <-. rewrite Hrun, Hinv, Hbases. repeat split.
Defined.

(** What one pass of the retry loop does, whichever way it goes. *)
(** Files left at other paths do not change the file at [p]. *)
Lemma leave_files_spares (p : string) (files : list (string * string))
    (f : gmap string string) :
  p ∉ files.*1 → leave_files files f !! p = f !! p.
Proof.
  revert f. induction files as [|[k v] files IH]; intros f Hp; [reflexivity|].
  cbn in Hp. apply not_elem_of_cons in Hp as [Hk Hp].
  change (leave_files ((k, v) :: files) f) with (leave_files files (<[k := v]> f)).
  rewrite (IH _ Hp). apply lookup_insert_ne. congruence.
Qed.

Section Summary.
Variables (url video_id output_template : string) (retry_count : Z).
Variables (cookies_file cookies_from_browser : option string).

Let body := attempt_body url video_id output_template retry_count
                         cookies_file cookies_from_browser.

Lemma attempt_body_summary (attempt : Z) (w : world) :
  ∃ r w' t,
    body attempt w = (Ok r, w')
    ∧ trace w' = trace w ++ t
    ∧ launches w' = launches w
    ∧ Forall pass_event t
    ∧ (1 ≤ length (invocations t) ≤ (if (attempt =? 1)%Z then 2 else 1))%nat
    ∧ launched w' = (launched w + length (invocations t))%nat
    ∧ ((r = None ∧ attempt < retry_count - 1 ∧ sleep_bases t = [2 ^ attempt])
       ∨ (is_Some r ∧ sleep_bases t = []))
    ∧ (∀ p, (∀ i, spares p (launches w i)) → fs w' !! p = fs w !! p).
Proof.
  unfold body, attempt_body, try_except, attempt_try, alternate, backoff, time_sleep,
    mark, draw, bind, popen, ret.
  pose proof (λ p (H : ∀ i, spares p (launches w i)), H (launched w)) as Hfirst.
  pose proof (λ p (H : ∀ i, spares p (launches w i)), H (S (launched w))) as Hsecond.
  destruct (launches w (launched w)) as [rc out err files|e] eqn:L0; cbn [negb];
    [destruct (rc =? 0); cbn [negb];
     [|destruct (auth_branch _ _ out err);
       [|destruct (unavailable_branch out err);
         [|destruct (attempt =? 1) eqn:Hone;
           [cbn [launches launched emit with_launched with_fs];
            destruct (launches w (S (launched w))) as [rc' out' err' files'|e'] eqn:L1;
            [destruct (rc' =? 0)|]|]]]]|];
    try (destruct (attempt <? retry_count - 1) eqn:Hlt;
         [apply Z.ltb_lt in Hlt|]);
    (do 3 eexists; split; [reflexivity|]; split; [cbn; rewrite <- ?app_assoc; reflexivity|]).
  all: cbn [launches launched fs emit with_launched with_fs with_drawn].
  all: (split; [reflexivity|]).
  all: (split; [repeat constructor|]).
  all: (split; [cbn; try destruct (attempt =? 1); lia|]).
  all: (split; [cbn; lia|]).
  all: cbn [sleep_bases omap].
  all: (split; [first [right; split; [eauto | reflexivity] | left; auto]|]).
  all: intros p Hspared; specialize (Hfirst p Hspared); specialize (Hsecond p Hspared).
  all: rewrite ?L0, ?L1 in *; cbn [spares] in *.
  all: rewrite ?leave_files_spares by assumption; reflexivity.
Qed.

Lemma invocations_app (t1 t2 : list event) :
  invocations (t1 ++ t2) = invocations t1 ++ invocations t2.
Proof. apply List.filter_app. Qed.

Lemma sleep_bases_app (t1 t2 : list event) :
  sleep_bases (t1 ++ t2) = sleep_bases t1 ++ sleep_bases t2.
Proof. apply omap_app. Qed.

(** The retry loop from attempt [k] on, with [n] attempts to go. *)
Lemma retry_loop_summary (n : nat) :
  ∀ (k : nat) (w : world),
    ∃ r w' t,
      for_in (map Z.of_nat (seq k n)) body w = (Ok r, w')
      ∧ trace w' = trace w ++ t
      ∧ launches w' = launches w
      ∧ Forall pass_event t
      ∧ (length (invocations t) ≤ n + (if decide (k ≤ 1 < k + n) then 1 else 0))%nat
      ∧ launched w' = (launched w + length (invocations t))%nat
      ∧ (∃ j, (j ≤ n)%nat ∧ (j = O ∨ Z.of_nat (k + j) ≤ retry_count - 1)
              ∧ sleep_bases t = map (λ i, 2 ^ Z.of_nat i) (seq k j))
      ∧ (∀ p, (∀ i, spares p (launches w i)) → fs w' !! p = fs w !! p).
Proof.
  induction n as [|n IH]; intros k w.
  - exists None, w, []. cbn [seq map for_in]. rewrite app_nil_r.
    repeat split; [constructor | cbn; lia |cbn; lia |].
    exists O. repeat split; [lia | left; reflexivity].
  - cbn [seq map for_in].
    destruct (attempt_body_summary (Z.of_nat k) w)
      as (r1 & w1 & t1 & Hbody & Ht1 & Hl1 & Hev1 & Hinv1 & Hcount1 & Hsleep1 & Hfs1).
    rewrite (bind_ok _ _ _ _ _ Hbody).
    assert ((if (Z.of_nat k =? 1)%Z then 2 else 1)%nat
            = (if decide (k = 1%nat) then 2 else 1)%nat)
      as Hk by (destruct (Z.eqb_spec (Z.of_nat k) 1); destruct (decide (k = 1%nat)); lia).
    rewrite Hk in Hinv1. clear Hk.
    destruct Hsleep1 as [(-> & Hlt & Hb1) | ([v ->] & Hb1)].
    + destruct (IH (S k) w1)
        as (r & w' & t2 & Hloop & Ht2 & Hl2 & Hev2 & Hinv2 & Hcount2
            & (j & Hj & Hbound & Hb2) & Hfs2).
      exists r, w', (t1 ++ t2). rewrite Hloop.
      split; [reflexivity|]. split; [rewrite Ht2, Ht1, app_assoc; reflexivity|].
      split; [rewrite Hl2; exact Hl1|]. split; [apply Forall_app; auto|].
      rewrite invocations_app, length_app.
      split; [repeat case_decide; lia|]. split; [lia|]. split.
      * exists (S j). split; [lia|]. split; [right; lia|].
        rewrite sleep_bases_app, Hb1, Hb2. reflexivity.
      * intros p Hspared. rewrite Hfs2; [apply Hfs1, Hspared|].
        intros i. rewrite Hl1. apply Hspared.
    + exists (Some v), w1, t1. split; [reflexivity|]. split; [exact Ht1|].
      split; [exact Hl1|]. split; [exact Hev1|].
      split; [repeat case_decide; lia|]. split; [exact Hcount1|]. split; [|exact Hfs1].
      exists O. split; [lia|]. split; [left; reflexivity | exact Hb1].
Qed.
End Summary.

Lemma existence_check_pure (url output_dir video_id : string) (w : world) :
  ∃ o, existence_check url output_dir video_id w = (Ok o, w).
Proof.
  unfold existence_check. induction container_exts as [|ext exts IH]; cbn [for_in].
  - eauto.
  - unfold bind at 1. unfold bind at 1. unfold os_path_exists at 1.
    destruct (fs w !! output_path output_dir video_id ext); cbn; eauto.
Qed.

(** A whole fetch, whichever way it goes. *)
Lemma download_video_summary (url output_dir : string) (retry_count : Z) (verbose : bool)
    (cookies_file cookies_from_browser : option string) (w : world) :
  ∃ r w' t,
    download_video url output_dir retry_count verbose cookies_file cookies_from_browser w
    = (Ok r, w')
    ∧ trace w' = trace w ++ EFetch url :: t
    ∧ launches w' = launches w
    ∧ Forall pass_event t
    ∧ (length (invocations t)
       ≤ Z.to_nat retry_count + (if decide (2 ≤ retry_count)%Z then 1 else 0))%nat
    ∧ launched w' = (launched w + length (invocations t))%nat
    ∧ (∃ j, (j = O ∨ Z.of_nat j ≤ retry_count - 1)
            ∧ sleep_bases t = map (λ i, 2 ^ Z.of_nat i) (seq 0 j))
    ∧ (∀ p, (∀ i, spares p (launches w i)) → fs w' !! p = fs w !! p).
Proof.
  unfold download_video.
  rewrite (bind_ok _ _ w (emit (EFetch url) w) tt) by reflexivity.
  destruct (extract_video_id_total url) as (video_id & Hid).
  rewrite (bind_ok _ _ _ (emit (EFetch url) w) video_id)
    by (unfold lift; rewrite Hid; reflexivity).
  destruct (existence_check_pure url output_dir video_id (emit (EFetch url) w))
    as ([r|] & Hcheck); rewrite (bind_ok _ _ _ _ _ Hcheck).
  - exists (Some r), (emit (EFetch url) w), [].
    repeat split; [constructor | cbn; lia |cbn; lia |].
    exists O. split; [left; reflexivity | reflexivity].
  - destruct (retry_loop_summary url video_id
                (OsPath.join output_dir (video_id +:+ ".%(ext)s")) retry_count
                cookies_file cookies_from_browser (Z.to_nat retry_count) 0
                (emit (EFetch url) w))
      as (r & w' & t & Hloop & Ht & Hl & Hev & Hinv & Hcount & (j & Hj & Hbound & Hb) & Hfs).
    exists r, w', t. split; [exact Hloop|].
    split; [rewrite Ht; cbn; rewrite <- app_assoc; reflexivity|].
    split; [exact Hl|]. split; [exact Hev|].
    split; [repeat case_decide; lia|]. split; [exact Hcount|]. split; [|exact Hfs].
    exists j. split; [destruct Hbound; [left | right]; lia | exact Hb].
Qed.

(** X10.  The effort of a fetch, whatever the environment does.  With
    retry count [n] it launches at most [n] processes, and one more for the
    fallback when [n] is two at least; every launch is in its trace.  Its
    back-off sleeps last 1, 2, 4, ... seconds plus jitter, in this order,
    and there are fewer of them than [n]: the last attempt is never
    followed by a sleep. *)
Theorem fetch_effort (url output_dir : string) (retry_count : Z) (verbose : bool)
    (cookies_file cookies_from_browser : option string) (w : world) :
  let m := download_video url output_dir retry_count verbose
                          cookies_file cookies_from_browser in
  (length (invocations (effects m w))
   ≤ Z.to_nat retry_count + (if decide (2 ≤ retry_count)%Z then 1 else 0))%nat
  ∧ launched (after m w) = (launched w + length (invocations (effects m w)))%nat
  ∧ ∃ j, (j = O ∨ Z.of_nat j ≤ retry_count - 1)
         ∧ sleep_bases (effects m w) = map (λ i, 2 ^ Z.of_nat i) (seq 0 j).
Proof.
  intros m.
  destruct (download_video_summary url output_dir retry_count verbose
              cookies_file cookies_from_browser w)
    as (r & w' & t & Hm & Ht & _ & _ & Hinv & Hcount & Hsleeps & _).
  fold m in Hm. destruct (run_after _ _ _ _ Hm) as [_ ->].
  rewrite (effects_of _ _ _ _ _ Hm Ht).
  change (invocations (EFetch url :: t)) with (invocations t).
  change (sleep_bases (EFetch url :: t)) with (sleep_bases t).
  auto.
Qed.

(** X11.  What a fetch leaves alone.  Its trace is the marker of the call
    followed by process launches and back-off sleeps only: it appends to no
    file, writes no file and takes no pause of whole seconds.  The store
    changes only by what the launched processes leave behind: a file that no
    launch writes is after the fetch what it was before. *)
Theorem fetch_frame (url output_dir : string) (retry_count : Z) (verbose : bool)
    (cookies_file cookies_from_browser : option string) (w : world) :
  let m := download_video url output_dir retry_count verbose
                          cookies_file cookies_from_browser in
  (∃ t, effects m w = EFetch url :: t ∧ Forall pass_event t)
  ∧ (∀ p, (∀ i, spares p (launches w i)) → fs (after m w) !! p = fs w !! p).
Proof.
  intros m.
  destruct (download_video_summary url output_dir retry_count verbose
              cookies_file cookies_from_browser w)
    as (r & w' & t & Hm & Ht & _ & Hev & _ & _ & _ & Hfs).
  fold m in Hm. destruct (run_after _ _ _ _ Hm) as [_ ->].
  rewrite (effects_of _ _ _ _ _ Hm Ht). split; [|exact Hfs].
  exists t. auto.
Qed.

Lemma fetch_frame_witness :
  let m := download_video "ABC" "out" 3 false None None in
  let w := quiet (Exited 0 EmptyString EmptyString [("out/ABC.mp4", "video")]) 0
                 {[ "downloaded_train_urls.txt" := "a" +:+ Py.LF ]} in
  fs (after m w) !! "downloaded_train_urls.txt" = Some ("a" +:+ Py.LF)
  ∧ fs (after m w) !! "out/ABC.mp4" = Some "video".
Proof.
  cbv zeta. split; [|vm_compute; reflexivity].
  destruct (fetch_frame "ABC" "out" 3 false None None
              (quiet (Exited 0 EmptyString EmptyString [("out/ABC.mp4", "video")]) 0
                     {[ "downloaded_train_urls.txt" := "a" +:+ Py.LF ]}))
    as [_ Hframe].
  rewrite (Hframe "downloaded_train_urls.txt"); [vm_compute; reflexivity|].
  intros i. cbn. apply not_elem_of_cons. split; [discriminate | apply not_elem_of_nil].
Defined.

(** ** More on the Batch Scheduler *)

Lemma pass_events_views (t : list event) :
  Forall pass_event t → fetches_in t = [] ∧ appends_in t = [] ∧ writes_in t = [].
Proof.
  induction 1 as [|e t He _ (IHf & IHa & IHw)]; [auto|].
  destruct e as [| [|] | | | |]; cbn in He; try contradiction; cbn; auto.
Qed.

Lemma fetches_in_app (t1 t2 : list event) :
  fetches_in (t1 ++ t2) = fetches_in t1 ++ fetches_in t2.
Proof. apply omap_app. Qed.

Lemma appends_in_app (t1 t2 : list event) :
  appends_in (t1 ++ t2) = appends_in t1 ++ appends_in t2.
Proof. apply omap_app. Qed.

Lemma writes_in_app (t1 t2 : list event) :
  writes_in (t1 ++ t2) = writes_in t1 ++ writes_in t2.
Proof. apply omap_app. Qed.

Lemma recorded_nil (downloaded_file : string) : recorded downloaded_file [] [] [] [].
Proof. unfold recorded. auto. Qed.

Lemma recorded_app (downloaded_file : string) (s1 s2 : list string)
    (f1 f2 : list failure) (t1 t2 : list event) (l1 l2 : list string) :
  recorded downloaded_file s1 f1 t1 l1 →
  recorded downloaded_file s2 f2 t2 l2 →
  recorded downloaded_file (s1 ++ s2) (f1 ++ f2) (t1 ++ t2) (l1 ++ l2).
Proof.
  intros (Hf1 & Hw1 & Ha1 & Hp1) (Hf2 & Hw2 & Ha2 & Hp2).
  unfold recorded. rewrite fetches_in_app, writes_in_app, appends_in_app.
  rewrite Hf1, Hf2, Hw1, Hw2, Ha1, Ha2, !map_app. repeat split.
  rewrite <- Hp1, <- Hp2, <- !app_assoc.
  apply Permutation_app_head. rewrite !app_assoc.
  apply Permutation_app_tail, Permutation_app_comm.
Qed.

Lemma appended_app (path : string) (l1 l2 : list string) (files : gmap string string) :
  appended path (l1 ++ l2) files = appended path l2 (appended path l1 files).
Proof. apply foldl_app. Qed.

(** What appending to the ledger makes of the file at [p] depends on
    that file only. *)
Lemma appended_lookup_ext (path p : string) (l : list string) (f g : gmap string string) :
  f !! p = g !! p → appended path l f !! p = appended path l g !! p.
Proof.
  revert f g. induction l as [|url l IH]; intros f g Hp; [exact Hp|].
  cbn [appended foldl]. apply IH.
  destruct (decide (p = path)) as [->|Hother].
  - rewrite !lookup_insert_eq, Hp. reflexivity.
  - rewrite !lookup_insert_ne by congruence. exact Hp.
Qed.

Lemma bounded_effort_app (t1 t2 : list event) (l1 l2 : list string) :
  bounded_effort t1 l1 → bounded_effort t2 l2 → bounded_effort (t1 ++ t2) (l1 ++ l2).
Proof.
  intros [Hi1 Hs1] [Hi2 Hs2]. unfold bounded_effort.
  rewrite invocations_app, sleep_bases_app, !length_app. lia.
Qed.

Lemma bounded_effort_perm (t : list event) (l1 l2 : list string) :
  l1 ≡ₚ l2 → bounded_effort t l1 → bounded_effort t l2.
Proof. intros Hperm. unfold bounded_effort. rewrite (Permutation_length Hperm). auto. Qed.

Section Recording.
Variables (output_dir downloaded_file : string) (verbose : bool).
Variables (cookies_file cookies_from_browser : option string).

Let body := fetch_and_record output_dir downloaded_file verbose
                             cookies_file cookies_from_browser.

(** One reference, fetched and recorded: it goes to the ledger or to the
    list of failures. *)
Lemma body_summary (acc : list string * list failure) (url : string) (w : world) :
  ∃ successful failed w' t,
    body acc url w = (Ok (acc.1 ++ successful, acc.2 ++ failed), w')
    ∧ trace w' = trace w ++ t
    ∧ launches w' = launches w
    ∧ recorded downloaded_file successful failed t [url]
    ∧ (∀ p, (∀ i, spares p (launches w i)) →
            fs w' !! p = appended downloaded_file successful (fs w) !! p)
    ∧ bounded_effort t [url].
Proof.
  unfold body, fetch_and_record.
  destruct (download_video_summary url output_dir 3 verbose
              cookies_file cookies_from_browser w)
    as (r & w1 & t & Hm & Ht & Hl & Hev & Hinv & _ & (j & Hj & Hb) & Hfs).
  assert (bounded_effort t [url]) as Heffort.
  { change (Z.to_nat 3) with 3%nat in Hinv. split; [case_decide; cbn [length]; lia|].
    rewrite Hb, length_map, length_seq. cbn [length]. lia. }
  destruct (returns_download_video url output_dir 3 verbose
              cookies_file cookies_from_browser ltac:(lia) w) as (o & Ho & [r0 ->]).
  unfold run in Ho. rewrite Hm in Ho. injection Ho as ->.
  rewrite (bind_ok _ _ _ _ _ Hm).
  destruct (pass_events_views t Hev) as (Hf & Ha & Hw).
  destruct acc as [successful failed]. unfold record_result, recorded.
  case_bool_decide.
  - eexists [url], [], _, ([EFetch url] ++ t ++ [EAppend downloaded_file (url +:+ Py.LF)]).
    rewrite app_nil_r. split; [reflexivity|].
    split; [cbn; rewrite Ht, <- !app_assoc; reflexivity|].
    split; [exact Hl|]. split; [|split].
    + rewrite !fetches_in_app, !writes_in_app, !appends_in_app, Hf, Hw, Ha.
      repeat split; reflexivity.
    + intros p Hspared. cbn [fs emit with_fs appended foldl].
      destruct (decide (p = downloaded_file)) as [->|Hother].
      * rewrite !lookup_insert_eq, (Hfs _ Hspared). reflexivity.
      * rewrite !lookup_insert_ne by congruence. apply Hfs, Hspared.
    + destruct Heffort as [Hi Hs]. split.
      * rewrite !invocations_app, !length_app.
        change (length (invocations [EFetch url])) with O.
        change (length (invocations [EAppend downloaded_file (url +:+ Py.LF)])) with O.
        lia.
      * rewrite !sleep_bases_app, !length_app.
        change (length (sleep_bases [EFetch url])) with O.
        change (length (sleep_bases [EAppend downloaded_file (url +:+ Py.LF)])) with O.
        lia.
  - eexists [], [_], _, ([EFetch url] ++ t).
    rewrite app_nil_r. split; [reflexivity|]. split; [exact Ht|].
    split; [exact Hl|]. split; [|split].
    + rewrite !fetches_in_app, !writes_in_app, !appends_in_app, Hf, Hw, Ha.
      repeat split; reflexivity.
    + intros p Hspared. cbn. apply Hfs, Hspared.
    + exact Heffort.
Qed.

(** One worker: the references are fetched and recorded in list order. *)
Lemma fold_in_summary (l : list string) :
  ∀ (acc : list string * list failure) (w : world),
    ∃ successful failed w' t,
      fold_in l acc body w = (Ok (acc.1 ++ successful, acc.2 ++ failed), w')
      ∧ trace w' = trace w ++ t
      ∧ launches w' = launches w
      ∧ recorded downloaded_file successful failed t l
      ∧ (∀ p, (∀ i, spares p (launches w i)) →
              fs w' !! p = appended downloaded_file successful (fs w) !! p)
      ∧ bounded_effort t l.
Proof.
  induction l as [|url l IH]; intros acc w.
  - exists [], [], w, []. rewrite !app_nil_r. destruct acc.
    split; [reflexivity|]. split; [reflexivity|]. split; [reflexivity|].
    split; [apply recorded_nil|]. split; [reflexivity|]. split; cbn; lia.
  - cbn [fold_in].
    destruct (body_summary acc url w)
      as (s1 & f1 & w1 & t1 & Hbody & Ht1 & Hl1 & Hrec1 & Hfs1 & Heffort1).
    rewrite (bind_ok _ _ _ _ _ Hbody).
    destruct (IH (acc.1 ++ s1, acc.2 ++ f1) w1)
      as (s2 & f2 & w2 & t2 & Hloop & Ht2 & Hl2 & Hrec2 & Hfs2 & Heffort2).
    exists (s1 ++ s2), (f1 ++ f2), w2, (t1 ++ t2).
    cbn [fst snd] in Hloop. rewrite !app_assoc. split; [exact Hloop|].
    split; [rewrite Ht2, Ht1; reflexivity|].
    split; [rewrite Hl2; exact Hl1|].
    split; [apply (recorded_app _ _ _ _ _ _ _ [url] l Hrec1 Hrec2)|].
    split; [|apply (bounded_effort_app _ _ [url] l Heffort1 Heffort2)].
    intros p Hspared. rewrite appended_app, Hfs2 by (intros i; rewrite Hl1; apply Hspared).
    apply appended_lookup_ext, Hfs1, Hspared.
Qed.

(** Several workers: the references are fetched and recorded in the
    order the pool completes them, each once. *)
Lemma as_completed_summary (n : nat) :
  ∀ (pending : list string) (acc : list string * list failure) (w : world),
    length pending = n →
    ∃ successful failed w' t fetched,
      as_completed n pending acc body w
      = (Ok (acc.1 ++ successful, acc.2 ++ failed), w')
      ∧ trace w' = trace w ++ t
      ∧ launches w' = launches w
      ∧ fetched ≡ₚ pending
      ∧ recorded downloaded_file successful failed t fetched
      ∧ (∀ p, (∀ i, spares p (launches w i)) →
              fs w' !! p = appended downloaded_file successful (fs w) !! p)
      ∧ bounded_effort t fetched.
Proof.
  induction n as [|n IH]; intros pending acc w Hlen.
  - destruct pending; [|discriminate Hlen].
    exists [], [], w, [], []. rewrite !app_nil_r. destruct acc.
    split; [reflexivity|]. split; [reflexivity|]. split; [reflexivity|].
    split; [reflexivity|]. split; [apply recorded_nil|].
    split; [reflexivity|]. split; cbn; lia.
  - cbn [as_completed]. unfold bind at 1. unfold pick at 1.
    set (i := (picks w (picked w) `mod` length pending)%nat).
    assert (i < length pending)%nat as Hi
      by (apply Nat.mod_upper_bound; rewrite Hlen; discriminate).
    destruct (lookup_lt_is_Some_2 _ _ Hi) as [url Hurl]. rewrite Hurl.
    destruct (body_summary acc url (with_picked (S (picked w)) w))
      as (s1 & f1 & w1 & t1 & Hbody & Ht1 & Hl1 & Hrec1 & Hfs1 & Heffort1).
    rewrite (bind_ok _ _ _ _ _ Hbody).
    destruct (IH (delete i pending) (acc.1 ++ s1, acc.2 ++ f1) w1)
      as (s2 & f2 & w2 & t2 & fetched & Hloop & Ht2 & Hl2 & Hperm & Hrec2 & Hfs2
          & Heffort2).
    { rewrite length_delete by eauto. lia. }
    exists (s1 ++ s2), (f1 ++ f2), w2, (t1 ++ t2), ([url] ++ fetched).
    cbn [fst snd] in Hloop. rewrite !app_assoc. split; [exact Hloop|].
    split; [rewrite Ht2, Ht1; reflexivity|].
    split; [rewrite Hl2; exact Hl1|].
    split; [cbn; rewrite Hperm; symmetry; apply delete_Permutation, Hurl|].
    split; [apply (recorded_app _ _ _ _ _ _ _ [url] fetched Hrec1 Hrec2)|].
    split; [|apply (bounded_effort_app _ _ [url] fetched Heffort1 Heffort2)].
    intros p Hspared. rewrite appended_app, Hfs2 by (intros k; rewrite Hl1; apply Hspared).
    apply appended_lookup_ext, (Hfs1 p), Hspared.
Qed.
End Recording.

(** A batch with something to fetch and a worker to do it, as a whole. *)
Lemma download_batch_summary (urls : list string) (output_dir downloaded_file : string)
    (max_workers : Z) (verbose : bool) (cookies_file cookies_from_browser : option string)
    (w : world) :
  1 ≤ max_workers →
  filter (λ url, url ∉ ledger_of w downloaded_file) urls ≠ [] →
  ∃ successful failed w' t fetched,
    download_batch urls output_dir downloaded_file max_workers verbose
                   cookies_file cookies_from_browser w
    = (Ok tt,
       emit (EWrite (Py.replace "downloaded_" "failed_" downloaded_file)
                    (failed_lines failed))
            (with_fs (<[Py.replace "downloaded_" "failed_" downloaded_file
                        := failed_lines failed]> (fs w')) w'))
    ∧ trace w' = trace w ++ EBatch urls :: t
    ∧ launches w' = launches w
    ∧ fetched ≡ₚ filter (λ url, url ∉ ledger_of w downloaded_file) urls
    ∧ (max_workers = 1 →
       fetched = filter (λ url, url ∉ ledger_of w downloaded_file) urls)
    ∧ recorded downloaded_file successful failed t fetched
    ∧ (∀ p, (∀ i, spares p (launches w i)) →
            fs w' !! p = appended downloaded_file successful (fs w) !! p)
    ∧ bounded_effort t fetched.
Proof.
  intros Hw Hsome. unfold download_batch.
  rewrite (bind_ok _ _ w (emit (EBatch urls) w) tt) by reflexivity.
  rewrite (bind_ok _ _ _ _ _ (read_downloaded_urls_eq _ _)).
  change (ledger_of (emit (EBatch urls) w) downloaded_file)
    with (ledger_of w downloaded_file).
  destruct (filter _ urls) as [|u rest] eqn:Hfilter; [contradiction|].
  destruct (max_workers =? 1) eqn:Hone.
  - destruct (fold_in_summary output_dir downloaded_file verbose
                cookies_file cookies_from_browser (u :: rest) ([], [])
                (emit (EBatch urls) w))
      as (s & f & w' & t & Hloop & Ht & Hl & Hrec & Hfs & Heffort).
    rewrite (bind_ok _ _ _ _ _ Hloop).
    exists s, f, w', t, (u :: rest). split; [reflexivity|].
    split; [rewrite Ht; cbn; rewrite <- app_assoc; reflexivity|].
    split; [exact Hl|]. auto.
  - replace (max_workers <=? 0) with false by (symmetry; apply Z.leb_gt; lia).
    destruct (as_completed_summary output_dir downloaded_file verbose
                cookies_file cookies_from_browser (length (u :: rest)) (u :: rest)
                ([], []) (emit (EBatch urls) w) eq_refl)
      as (s & f & w' & t & fetched & Hloop & Ht & Hl & Hperm & Hrec & Hfs & Heffort).
    rewrite (bind_ok _ _ _ _ _ Hloop).
    exists s, f, w', t, fetched. split; [reflexivity|].
    split; [rewrite Ht; cbn; rewrite <- app_assoc; reflexivity|].
    split; [exact Hl|]. split; [exact Hperm|].
    split; [intros ->; discriminate Hone | auto].
Qed.

(** A batch that has references to fetch but no worker raises at once. *)
Lemma download_batch_no_worker (urls : list string) (output_dir downloaded_file : string)
    (max_workers : Z) (verbose : bool) (cookies_file cookies_from_browser : option string)
    (w : world) :
  max_workers ≤ 0 →
  filter (λ url, url ∉ ledger_of w downloaded_file) urls ≠ [] →
  download_batch urls output_dir downloaded_file max_workers verbose
                 cookies_file cookies_from_browser w
  = (Raise (ValueError "max_workers must be greater than 0"), emit (EBatch urls) w).
Proof.
  intros Hw Hsome. unfold download_batch.
  rewrite (bind_ok _ _ w (emit (EBatch urls) w) tt) by reflexivity.
  rewrite (bind_ok _ _ _ _ _ (read_downloaded_urls_eq _ _)).
  change (ledger_of (emit (EBatch urls) w) downloaded_file)
    with (ledger_of w downloaded_file).
  destruct (filter _ urls) as [|u rest]; [contradiction|].
  replace (max_workers =? 1) with false by (symmetry; apply Z.eqb_neq; lia).
  replace (max_workers <=? 0) with true by (symmetry; apply Z.leb_le; lia).
  reflexivity.
Qed.

(** X12.  Which references a batch fetches.  With at least one worker,
    every reference of the batch that is missing from the ledger is fetched
    exactly once and no other reference is fetched (the fetches started are
    a rearrangement of the filtered list); with exactly one worker they are
    fetched in list order.  With no worker nothing is fetched. *)
Theorem batch_fetches_each_once (urls : list string) (output_dir downloaded_file : string)
    (max_workers : Z) (verbose : bool) (cookies_file cookies_from_browser : option string)
    (w : world) :
  let m := download_batch urls output_dir downloaded_file max_workers verbose
                          cookies_file cookies_from_browser in
  let urls_to_download := filter (λ url, url ∉ ledger_of w downloaded_file) urls in
  (1 ≤ max_workers → fetches_in (effects m w) ≡ₚ urls_to_download)
  ∧ (max_workers = 1 → fetches_in (effects m w) = urls_to_download)
  ∧ (max_workers ≤ 0 → fetches_in (effects m w) = []).
Proof.
  intros m urls_to_download.
  destruct (decide (urls_to_download = [])) as [Hnone|Hsome].
  - pose proof (download_batch_filtered output_dir downloaded_file verbose
                  cookies_file cookies_from_browser urls max_workers w Hnone) as Hm.
    fold m in Hm. rewrite (effects_of _ _ _ _ [EBatch urls] Hm) by reflexivity.
    rewrite Hnone. cbn. auto.
  - split; [|split].
    + intros Hw.
      destruct (download_batch_summary urls output_dir downloaded_file max_workers
                  verbose cookies_file cookies_from_browser w Hw Hsome)
        as (s & f & w' & t & fetched & Hm & Ht & _ & Hperm & _ & (Hf & _) & _).
      fold m in Hm.
      rewrite (effects_of _ _ _ _ ([EBatch urls] ++ t ++ [EWrite _ (failed_lines f)]) Hm)
        by (cbn; rewrite Ht, <- !app_assoc; reflexivity).
      rewrite !fetches_in_app, Hf. cbn. rewrite app_nil_r. exact Hperm.
    + intros Hw.
      destruct (download_batch_summary urls output_dir downloaded_file max_workers
                  verbose cookies_file cookies_from_browser w ltac:(lia) Hsome)
        as (s & f & w' & t & fetched & Hm & Ht & _ & _ & Horder & (Hf & _) & _).
      fold m in Hm.
      rewrite (effects_of _ _ _ _ ([EBatch urls] ++ t ++ [EWrite _ (failed_lines f)]) Hm)
        by (cbn; rewrite Ht, <- !app_assoc; reflexivity).
      rewrite !fetches_in_app, Hf. cbn. rewrite app_nil_r. apply Horder, Hw.
    + intros Hw.
      pose proof (download_batch_no_worker urls output_dir downloaded_file max_workers
                    verbose cookies_file cookies_from_browser w Hw Hsome) as Hm.
      fold m in Hm. rewrite (effects_of _ _ _ _ [EBatch urls] Hm) by reflexivity.
      reflexivity.
Qed.

(** X13.  What becomes of the references a batch fetches.  With at least
    one worker the batch returns normally, and each fetched reference is
    recorded exactly once: the successes are appended to the ledger, one
    line each and nothing else, and the failures are what the failure file
    is overwritten with, in one write at the end (no write at all when
    there was nothing to fetch). *)
Theorem batch_outcomes (urls : list string) (output_dir downloaded_file : string)
    (max_workers : Z) (verbose : bool) (cookies_file cookies_from_browser : option string)
    (w : world) :
  1 ≤ max_workers →
  let m := download_batch urls output_dir downloaded_file max_workers verbose
                          cookies_file cookies_from_browser in
  let urls_to_download := filter (λ url, url ∉ ledger_of w downloaded_file) urls in
  let failed_file := Py.replace "downloaded_" "failed_" downloaded_file in
  ∃ successful failed,
    run m w = Ok tt
    ∧ successful ++ map failed_url failed ≡ₚ urls_to_download
    ∧ appends_in (effects m w)
      = map (λ url, (downloaded_file, url +:+ Py.LF)) successful
    ∧ writes_in (effects m w)
      = match urls_to_download with
        | [] => []
        | _ :: _ => [(failed_file, failed_lines failed)]
        end.
Proof.
  intros Hw m urls_to_download failed_file.
  destruct (decide (urls_to_download = [])) as [Hnone|Hsome].
  - pose proof (download_batch_filtered output_dir downloaded_file verbose
                  cookies_file cookies_from_browser urls max_workers w Hnone) as Hm.
    fold m in Hm. exists [], [].
    rewrite (effects_of _ _ _ _ [EBatch urls] Hm) by reflexivity.
    destruct (run_after _ _ _ _ Hm) as [-> _]. rewrite Hnone. cbn. auto.
  - destruct (download_batch_summary urls output_dir downloaded_file max_workers
                verbose cookies_file cookies_from_browser w Hw Hsome)
      as (s & f & w' & t & fetched & Hm & Ht & _ & Hperm & _ & (_ & Hwr & Ha & Hp) & _).
    fold m failed_file in Hm. exists s, f.
    rewrite (effects_of _ _ _ _
               ([EBatch urls] ++ t ++ [EWrite failed_file (failed_lines f)]) Hm)
      by (cbn; rewrite Ht, <- !app_assoc; reflexivity).
    destruct (run_after _ _ _ _ Hm) as [-> _].
    rewrite !appends_in_app, !writes_in_app, Ha, Hwr. cbn. rewrite app_nil_r.
    split; [reflexivity|]. split; [rewrite Hp; exact Hperm|]. split; [reflexivity|].
    fold urls_to_download. destruct urls_to_download; [contradiction | reflexivity].
Qed.

Lemma batch_fetches_each_once_witness :
  let w := recovering 3 {[ "downloaded_test_urls.txt" := "b" +:+ Py.LF ]} in
  (1 ≤ 4 ∧ fetches_in (effects (download_batch ["a"; "b"; "c"] "out" "downloaded_test_urls.txt"
                         4 false None None) w) ≡ₚ ["a"; "c"])
  ∧ fetches_in (effects (download_batch ["a"; "b"; "c"] "out" "downloaded_test_urls.txt"
                         1 false None None) w) = ["a"; "c"]
  ∧ (0 ≤ 0 ∧ fetches_in (effects (download_batch ["a"; "b"; "c"] "out" "downloaded_test_urls.txt"
                         0 false None None) w) = []).
Proof.
  cbv zeta.
  split; [split; [lia|]|split; [|split; [lia|]]].
  - destruct (batch_fetches_each_once ["a"; "b"; "c"] "out" "downloaded_test_urls.txt" 4
                false None None
                (recovering 3 {[ "downloaded_test_urls.txt" := "b" +:+ Py.LF ]}))
      as (Hsome & _ & _).
    exact (Hsome ltac:(lia)).
  - destruct (batch_fetches_each_once ["a"; "b"; "c"] "out" "downloaded_test_urls.txt" 1
                false None None
                (recovering 3 {[ "downloaded_test_urls.txt" := "b" +:+ Py.LF ]}))
      as (_ & Hone & _).
    exact (Hone eq_refl).
  - destruct (batch_fetches_each_once ["a"; "b"; "c"] "out" "downloaded_test_urls.txt" 0
                false None None
                (recovering 3 {[ "downloaded_test_urls.txt" := "b" +:+ Py.LF ]}))
      as (_ & _ & Hnone).
    exact (Hnone ltac:(lia)).
Defined.

Lemma batch_outcomes_witness :
  let w := recovering 3 {[ "downloaded_test_urls.txt" := "b" +:+ Py.LF ]} in
  let m := download_batch ["a"; "b"; "c"] "out" "downloaded_test_urls.txt" 4 false None None in
  1 ≤ 4
  ∧ ∃ successful failed,
      run m w = Ok tt
      ∧ successful ++ map failed_url failed ≡ₚ ["a"; "c"]
      ∧ appends_in (effects m w)
        = map (λ url, ("downloaded_test_urls.txt", url +:+ Py.LF)) successful
      ∧ writes_in (effects m w) = [("failed_test_urls.txt", failed_lines failed)].
Proof.
  cbv zeta. split; [lia|].
  exact (batch_outcomes ["a"; "b"; "c"] "out" "downloaded_test_urls.txt" 4 false None None
           (recovering 3 {[ "downloaded_test_urls.txt" := "b" +:+ Py.LF ]}) ltac:(lia)).
Defined.

(** ** The ledger and the failure file *)

Lemma length_append (s1 s2 : string) :
  String.length (s1 +:+ s2) = (String.length s1 + String.length s2)%nat.
Proof.
  induction s1 as [|a s1 IH]; [reflexivity|].
  rewrite append_cons. cbn [String.length]. rewrite IH. reflexivity.
Qed.

Lemma startswith_length (p s : string) :
  Py.startswith p s = true → (String.length p ≤ String.length s)%nat.
Proof.
  revert s. induction p as [|a p IH]; intros s Hstart; [cbn; lia|].
  destruct s as [|b s]; [discriminate Hstart|].
  cbn [Py.startswith] in Hstart. destruct (Ascii.eqb a b); [|discriminate Hstart].
  specialize (IH s Hstart). cbn [String.length]. lia.
Qed.

Lemma join_cons_head (new : string) (c : ascii) (piece : string) (pieces : list string) :
  Py.join new (String c piece :: pieces) = String c (Py.join new (piece :: pieces)).
Proof. destruct pieces; [reflexivity|]. cbn [Py.join]. apply append_cons. Qed.

(** The characters of a text are those of its pieces and of the
    separators between them: joining the pieces with [new] changes the
    length by the difference of the lengths of [new] and [sep] for each
    separator found. *)
Lemma join_split_length (sep new s : string) :
  Py.truthy sep = true →
  ∀ skip, ∃ piece pieces,
    Py.split_from sep skip s = piece :: pieces
    ∧ (String.length (Py.join new (piece :: pieces))
       + String.length sep * length pieces + Nat.min skip (String.length s)
       = String.length s + String.length new * length pieces)%nat.
Proof.
  intros Hsep. induction s as [|c s IH]; intros skip.
  - exists EmptyString, []. split; [reflexivity|]. cbn. lia.
  - cbn [Py.split_from]. destruct skip as [|k].
    + destruct (Py.startswith sep (String c s)) eqn:Hstart.
      * destruct (IH (Nat.pred (String.length sep))) as (p & ps & Hsplit & Hlen).
        exists EmptyString, (p :: ps). rewrite Hsplit. split; [reflexivity|].
        apply startswith_length in Hstart. cbn [String.length] in *.
        change (Py.join new (EmptyString :: p :: ps))
          with (EmptyString +:+ new +:+ Py.join new (p :: ps)).
        rewrite append_nil, length_append. cbn [length].
        destruct sep as [|a sep]; [discriminate Hsep|]. cbn [String.length Nat.pred] in *.
        nia.
      * destruct (IH O) as (p & ps & Hsplit & Hlen).
        exists (String c p), ps. rewrite Hsplit. split; [reflexivity|].
        rewrite join_cons_head. cbn [String.length] in *. lia.
    + destruct (IH k) as (p & ps & Hsplit & Hlen).
      exists p, ps. split; [exact Hsplit|]. cbn [String.length]. lia.
Qed.

(** Replacing a marker that occurs by a shorter one shortens the text. *)
Lemma replace_shorter (old new s : string) :
  (String.length new < String.length old)%nat →
  Py.contains old s = true →
  (String.length (Py.replace old new s) < String.length s)%nat.
Proof.
  intros Hshorter Hin.
  assert (Py.truthy old = true) as Hold by (destruct old; [cbn in Hshorter; lia | reflexivity]).
  destruct (split_from_contains old Hold s Hin) as (b & n & ps & Hsplit).
  destruct (join_split_length old new s Hold O) as (p' & ps' & Hsplit' & Hlen).
  rewrite Hsplit in Hsplit'. injection Hsplit' as <- <-.
  unfold Py.replace. destruct old; [discriminate Hold|]. rewrite Hsplit.
  cbn [length] in Hlen. nia.
Qed.

(** The failure file of a ledger whose name carries the marker is another
    file; the failure file of a ledger whose name lacks it is the ledger. *)
Lemma failed_file_differs (downloaded_file : string) :
  Py.contains "downloaded_" downloaded_file = true →
  Py.replace "downloaded_" "failed_" downloaded_file ≠ downloaded_file.
Proof.
  intros Hin Hsame.
  pose proof (replace_shorter "downloaded_" "failed_" downloaded_file
                ltac:(cbn; lia) Hin) as Hlen.
  rewrite Hsame in Hlen. lia.
Qed.

Lemma failed_file_same (downloaded_file : string) :
  Py.contains "downloaded_" downloaded_file = false →
  Py.replace "downloaded_" "failed_" downloaded_file = downloaded_file.
Proof.
  intros Hlacks. unfold Py.replace. rewrite (split_from_lacking _ _ Hlacks). reflexivity.
Qed.

(** X14.  A ledger whose name lacks the marker [downloaded_] is its own
    failure file.  A batch that has something to fetch then ends by
    overwriting the ledger with the list of failures: what the ledger held
    before, and what the batch had just appended to it, is gone. *)
Theorem unmarked_ledger_overwritten (urls : list string) (output_dir downloaded_file : string)
    (max_workers : Z) (verbose : bool) (cookies_file cookies_from_browser : option string)
    (w : world) :
  1 ≤ max_workers →
  Py.contains "downloaded_" downloaded_file = false →
  filter (λ url, url ∉ ledger_of w downloaded_file) urls ≠ [] →
  let m := download_batch urls output_dir downloaded_file max_workers verbose
                          cookies_file cookies_from_browser in
  ∃ successful failed,
    run m w = Ok tt
    ∧ successful ++ map failed_url failed
      ≡ₚ filter (λ url, url ∉ ledger_of w downloaded_file) urls
    ∧ fs (after m w) !! downloaded_file = Some (failed_lines failed).
Proof.
  intros Hw Hlacks Hsome m.
  destruct (download_batch_summary urls output_dir downloaded_file max_workers
              verbose cookies_file cookies_from_browser w Hw Hsome)
    as (s & f & w' & t & fetched & Hm & _ & _ & Hperm & _ & (_ & _ & _ & Hp) & _).
  fold m in Hm. rewrite (failed_file_same _ Hlacks) in Hm.
  destruct (run_after _ _ _ _ Hm) as [-> ->].
  exists s, f. split; [reflexivity|]. split; [rewrite Hp; exact Hperm|].
  cbn. apply lookup_insert_eq.
Qed.

Lemma unmarked_ledger_overwritten_witness :
  let w := recovering 0 {[ "done.txt" := "b" +:+ Py.LF ]} in
  let m := download_batch ["a"; "b"] "out" "done.txt" 1 false None None in
  ∃ successful failed,
    run m w = Ok tt
    ∧ successful ++ map failed_url failed ≡ₚ ["a"]
    ∧ fs (after m w) !! "done.txt" = Some (failed_lines failed).
Proof.
  cbv zeta.
  refine (unmarked_ledger_overwritten ["a"; "b"] "out" "done.txt" 1 false None None
            (recovering 0 {[ "done.txt" := "b" +:+ Py.LF ]}) _ _ _);
    [lia | reflexivity | vm_compute; discriminate].
Defined.

Lemma ledger_of_text (w : world) (p : string) :
  ledger_of w p = list_to_set (stripped_lines (text_at (fs w) p)).
Proof. unfold ledger_of, text_at. destruct (fs w !! p); reflexivity. Qed.

(** The ledger file after the references [l] were appended to it. *)
Lemma text_at_appended (path : string) (l : list string) :
  ∀ files : gmap string string,
    well_terminated (text_at files path) →
    Forall listed l →
    stripped_lines (text_at (appended path l files) path)
    = stripped_lines (text_at files path) ++ l
    ∧ well_terminated (text_at (appended path l files) path).
Proof.
  induction l as [|url l IH]; intros files Hterm Hl.
  - rewrite app_nil_r. auto.
  - apply Forall_cons in Hl as [(Hne & Hstrip & Hlf & Hcr) Hl].
    cbn [appended foldl].
    set (files' := <[path := default EmptyString (files !! path) +:+ url +:+ Py.LF]> files).
    assert (text_at files' path = text_at files path +:+ url +:+ Py.LF) as Htext
      by (unfold text_at, files'; rewrite lookup_insert_eq; reflexivity).
    destruct (IH files') as [Hlines Hterm'].
    + rewrite Htext. apply well_terminated_record.
    + exact Hl.
    + fold (appended path l files'). split; [|exact Hterm'].
      rewrite Hlines, Htext, (stripped_lines_record _ _ Hterm Hstrip Hne Hlf Hcr).
      rewrite <- app_assoc. reflexivity.
Qed.

(** A batch on a ledger with a marked name that the launched processes
    leave alone, as a whole. *)
Lemma download_batch_ledger (urls : list string) (output_dir downloaded_file : string)
    (max_workers : Z) (verbose : bool) (cookies_file cookies_from_browser : option string)
    (w : world) :
  1 ≤ max_workers →
  Py.contains "downloaded_" downloaded_file = true →
  (∀ i, spares downloaded_file (launches w i)) →
  let m := download_batch urls output_dir downloaded_file max_workers verbose
                          cookies_file cookies_from_browser in
  ∃ successful failed,
    run m w = Ok tt
    ∧ successful ++ map failed_url failed
      ≡ₚ filter (λ url, url ∉ ledger_of w downloaded_file) urls
    ∧ appends_in (effects m w)
      = map (λ url, (downloaded_file, url +:+ Py.LF)) successful
    ∧ fs (after m w) !! downloaded_file
      = appended downloaded_file successful (fs w) !! downloaded_file.
Proof.
  intros Hw Hmarked Hspared m.
  destruct (decide (filter (λ url, url ∉ ledger_of w downloaded_file) urls = []))
    as [Hnone|Hsome].
  - pose proof (download_batch_filtered output_dir downloaded_file verbose
                  cookies_file cookies_from_browser urls max_workers w Hnone) as Hm.
    fold m in Hm. exists [], [].
    rewrite (effects_of _ _ _ _ [EBatch urls] Hm) by reflexivity.
    destruct (run_after _ _ _ _ Hm) as [-> ->]. rewrite Hnone. cbn. auto.
  - destruct (download_batch_summary urls output_dir downloaded_file max_workers
                verbose cookies_file cookies_from_browser w Hw Hsome)
      as (s & f & w' & t & fetched & Hm & Ht & _ & Hperm & _ & (_ & Hwr & Ha & Hp) & Hfs
          & _).
    fold m in Hm. exists s, f.
    rewrite (effects_of _ _ _ _
               ([EBatch urls] ++ t ++ [EWrite (Py.replace "downloaded_" "failed_"
                                                 downloaded_file) (failed_lines f)]) Hm)
      by (cbn; rewrite Ht, <- !app_assoc; reflexivity).
    destruct (run_after _ _ _ _ Hm) as [-> ->].
    rewrite !appends_in_app, Ha. cbn [appends_in omap]. rewrite app_nil_r.
    split; [reflexivity|]. split; [rewrite Hp; exact Hperm|]. split; [reflexivity|].
    cbn [fs emit with_fs].
    rewrite lookup_insert_ne by (apply failed_file_differs, Hmarked).
    apply Hfs, Hspared.
Qed.

(** X15.  The ledger after a batch.  Let the name of the ledger carry the
    marker [downloaded_], let no launched process write the ledger, let
    the ledger be missing, empty or end with a line feed, and let the
    references of the batch be as [read_urls] gives them: not empty, no
    white space around them, no line feed and no carriage return in them
    (a carriage return would be read back as a line break).  Then, with at
    least one worker, the ledger after the batch holds what it held before
    and the references the batch recorded as fetched, and nothing else; the
    file still ends with a line feed. *)
Theorem ledger_after_batch (urls : list string) (output_dir downloaded_file : string)
    (max_workers : Z) (verbose : bool) (cookies_file cookies_from_browser : option string)
    (w : world) :
  1 ≤ max_workers →
  Py.contains "downloaded_" downloaded_file = true →
  (∀ i, spares downloaded_file (launches w i)) →
  well_terminated (text_at (fs w) downloaded_file) →
  Forall listed urls →
  let m := download_batch urls output_dir downloaded_file max_workers verbose
                          cookies_file cookies_from_browser in
  ∃ successful failed,
    run m w = Ok tt
    ∧ successful ++ map failed_url failed
      ≡ₚ filter (λ url, url ∉ ledger_of w downloaded_file) urls
    ∧ appends_in (effects m w)
      = map (λ url, (downloaded_file, url +:+ Py.LF)) successful
    ∧ ledger_of (after m w) downloaded_file
      = ledger_of w downloaded_file ∪ list_to_set successful
    ∧ well_terminated (text_at (fs (after m w)) downloaded_file).
Proof.
  intros Hw Hmarked Hspared Hterm Hurls m.
  destruct (download_batch_ledger urls output_dir downloaded_file max_workers verbose
              cookies_file cookies_from_browser w Hw Hmarked Hspared)
    as (s & f & Hrun & Hperm & Ha & Hfs).
  fold m in Hrun, Ha, Hfs. exists s, f.
  split; [exact Hrun|]. split; [exact Hperm|]. split; [exact Ha|].
  assert (Forall listed s) as Hs.
  { apply Forall_forall. intros u Hu.
    assert (u ∈ filter (λ url, url ∉ ledger_of w downloaded_file) urls) as Hin
      by (rewrite <- Hperm; apply elem_of_app; left; exact Hu).
    apply list_elem_of_filter in Hin as [_ Hin].
    exact (proj1 (Forall_forall _ _) Hurls u Hin). }
  destruct (text_at_appended downloaded_file s (fs w) Hterm Hs) as [Hlines Hterm'].
  assert (text_at (fs (after m w)) downloaded_file
          = text_at (appended downloaded_file s (fs w)) downloaded_file) as Htext
    by (unfold text_at; rewrite Hfs; reflexivity).
  rewrite !ledger_of_text, Htext, Hlines, list_to_set_app_L. auto.
Qed.

Lemma ledger_after_batch_witness :
  let w := recovering 3 {[ "downloaded_test_urls.txt" := "b" +:+ Py.LF ]} in
  let m := download_batch ["a"; "b"; "c"] "out" "downloaded_test_urls.txt" 4
                          false None None in
  ∃ successful failed,
    run m w = Ok tt
    ∧ successful ++ map failed_url failed ≡ₚ ["a"; "c"]
    ∧ appends_in (effects m w)
      = map (λ url, ("downloaded_test_urls.txt", url +:+ Py.LF)) successful
    ∧ ledger_of (after m w) "downloaded_test_urls.txt"
      = ledger_of w "downloaded_test_urls.txt" ∪ list_to_set successful
    ∧ well_terminated (text_at (fs (after m w)) "downloaded_test_urls.txt").
Proof.
  cbv zeta.
  refine (ledger_after_batch ["a"; "b"; "c"] "out" "downloaded_test_urls.txt" 4
            false None None
            (recovering 3 {[ "downloaded_test_urls.txt" := "b" +:+ Py.LF ]}) _ _ _ _ _).
  - lia.
  - reflexivity.
  - intros i. unfold recovering. cbn [launches].
    destruct (i <? 3)%nat; cbn; apply not_elem_of_nil.
  - right. reflexivity.
  - repeat constructor; discriminate.
Defined.

Lemma append_char_inj (c : ascii) (s1 s2 : string) :
  s1 +:+ String c EmptyString = s2 +:+ String c EmptyString → s1 = s2.
Proof.
  revert s2. induction s1 as [|a s1 IH]; intros [|b s2] Heq.
  - reflexivity.
  - rewrite append_nil, append_cons in Heq. injection Heq as _ Heq.
    destruct s2; discriminate Heq.
  - rewrite append_nil, append_cons in Heq. injection Heq as _ Heq.
    destruct s1; discriminate Heq.
  - rewrite !append_cons in Heq. injection Heq as -> Heq. rewrite (IH _ Heq). reflexivity.
Qed.

(** A batch fetches references of its list that the ledger lacks, and no
    others. *)
Lemma download_batch_fetches (urls : list string) (output_dir downloaded_file : string)
    (max_workers : Z) (verbose : bool) (cookies_file cookies_from_browser : option string)
    (w : world) (url : string) :
  url ∈ fetches_in (effects (download_batch urls output_dir downloaded_file max_workers
                                            verbose cookies_file cookies_from_browser) w) →
  url ∈ urls ∧ url ∉ ledger_of w downloaded_file.
Proof.
  set (m := download_batch urls output_dir downloaded_file max_workers verbose
                           cookies_file cookies_from_browser).
  destruct (decide (filter (λ url, url ∉ ledger_of w downloaded_file) urls = []))
    as [Hnone|Hsome].
  - pose proof (download_batch_filtered output_dir downloaded_file verbose
                  cookies_file cookies_from_browser urls max_workers w Hnone) as Hm.
    fold m in Hm. rewrite (effects_of _ _ _ _ [EBatch urls] Hm) by reflexivity.
    cbn. intros Hin. apply elem_of_nil in Hin. contradiction.
  - destruct (decide (1 ≤ max_workers)) as [Hw|Hw].
    + destruct (download_batch_summary urls output_dir downloaded_file max_workers
                  verbose cookies_file cookies_from_browser w Hw Hsome)
        as (s & f & w' & t & fetched & Hm & Ht & _ & Hperm & _ & (Hf & _) & _).
      fold m in Hm.
      rewrite (effects_of _ _ _ _
                 ([EBatch urls] ++ t ++ [EWrite (Py.replace "downloaded_" "failed_"
                                                   downloaded_file) (failed_lines f)]) Hm)
        by (cbn; rewrite Ht, <- !app_assoc; reflexivity).
      rewrite !fetches_in_app, Hf. cbn. rewrite app_nil_r, Hperm.
      intros Hin. apply list_elem_of_filter in Hin. tauto.
    + pose proof (download_batch_no_worker urls output_dir downloaded_file max_workers
                    verbose cookies_file cookies_from_browser w ltac:(lia) Hsome) as Hm.
      fold m in Hm. rewrite (effects_of _ _ _ _ [EBatch urls] Hm) by reflexivity.
      cbn. intros Hin. apply elem_of_nil in Hin. contradiction.
Qed.

(** X16.  Resuming.  Under the conditions of X15, a reference that a
    batch recorded as fetched is not fetched again by the batch that runs
    next on the same ledger, whatever its list, its output directory and
    its number of workers are. *)
Theorem recorded_not_refetched (urls urls' : list string)
    (output_dir output_dir' downloaded_file : string) (max_workers max_workers' : Z)
    (verbose verbose' : bool)
    (cookies_file cookies_from_browser cookies_file' cookies_from_browser' : option string)
    (w : world) :
  1 ≤ max_workers →
  Py.contains "downloaded_" downloaded_file = true →
  (∀ i, spares downloaded_file (launches w i)) →
  well_terminated (text_at (fs w) downloaded_file) →
  Forall listed urls →
  let m := download_batch urls output_dir downloaded_file max_workers verbose
                          cookies_file cookies_from_browser in
  let m' := download_batch urls' output_dir' downloaded_file max_workers' verbose'
                           cookies_file' cookies_from_browser' in
  ∀ url, (downloaded_file, url +:+ Py.LF) ∈ appends_in (effects m w) →
         url ∉ fetches_in (effects m' (after m w)).
Proof.
  intros Hw Hmarked Hspared Hterm Hurls m m' url Hrecorded Hfetched.
  destruct (download_batch_ledger urls output_dir downloaded_file max_workers verbose
              cookies_file cookies_from_browser w Hw Hmarked Hspared)
    as (s & f & Hrun & Hperm & Ha & Hfs).
  fold m in Hrun, Ha, Hfs.
  assert (Forall listed s) as Hs.
  { apply Forall_forall. intros u Hu.
    assert (u ∈ filter (λ url, url ∉ ledger_of w downloaded_file) urls) as Hin
      by (rewrite <- Hperm; apply elem_of_app; left; exact Hu).
    apply list_elem_of_filter in Hin as [_ Hin].
    exact (proj1 (Forall_forall _ _) Hurls u Hin). }
  destruct (text_at_appended downloaded_file s (fs w) Hterm Hs) as [Hlines _].
  assert (text_at (fs (after m w)) downloaded_file
          = text_at (appended downloaded_file s (fs w)) downloaded_file) as Htext
    by (unfold text_at; rewrite Hfs; reflexivity).
  apply download_batch_fetches in Hfetched as [_ Hmissing].
  apply Hmissing. rewrite ledger_of_text, Htext, Hlines, list_to_set_app_L.
  apply elem_of_union. right. apply elem_of_list_to_set.
  rewrite Ha in Hrecorded. apply list_elem_of_fmap in Hrecorded as (v & Heq & Hv).
  injection Heq as Heq. apply append_char_inj in Heq as ->. exact Hv.
Qed.

Lemma recorded_not_refetched_witness :
  let w := recovering 0 {[ "downloaded_test_urls.txt" := "b" +:+ Py.LF ]} in
  let m := download_batch ["a"; "b"] "out" "downloaded_test_urls.txt" 1
                          false None None in
  let m' := download_batch ["a"; "c"] "out" "downloaded_test_urls.txt" 4
                           false None None in
  ("downloaded_test_urls.txt", "a" +:+ Py.LF) ∈ appends_in (effects m w)
  ∧ "a" ∉ fetches_in (effects m' (after m w)).
Proof.
  cbv zeta.
  assert (("downloaded_test_urls.txt", "a" +:+ Py.LF)
          ∈ appends_in (effects (download_batch ["a"; "b"] "out" "downloaded_test_urls.txt"
                                   1 false None None)
                          (recovering 0 {[ "downloaded_test_urls.txt" := "b" +:+ Py.LF ]})))
    as Hrecorded.
  { replace (appends_in _) with [("downloaded_test_urls.txt", "a" +:+ Py.LF)]
      by (vm_compute; reflexivity).
    apply elem_of_cons. left. reflexivity. }
  split; [exact Hrecorded|].
  refine (recorded_not_refetched ["a"; "b"] ["a"; "c"] "out" "out"
            "downloaded_test_urls.txt" 1 4 false false None None None None
            (recovering 0 {[ "downloaded_test_urls.txt" := "b" +:+ Py.LF ]})
            _ _ _ _ _ "a" Hrecorded).
  - lia.
  - reflexivity.
  - intros i. cbn. apply not_elem_of_nil.
  - right. reflexivity.
  - repeat constructor; discriminate.
Defined.

(** ** More on the Run Driver *)

Lemma contains_startswith (p s : string) :
  Py.startswith p s = true → Py.contains p s = true.
Proof. intros H. destruct s; cbn [Py.contains]; rewrite H; reflexivity. Qed.

(** The ledger the driver keeps has a marked name. *)
Lemma driver_ledger_marked (file_base : string) :
  Py.contains "downloaded_" ("downloaded_" +:+ file_base +:+ "_urls.txt") = true.
Proof. apply contains_startswith, startswith_app. Qed.

(** A batch never fetches a reference more often than its list has it,
    whatever the environment does. *)
Lemma download_batch_fetches_within (urls : list string) (output_dir downloaded_file : string)
    (max_workers : Z) (verbose : bool) (cookies_file cookies_from_browser : option string)
    (w : world) :
  fetches_in (effects (download_batch urls output_dir downloaded_file max_workers
                                      verbose cookies_file cookies_from_browser) w)
  ⊆+ urls.
Proof.
  set (m := download_batch urls output_dir downloaded_file max_workers verbose
                           cookies_file cookies_from_browser).
  destruct (decide (filter (λ url, url ∉ ledger_of w downloaded_file) urls = []))
    as [Hnone|Hsome].
  - pose proof (download_batch_filtered output_dir downloaded_file verbose
                  cookies_file cookies_from_browser urls max_workers w Hnone) as Hm.
    fold m in Hm. rewrite (effects_of _ _ _ _ [EBatch urls] Hm) by reflexivity.
    apply submseteq_nil_l.
  - destruct (decide (1 ≤ max_workers)) as [Hw|Hw].
    + destruct (download_batch_summary urls output_dir downloaded_file max_workers
                  verbose cookies_file cookies_from_browser w Hw Hsome)
        as (s & f & w' & t & fetched & Hm & Ht & _ & Hperm & _ & (Hf & _) & _).
      fold m in Hm.
      rewrite (effects_of _ _ _ _
                 ([EBatch urls] ++ t ++ [EWrite (Py.replace "downloaded_" "failed_"
                                                   downloaded_file) (failed_lines f)]) Hm)
        by (cbn; rewrite Ht, <- !app_assoc; reflexivity).
      rewrite !fetches_in_app, Hf. cbn. rewrite app_nil_r, Hperm.
      apply sublist_submseteq, sublist_filter.
    + pose proof (download_batch_no_worker urls output_dir downloaded_file max_workers
                    verbose cookies_file cookies_from_browser w ltac:(lia) Hsome) as Hm.
      fold m in Hm. rewrite (effects_of _ _ _ _ [EBatch urls] Hm) by reflexivity.
      apply submseteq_nil_l.
Qed.

(** A batch on a ledger with a marked name that the launched processes
    leave alone: the run, the fetches and the ledger it leaves. *)
Lemma download_batch_run (urls : list string) (output_dir downloaded_file : string)
    (max_workers : Z) (verbose : bool) (cookies_file cookies_from_browser : option string)
    (w : world) :
  1 ≤ max_workers →
  Py.contains "downloaded_" downloaded_file = true →
  (∀ i, spares downloaded_file (launches w i)) →
  well_terminated (text_at (fs w) downloaded_file) →
  Forall listed urls →
  ∃ successful w' t,
    download_batch urls output_dir downloaded_file max_workers verbose
                   cookies_file cookies_from_browser w = (Ok tt, w')
    ∧ trace w' = trace w ++ t
    ∧ launches w' = launches w
    ∧ fetches_in t ≡ₚ filter (λ url, url ∉ ledger_of w downloaded_file) urls
    ∧ (max_workers = 1 →
       fetches_in t = filter (λ url, url ∉ ledger_of w downloaded_file) urls)
    ∧ appends_in t = map (λ url, (downloaded_file, url +:+ Py.LF)) successful
    ∧ successful ⊆ urls
    ∧ ledger_of w' downloaded_file = ledger_of w downloaded_file ∪ list_to_set successful
    ∧ well_terminated (text_at (fs w') downloaded_file).
Proof.
  intros Hw Hmarked Hspared Hterm Hurls.
  destruct (decide (filter (λ url, url ∉ ledger_of w downloaded_file) urls = []))
    as [Hnone|Hsome].
  - pose proof (download_batch_filtered output_dir downloaded_file verbose
                  cookies_file cookies_from_browser urls max_workers w Hnone) as Hm.
    exists [], (emit (EBatch urls) w), [EBatch urls]. rewrite Hnone.
    split; [exact Hm|]. split; [reflexivity|]. split; [reflexivity|].
    split; [reflexivity|]. split; [reflexivity|]. split; [reflexivity|].
    split; [apply list_subseteq_nil|]. split; [|exact Hterm].
    cbn [list_to_set]. rewrite (right_id_L ∅ (∪)). reflexivity.
  - destruct (download_batch_summary urls output_dir downloaded_file max_workers
                verbose cookies_file cookies_from_browser w Hw Hsome)
      as (s & f & w' & t & fetched & Hm & Ht & Hl & Hperm & Horder
          & (Hf & Hwr & Ha & Hp) & Hfs & _).
    set (failed_file := Py.replace "downloaded_" "failed_" downloaded_file) in *.
    exists s, (emit (EWrite failed_file (failed_lines f))
                 (with_fs (<[failed_file := failed_lines f]> (fs w')) w')),
      ([EBatch urls] ++ t ++ [EWrite failed_file (failed_lines f)]).
    assert (s ⊆ urls) as Hsub.
    { intros u Hu.
      assert (u ∈ filter (λ url, url ∉ ledger_of w downloaded_file) urls) as Hin
        by (rewrite <- Hperm, <- Hp; apply elem_of_app; left; exact Hu).
      apply list_elem_of_filter in Hin as [_ Hin]. exact Hin. }
    assert (Forall listed s) as Hs.
    { apply Forall_forall. intros u Hu.
      exact (proj1 (Forall_forall _ _) Hurls u (Hsub u Hu)). }
    destruct (text_at_appended downloaded_file s (fs w) Hterm Hs) as [Hlines Hterm'].
    assert (text_at (<[failed_file := failed_lines f]> (fs w')) downloaded_file
            = text_at (appended downloaded_file s (fs w)) downloaded_file) as Htext.
    { unfold text_at.
      rewrite lookup_insert_ne by (apply failed_file_differs, Hmarked).
      rewrite (Hfs _ Hspared). reflexivity. }
    split; [exact Hm|].
    split; [cbn; rewrite Ht, <- !app_assoc; reflexivity|].
    split; [exact Hl|].
    rewrite !fetches_in_app, !appends_in_app, Hf, Ha. cbn [fetches_in appends_in omap app].
    rewrite !app_nil_r.
    split; [exact Hperm|]. split; [exact Horder|]. split; [reflexivity|].
    split; [exact Hsub|].
    rewrite !ledger_of_text. cbn [fs emit with_fs].
    rewrite Htext, Hlines, list_to_set_app_L. auto.
Qed.

Lemma filter_keeps_all {A} (P : A → Prop) `{∀ x, Decision (P x)} (l : list A) :
  (∀ x, x ∈ l → P x) → filter P l = l.
Proof.
  induction l as [|x l IH]; intros Hall; [reflexivity|].
  rewrite filter_cons_True by (apply Hall, elem_of_cons; left; reflexivity).
  rewrite IH; [reflexivity|]. intros y Hy. apply Hall, elem_of_cons. right. exact Hy.
Qed.

Section DriverFetches.
Variables (output_dir downloaded_file : string) (max_workers : Z) (verbose : bool).
Variables (cookies_file cookies_from_browser : option string).

Let step := process_chunk output_dir downloaded_file max_workers verbose
                          cookies_file cookies_from_browser.

(** One slice never has a reference fetched more often than it holds
    it. *)
Lemma step_fetches_within (chunk : list string) (w : world) :
  fetches_in (effects (step chunk) w) ⊆+ chunk.
Proof.
  pose proof (download_batch_fetches_within chunk output_dir downloaded_file max_workers
                verbose cookies_file cookies_from_browser w) as Hwithin.
  unfold step, process_chunk.
  set (batch := download_batch chunk output_dir downloaded_file max_workers verbose
                               cookies_file cookies_from_browser) in *.
  rewrite effects_bind_eq.
  - rewrite fetches_in_app.
    replace (fetches_in match batch w with
                        | (Ok _, w') => _
                        | (Raise _, _) => []
                        end) with (@nil string);
      [rewrite app_nil_r; exact Hwithin|].
    destruct (batch w) as [[[]|e] w1]; [|reflexivity].
    erewrite effects_app; [|cbn; reflexivity]. reflexivity.
  - unfold batch, download_batch. apply emits_bind; [apply emits_mark; exact I|].
    intros _. apply emits_download_batch. intros; exact I.
  - intros _. apply emits_bind.
    + unfold random_randint. apply emits_bind; [apply emits_draw|].
      intros r. apply emits_ret.
    + intros s. apply emits_bind; [apply emits_mark; exact I|].
      intros _. apply emits_ret.
Qed.

Lemma loop_fetches_within (chunks : list (list string)) :
  ∀ w, fetches_in (effects (for_in chunks step) w) ⊆+ concat chunks.
Proof.
  induction chunks as [|c chunks IH]; intros w.
  - cbn [for_in]. rewrite effects_ret. reflexivity.
  - cbn [for_in concat]. rewrite effects_bind_eq.
    2:{ apply emits_step. }
    2:{ intros [v|]; [apply emits_ret|]. apply emits_for_in. intros. apply emits_step. }
    rewrite fetches_in_app. apply submseteq_app; [apply step_fetches_within|].
    fold step. destruct (step c w) as [[[v|]|e] w'].
    + rewrite effects_ret. apply submseteq_nil_l.
    + apply IH.
    + apply submseteq_nil_l.
Qed.

Hypothesis workers : 1 ≤ max_workers.
Hypothesis marked : Py.contains "downloaded_" downloaded_file = true.

(** The loop over slices that hold no reference twice and none that the
    ledger has, on a ledger that the launched processes leave alone: every
    reference is fetched, and the ledger gains what was recorded. *)
Lemma loop_run (chunks : list (list string)) :
  ∀ w,
    (∀ i, spares downloaded_file (launches w i)) →
    well_terminated (text_at (fs w) downloaded_file) →
    Forall listed (concat chunks) →
    NoDup (concat chunks) →
    (∀ url, url ∈ concat chunks → url ∉ ledger_of w downloaded_file) →
    ∃ successful w' t,
      for_in chunks step w = (Ok None, w')
      ∧ trace w' = trace w ++ t
      ∧ fetches_in t ≡ₚ concat chunks
      ∧ (max_workers = 1 → fetches_in t = concat chunks)
      ∧ appends_in t = map (λ url, (downloaded_file, url +:+ Py.LF)) successful
      ∧ successful ⊆ concat chunks
      ∧ ledger_of w' downloaded_file
        = ledger_of w downloaded_file ∪ list_to_set successful
      ∧ well_terminated (text_at (fs w') downloaded_file).
Proof.
  induction chunks as [|c chunks IH]; intros w Hspared Hterm Hlisted Hnodup Hmissing.
  - exists [], w, []. cbn [for_in concat list_to_set]. rewrite app_nil_r.
    rewrite (right_id_L ∅ (∪)).
    split; [reflexivity|]. split; [reflexivity|]. split; [reflexivity|].
    split; [reflexivity|]. split; [reflexivity|]. split; [apply list_subseteq_nil|].
    split; [reflexivity | exact Hterm].
  - cbn [concat] in *. apply Forall_app in Hlisted as [Hc Hrest].
    apply NoDup_app in Hnodup as (_ & Hapart & Hnodup).
    destruct (download_batch_run c output_dir downloaded_file max_workers verbose
                cookies_file cookies_from_browser w workers marked Hspared Hterm Hc)
      as (s1 & w1 & t1 & Hbatch & Ht1 & Hl1 & Hperm1 & Horder1 & Ha1 & Hsub1
          & Hledger1 & Hterm1).
    assert (filter (λ url, url ∉ ledger_of w downloaded_file) c = c) as Hall.
    { apply filter_keeps_all. intros u Hu. apply Hmissing, elem_of_app. left. exact Hu. }
    rewrite Hall in Hperm1, Horder1.
    set (pause := ESleep (Seconds (5 + Z.of_N (draws w1 (drawn w1)) mod (60 - 5 + 1)))).
    set (w2 := emit pause (with_drawn (S (drawn w1)) w1)).
    assert (step c w = (Ok None, w2)) as Hstep.
    { unfold step, process_chunk. rewrite (bind_ok _ _ _ _ _ Hbatch). reflexivity. }
    destruct (IH w2) as (s2 & w' & t2 & Hloop & Ht2 & Hperm2 & Horder2 & Ha2 & Hsub2
                         & Hledger2 & Hterm2).
    + intros i. cbn. rewrite Hl1. apply Hspared.
    + exact Hterm1.
    + exact Hrest.
    + exact Hnodup.
    + intros u Hu. change (ledger_of w2 downloaded_file) with (ledger_of w1 downloaded_file).
      rewrite Hledger1. intros Hin. apply elem_of_union in Hin as [Hin|Hin].
      * apply (Hmissing u); [apply elem_of_app; right; exact Hu | exact Hin].
      * apply elem_of_list_to_set in Hin. apply (Hapart u (Hsub1 u Hin) Hu).
    + exists (s1 ++ s2), w', (t1 ++ [pause] ++ t2). cbn [for_in].
      rewrite (bind_ok _ _ _ _ _ Hstep).
      split; [exact Hloop|].
      split; [rewrite Ht2; cbn; rewrite Ht1, <- !app_assoc; reflexivity|].
      rewrite !fetches_in_app, !appends_in_app, Ha1, Ha2, map_app.
      cbn [fetches_in appends_in omap pause app].
      split; [rewrite Hperm1, Hperm2; reflexivity|].
      split; [intros Hone; rewrite (Horder1 Hone), (Horder2 Hone); reflexivity|].
      split; [reflexivity|].
      split.
      { intros u Hu. apply elem_of_app in Hu as [Hu|Hu]; apply elem_of_app;
          [left; apply Hsub1, Hu | right; apply Hsub2, Hu]. }
      split; [|exact Hterm2].
      rewrite Hledger2. change (ledger_of w2 downloaded_file)
        with (ledger_of w1 downloaded_file).
      rewrite Hledger1, list_to_set_app_L, (assoc_L (∪)). reflexivity.
Qed.
End DriverFetches.

Lemma stripped_lines_listed (text : string) : Forall listed (stripped_lines text).
Proof.
  apply Forall_forall. intros url Hurl.
  apply elem_of_stripped_lines in Hurl as (line & Hline & -> & Hne).
  split; [exact Hne|]. split; [apply strip_idem|].
  split; [apply (strip_line_no_lf text) | apply (strip_line_no_cr text)]; exact Hline.
Qed.

Section DriverWhole.
Variables (url_file output_dir : string) (batch_size max_workers : Z) (verbose : bool).
Variables (cookies_file cookies_from_browser : option string).
Variables (w : world) (file_base text : string).
Hypothesis base_name : file_base_of url_file = Ok file_base.
Hypothesis readable : fs w !! url_file = Some text.
Hypothesis positive : 1 ≤ batch_size.

Let downloaded_file := "downloaded_" +:+ file_base +:+ "_urls.txt".
Let remaining :=
  filter (λ url, url ∉ ledger_of w downloaded_file) (stripped_lines text).
Let step := process_chunk output_dir downloaded_file max_workers verbose
                          cookies_file cookies_from_browser.
Let m := batch_download_from_file url_file output_dir batch_size max_workers verbose
                                  cookies_file cookies_from_browser.

(** The driver is its loop over the slices. *)
Lemma driver_loop (r : res (option unit)) (w' : world) :
  for_in (batches remaining batch_size) step w = (r, w') →
  m w = (match r with Ok _ => Ok tt | Raise e => Raise e end, w').
Proof.
  intros Hloop. unfold m.
  rewrite (driver_unfold url_file output_dir batch_size max_workers verbose
             cookies_file cookies_from_browser w file_base text
             base_name readable positive).
  fold downloaded_file. fold remaining. fold step.
  unfold bind. rewrite Hloop. destruct r; reflexivity.
Qed.

Lemma driver_loop_effects :
  effects m w = effects (for_in (batches remaining batch_size) step) w.
Proof.
  destruct (for_in (batches remaining batch_size) step w) as [r w'] eqn:Hloop.
  unfold effects, after. rewrite (driver_loop r w' Hloop), Hloop. reflexivity.
Qed.

Lemma driver_fetches_within : fetches_in (effects m w) ⊆+ remaining.
Proof.
  rewrite driver_loop_effects.
  rewrite <- (concat_batches remaining batch_size positive) at 2.
  apply loop_fetches_within.
Qed.

Lemma driver_run :
  1 ≤ max_workers →
  (∀ i, spares downloaded_file (launches w i)) →
  well_terminated (text_at (fs w) downloaded_file) →
  NoDup (stripped_lines text) →
  ∃ successful,
    run m w = Ok tt
    ∧ fetches_in (effects m w) ≡ₚ remaining
    ∧ (max_workers = 1 → fetches_in (effects m w) = remaining)
    ∧ appends_in (effects m w)
      = map (λ url, (downloaded_file, url +:+ Py.LF)) successful
    ∧ successful ⊆ remaining
    ∧ ledger_of (after m w) downloaded_file
      = ledger_of w downloaded_file ∪ list_to_set successful
    ∧ well_terminated (text_at (fs (after m w)) downloaded_file).
Proof.
  intros Hw Hspared Hterm Hnodup.
  pose proof (concat_batches remaining batch_size positive) as Hconcat.
  destruct (loop_run output_dir downloaded_file max_workers verbose
              cookies_file cookies_from_browser Hw (driver_ledger_marked file_base)
              (batches remaining batch_size) w Hspared Hterm)
    as (s & w' & t & Hloop & Ht & Hperm & Horder & Ha & Hsub & Hledger & Hterm').
  - rewrite Hconcat. apply Forall_forall. intros url Hurl. unfold remaining in Hurl.
    apply list_elem_of_filter in Hurl as [_ Hurl].
    exact (proj1 (Forall_forall _ _) (stripped_lines_listed text) url Hurl).
  - rewrite Hconcat. unfold remaining. apply NoDup_filter, Hnodup.
  - rewrite Hconcat. intros url Hurl. unfold remaining in Hurl.
    apply list_elem_of_filter in Hurl as [Hmissing _]. exact Hmissing.
  - fold step in Hloop. rewrite Hconcat in *.
    pose proof (driver_loop (Ok None) w' Hloop) as Hm. cbn beta iota in Hm.
    destruct (run_after _ _ _ _ Hm) as [-> ->].
    rewrite (effects_of _ _ _ _ _ Hm Ht).
    exists s. auto 10.
Qed.

Lemma nothing_left_run : remaining = [] → m w = (Ok tt, w).
Proof.
  intros Hnone.
  apply (driver_loop (Ok None) w). rewrite Hnone.
  pose proof (length_batches [] batch_size positive) as Hlen.
  cbn [length] in Hlen. rewrite Z.div_small in Hlen by lia.
  destruct (batches [] batch_size); [reflexivity | discriminate Hlen].
Qed.

Lemma no_worker_run :
  max_workers ≤ 0 → remaining ≠ [] →
  m w = (Raise (ValueError "max_workers must be greater than 0"),
         emit (EBatch (take (Z.to_nat batch_size) remaining)) w).
Proof.
  intros Hw Hsome.
  pose proof (concat_batches remaining batch_size positive) as Hconcat.
  pose proof (batches_eq remaining batch_size positive) as Hchunks.
  destruct (Z.to_nat ((Z.of_nat (length remaining) + batch_size - 1) / batch_size))
    as [|n] eqn:Htotal.
  { rewrite Hchunks in Hconcat. cbn in Hconcat. congruence. }
  cbn [seq map] in Hchunks. unfold nth_chunk at 1 in Hchunks. cbn [Nat.mul drop] in Hchunks.
  set (chunk := take (Z.to_nat batch_size) remaining) in *.
  assert (chunk ≠ []) as Hchunk.
  { unfold chunk. destruct remaining; [contradiction|].
    destruct (Z.to_nat batch_size) eqn:Hsize; [lia | discriminate]. }
  assert (filter (λ url, url ∉ ledger_of w downloaded_file) chunk = chunk) as Hall.
  { apply filter_keeps_all. intros url Hurl.
    assert (url ∈ remaining) as Hin
      by (apply (subseteq_take (Z.to_nat batch_size)); exact Hurl).
    unfold remaining in Hin. apply list_elem_of_filter in Hin as [Hmissing _].
    exact Hmissing. }
  apply (driver_loop (Raise _) _). rewrite Hchunks. cbn [for_in].
  apply bind_raise. unfold step, process_chunk. apply bind_raise.
  apply download_batch_no_worker; [exact Hw | rewrite Hall; exact Hchunk].
Qed.
End DriverWhole.

(** X17.  The driver fetches within its list.  With a readable item list
    and a chunk size of one at least, whatever the environment does and
    whatever the number of workers is, a run fetches no reference more
    often than the list has it among those the ledger lacked at the start;
    so every reference it fetches is in the list and was missing from the
    ledger. *)
Theorem driver_fetches_within_list (url_file output_dir : string)
    (batch_size max_workers : Z) (verbose : bool)
    (cookies_file cookies_from_browser : option string)
    (w : world) (file_base text : string) :
  file_base_of url_file = Ok file_base →
  fs w !! url_file = Some text →
  1 ≤ batch_size →
  let m := batch_download_from_file url_file output_dir batch_size max_workers verbose
                                    cookies_file cookies_from_browser in
  let ledger := ledger_of w ("downloaded_" +:+ file_base +:+ "_urls.txt") in
  let remaining := filter (λ url, url ∉ ledger) (stripped_lines text) in
  fetches_in (effects m w) ⊆+ remaining
  ∧ ∀ url, url ∈ fetches_in (effects m w) → url ∈ stripped_lines text ∧ url ∉ ledger.
Proof.
  intros Hbase Hfile Hsize m ledger remaining.
  pose proof (driver_fetches_within url_file output_dir batch_size max_workers verbose
                cookies_file cookies_from_browser w file_base text Hbase Hfile Hsize)
    as Hwithin.
  fold m ledger remaining in Hwithin. split; [exact Hwithin|].
  intros url Hurl.
  assert (url ∈ remaining) as Hin by (apply (elem_of_submseteq _ _ _ Hurl Hwithin)).
  apply list_elem_of_filter in Hin. tauto.
Qed.

Lemma driver_fetches_within_list_witness :
  let m := batch_download_from_file "lists/test_urls.txt" "out" 2 0 false None None in
  fetches_in (effects m resumed) ⊆+ ["a"; "c"]
  ∧ ∀ url, url ∈ fetches_in (effects m resumed) →
           url ∈ ["a"; "b"; "c"] ∧ url ∉ ledger_of resumed "downloaded_test_urls_urls.txt".
Proof.
  cbv zeta.
  refine (driver_fetches_within_list "lists/test_urls.txt" "out" 2 0 false None None
            resumed "test_urls" three_urls _ _ _);
    [reflexivity | reflexivity | lia].
Defined.

(** X18.  A run fetches all that is left.  Let the item list be readable
    and hold no reference twice, let the chunk size and the number of
    workers be one at least, and let the ledger be missing, empty or end
    with a line feed and be left alone by the launched processes.  Then the
    run returns normally and every reference of the list that the ledger
    lacked at the start is fetched exactly once; with one worker the
    fetches are in list order. *)
Theorem driver_fetches_all (url_file output_dir : string)
    (batch_size max_workers : Z) (verbose : bool)
    (cookies_file cookies_from_browser : option string)
    (w : world) (file_base text : string) :
  file_base_of url_file = Ok file_base →
  fs w !! url_file = Some text →
  1 ≤ batch_size →
  1 ≤ max_workers →
  let downloaded_file := "downloaded_" +:+ file_base +:+ "_urls.txt" in
  (∀ i, spares downloaded_file (launches w i)) →
  well_terminated (text_at (fs w) downloaded_file) →
  NoDup (stripped_lines text) →
  let m := batch_download_from_file url_file output_dir batch_size max_workers verbose
                                    cookies_file cookies_from_browser in
  let remaining :=
    filter (λ url, url ∉ ledger_of w downloaded_file) (stripped_lines text) in
  run m w = Ok tt
  ∧ fetches_in (effects m w) ≡ₚ remaining
  ∧ (max_workers = 1 → fetches_in (effects m w) = remaining).
Proof.
  intros Hbase Hfile Hsize Hw downloaded_file Hspared Hterm Hnodup m remaining.
  destruct (driver_run url_file output_dir batch_size max_workers verbose
              cookies_file cookies_from_browser w file_base text Hbase Hfile Hsize
              Hw Hspared Hterm Hnodup)
    as (s & Hrun & Hperm & Horder & _).
  auto.
Qed.

Lemma driver_fetches_all_witness :
  let m := batch_download_from_file "lists/test_urls.txt" "out" 1 1 false None None in
  run m resumed = Ok tt
  ∧ fetches_in (effects m resumed) = ["a"; "c"].
Proof.
  cbv zeta.
  destruct (driver_fetches_all "lists/test_urls.txt" "out" 1 1 false None None
              resumed "test_urls" three_urls)
    as (Hrun & _ & Horder).
  - reflexivity.
  - reflexivity.
  - lia.
  - lia.
  - intros i. cbn. apply not_elem_of_nil.
  - right. reflexivity.
  - apply (bool_decide_unpack (NoDup (stripped_lines three_urls))). vm_compute. exact I.
  - split; [exact Hrun | exact (Horder eq_refl)].
Defined.

(** X19.  The ledger after a run.  Under the conditions of X18 the ledger
    after the run holds what it held before and the references the run
    recorded as fetched, which are among those that were left, and nothing
    else; the file still ends with a line feed. *)
Theorem driver_ledger_after_run (url_file output_dir : string)
    (batch_size max_workers : Z) (verbose : bool)
    (cookies_file cookies_from_browser : option string)
    (w : world) (file_base text : string) :
  file_base_of url_file = Ok file_base →
  fs w !! url_file = Some text →
  1 ≤ batch_size →
  1 ≤ max_workers →
  let downloaded_file := "downloaded_" +:+ file_base +:+ "_urls.txt" in
  (∀ i, spares downloaded_file (launches w i)) →
  well_terminated (text_at (fs w) downloaded_file) →
  NoDup (stripped_lines text) →
  let m := batch_download_from_file url_file output_dir batch_size max_workers verbose
                                    cookies_file cookies_from_browser in
  let remaining :=
    filter (λ url, url ∉ ledger_of w downloaded_file) (stripped_lines text) in
  ∃ successful,
    appends_in (effects m w) = map (λ url, (downloaded_file, url +:+ Py.LF)) successful
    ∧ successful ⊆ remaining
    ∧ ledger_of (after m w) downloaded_file
      = ledger_of w downloaded_file ∪ list_to_set successful
    ∧ well_terminated (text_at (fs (after m w)) downloaded_file).
Proof.
  intros Hbase Hfile Hsize Hw downloaded_file Hspared Hterm Hnodup m remaining.
  destruct (driver_run url_file output_dir batch_size max_workers verbose
              cookies_file cookies_from_browser w file_base text Hbase Hfile Hsize
              Hw Hspared Hterm Hnodup)
    as (s & _ & _ & _ & Ha & Hsub & Hledger & Hterm').
  exists s. auto.
Qed.

Lemma driver_ledger_after_run_witness :
  let w := recovering 4 listed_store in
  let m := batch_download_from_file "lists/test_urls.txt" "out" 2 4 false None None in
  ∃ successful,
    appends_in (effects m w)
    = map (λ url, ("downloaded_test_urls_urls.txt", url +:+ Py.LF)) successful
    ∧ successful ⊆ ["a"; "c"]
    ∧ ledger_of (after m w) "downloaded_test_urls_urls.txt"
      = ledger_of w "downloaded_test_urls_urls.txt" ∪ list_to_set successful
    ∧ well_terminated (text_at (fs (after m w)) "downloaded_test_urls_urls.txt").
Proof.
  cbv zeta.
  refine (driver_ledger_after_run "lists/test_urls.txt" "out" 2 4 false None None
            (recovering 4 listed_store) "test_urls" three_urls _ _ _ _ _ _ _).
  - reflexivity.
  - reflexivity.
  - lia.
  - lia.
  - intros i. unfold recovering. cbn [launches].
    destruct (i <? 4)%nat; cbn; apply not_elem_of_nil.
  - right. reflexivity.
  - apply (bool_decide_unpack (NoDup (stripped_lines three_urls))). vm_compute. exact I.
Defined.

(** X20.  Nothing left.  With a readable item list whose references are
    all in the ledger and a chunk size of one at least, the driver returns
    at once: no batch, no pause, no effect of any kind, whatever the number
    of workers is. *)
Theorem driver_nothing_left (url_file output_dir : string)
    (batch_size max_workers : Z) (verbose : bool)
    (cookies_file cookies_from_browser : option string)
    (w : world) (file_base text : string) :
  file_base_of url_file = Ok file_base →
  fs w !! url_file = Some text →
  1 ≤ batch_size →
  (∀ url, url ∈ stripped_lines text →
          url ∈ ledger_of w ("downloaded_" +:+ file_base +:+ "_urls.txt")) →
  let m := batch_download_from_file url_file output_dir batch_size max_workers verbose
                                    cookies_file cookies_from_browser in
  run m w = Ok tt ∧ after m w = w.
Proof.
  intros Hbase Hfile Hsize Hall m.
  apply run_after.
  apply (nothing_left_run url_file output_dir batch_size max_workers verbose
           cookies_file cookies_from_browser w file_base text Hbase Hfile Hsize).
  apply filter_not_in_nil. exact Hall.
Qed.

Lemma driver_nothing_left_witness :
  let w := quiet (Exited 0 EmptyString EmptyString []) 0
                 {[ "lists/test_urls.txt" := three_urls;
                    "downloaded_test_urls_urls.txt" := three_urls ]} in
  let m := batch_download_from_file "lists/test_urls.txt" "out" 2 0 false None None in
  run m w = Ok tt ∧ after m w = w.
Proof.
  cbv zeta.
  refine (driver_nothing_left "lists/test_urls.txt" "out" 2 0 false None None
            (quiet (Exited 0 EmptyString EmptyString []) 0
                   {[ "lists/test_urls.txt" := three_urls;
                      "downloaded_test_urls_urls.txt" := three_urls ]})
            "test_urls" three_urls _ _ _ _).
  - reflexivity.
  - vm_compute. reflexivity.
  - lia.
  - intros url Hurl. unfold ledger_of.
    replace (fs _ !! _) with (Some three_urls) by (vm_compute; reflexivity).
    apply elem_of_list_to_set. exact Hurl.
Defined.

(** X21.  No worker.  With a readable item list that leaves something to
    fetch, a chunk size of one at least and a number of workers of zero or
    less, the driver raises [ValueError] in its first batch: it has entered
    the batch of the first slice and done nothing else, so nothing is
    fetched, recorded or written and no pause is taken. *)
Theorem driver_no_worker (url_file output_dir : string)
    (batch_size max_workers : Z) (verbose : bool)
    (cookies_file cookies_from_browser : option string)
    (w : world) (file_base text : string) :
  file_base_of url_file = Ok file_base →
  fs w !! url_file = Some text →
  1 ≤ batch_size →
  max_workers ≤ 0 →
  let m := batch_download_from_file url_file output_dir batch_size max_workers verbose
                                    cookies_file cookies_from_browser in
  let ledger := ledger_of w ("downloaded_" +:+ file_base +:+ "_urls.txt") in
  let remaining := filter (λ url, url ∉ ledger) (stripped_lines text) in
  remaining ≠ [] →
  run m w = Raise (ValueError "max_workers must be greater than 0")
  ∧ effects m w = [EBatch (take (Z.to_nat batch_size) remaining)]
  ∧ fs (after m w) = fs w.
Proof.
  intros Hbase Hfile Hsize Hw m ledger remaining Hsome.
  pose proof (no_worker_run url_file output_dir batch_size max_workers verbose
                cookies_file cookies_from_browser w file_base text Hbase Hfile Hsize
                Hw Hsome) as Hm.
  fold m ledger remaining in Hm.
  rewrite (effects_of _ _ _ _ [EBatch (take (Z.to_nat batch_size) remaining)] Hm)
    by reflexivity.
  destruct (run_after _ _ _ _ Hm) as [-> ->]. auto.
Qed.

Lemma driver_no_worker_witness :
  let m := batch_download_from_file "lists/test_urls.txt" "out" 1 0 false None None in
  run m resumed = Raise (ValueError "max_workers must be greater than 0")
  ∧ effects m resumed = [EBatch ["a"]]
  ∧ fs (after m resumed) = fs resumed.
Proof.
  cbv zeta.
  refine (driver_no_worker "lists/test_urls.txt" "out" 1 0 false None None
            resumed "test_urls" three_urls _ _ _ _ _);
    [reflexivity | reflexivity | lia | lia | vm_compute; discriminate].
Defined.

(** X22.  Failing before anything is done.  A missing item list makes the
    driver raise [FileNotFoundError], and a chunk size of zero makes it
    raise [ZeroDivisionError] once the list is read; in both cases the
    world is left as it was: no batch, no fetch, no pause, no file
    touched. *)
Theorem driver_fails_early (url_file output_dir : string)
    (batch_size max_workers : Z) (verbose : bool)
    (cookies_file cookies_from_browser : option string) (w : world) :
  let m := batch_download_from_file url_file output_dir batch_size max_workers verbose
                                    cookies_file cookies_from_browser in
  (fs w !! url_file = None →
   run m w = Raise (FileNotFoundError url_file) ∧ after m w = w)
  ∧ (is_Some (fs w !! url_file) → batch_size = 0 →
     run m w = Raise ZeroDivisionError ∧ after m w = w).
Proof.
  intros m. destruct (file_base_total url_file) as (file_base & Hbase).
  split.
  - intros Hmissing. apply run_after. unfold m, batch_download_from_file.
    rewrite (bind_ok _ _ w w file_base) by (unfold lift; rewrite Hbase; reflexivity).
    apply bind_raise. unfold read_urls, bind, read_text. rewrite Hmissing. reflexivity.
  - intros [text Hfile] ->. apply run_after. unfold m, batch_download_from_file.
    rewrite (bind_ok _ _ w w file_base) by (unfold lift; rewrite Hbase; reflexivity).
    rewrite (bind_ok _ _ _ _ _ (read_urls_eq _ _ _ Hfile)).
    rewrite (bind_ok _ _ _ _ _ (read_downloaded_urls_eq _ _)).
    apply bind_raise. reflexivity.
Qed.

Lemma driver_fails_early_witness :
  (run (batch_download_from_file "lists/train_urls.txt" "out" 50 10 false None None) resumed
   = Raise (FileNotFoundError "lists/train_urls.txt")
   ∧ after (batch_download_from_file "lists/train_urls.txt" "out" 50 10 false None None)
           resumed = resumed)
  ∧ (run (batch_download_from_file "lists/test_urls.txt" "out" 0 10 false None None) resumed
     = Raise ZeroDivisionError
     ∧ after (batch_download_from_file "lists/test_urls.txt" "out" 0 10 false None None)
             resumed = resumed).
Proof.
  split.
  - destruct (driver_fails_early "lists/train_urls.txt" "out" 50 10 false None None resumed)
      as [Hmissing _].
    apply Hmissing. vm_compute. reflexivity.
  - destruct (driver_fails_early "lists/test_urls.txt" "out" 0 10 false None None resumed)
      as [_ Hzero].
    apply Hzero; [exists three_urls; vm_compute; reflexivity | reflexivity].
Defined.

(** *** A negative chunk size *)

(** With a negative chunk size there are at most two slices, and they are
    empty. *)
Lemma batches_negative (urls : list string) (batch_size : Z) :
  batch_size < 0 →
  (length (batches urls batch_size) ≤ 2)%nat
  ∧ Forall (λ chunk, chunk = []) (batches urls batch_size).
Proof.
  intros Hneg. unfold batches, Py.range.
  set (len := Z.of_nat (length urls)).
  set (total := (len + batch_size - 1) / batch_size).
  assert (0 ≤ len) as Hlen by (unfold len; lia).
  pose proof (Z.div_mod (len + batch_size - 1) batch_size ltac:(lia)) as Hdiv.
  pose proof (Z.mod_neg_bound (len + batch_size - 1) batch_size Hneg) as Hmod.
  fold total in Hdiv.
  assert (total ≤ 2) as Htotal by nia.
  split; [rewrite !length_map, length_seq; lia|].
  apply Forall_forall. intros chunk Hchunk.
  apply list_elem_of_fmap in Hchunk as (i & -> & Hi).
  apply list_elem_of_fmap in Hi as (n & -> & Hn).
  apply elem_of_seq in Hn.
  assert (Z.of_nat n < total) as Hbelow by lia.
  assert (len + batch_size ≤ 0) as Hfew by nia.
  unfold Py.slice, Py.clamp_index. fold len.
  replace (Z.min ((Z.of_nat n + 1) * batch_size) len) with ((Z.of_nat n + 1) * batch_size)
    by nia.
  replace ((Z.of_nat n + 1) * batch_size <? 0) with true by (symmetry; apply Z.ltb_lt; nia).
  destruct (Z.ltb_spec (Z.of_nat n * batch_size) 0) as [Hstart|Hstart].
  - replace (Z.to_nat _) with O by nia. reflexivity.
  - replace (Z.to_nat _) with O by nia. reflexivity.
Qed.

Lemma driver_unfold_nonzero (url_file output_dir : string) (batch_size max_workers : Z)
    (verbose : bool) (cookies_file cookies_from_browser : option string)
    (w : world) (file_base text : string) :
  file_base_of url_file = Ok file_base →
  fs w !! url_file = Some text →
  batch_size ≠ 0 →
  let downloaded_file := "downloaded_" +:+ file_base +:+ "_urls.txt" in
  let remaining :=
    filter (λ url, url ∉ ledger_of w downloaded_file) (stripped_lines text) in
  batch_download_from_file url_file output_dir batch_size max_workers verbose
                           cookies_file cookies_from_browser w
  = (for_in (batches remaining batch_size)
            (process_chunk output_dir downloaded_file max_workers verbose
                           cookies_file cookies_from_browser) >> ret tt) w.
Proof.
  intros Hbase Hfile Hsize downloaded_file remaining.
  unfold batch_download_from_file.
  rewrite (bind_ok _ _ w w file_base) by (unfold lift; rewrite Hbase; reflexivity).
  rewrite (bind_ok _ _ _ _ _ (read_urls_eq _ _ _ Hfile)).
  rewrite (bind_ok _ _ _ _ _ (read_downloaded_urls_eq _ _)).
  fold downloaded_file. fold remaining.
  rewrite (bind_ok _ _ w w
             ((Z.of_nat (length remaining) + batch_size - 1) / batch_size)).
  2:{ unfold floordiv. replace (batch_size =? 0) with false
        by (symmetry; apply Z.eqb_neq; exact Hsize). reflexivity. }
  unfold batches. rewrite for_in_map. reflexivity.
Qed.

(** The loop over [n] empty slices: [n] empty batches, each followed by
    its pause. *)
Lemma loop_empty_slices (output_dir downloaded_file : string) (max_workers : Z)
    (verbose : bool) (cookies_file cookies_from_browser : option string)
    (chunks : list (list string)) :
  Forall (λ chunk, chunk = []) chunks →
  ∀ w, ∃ w' t,
    for_in chunks (process_chunk output_dir downloaded_file max_workers verbose
                                 cookies_file cookies_from_browser) w
    = (Ok None, w')
    ∧ trace w' = trace w ++ t
    ∧ fs w' = fs w
    ∧ view t = t
    ∧ batches_in t = chunks
    ∧ length (pauses_in t) = length chunks
    ∧ Forall (λ s, 5 ≤ s ≤ 60) (pauses_in t).
Proof.
  induction 1 as [|c chunks -> _ IH]; intros w.
  - exists w, []. cbn [for_in]. rewrite app_nil_r. repeat split. constructor.
  - set (w1 := emit (EBatch []) w).
    set (pause := 5 + Z.of_N (draws w1 (drawn w1)) mod (60 - 5 + 1)).
    set (w2 := emit (ESleep (Seconds pause)) (with_drawn (S (drawn w1)) w1)).
    assert (process_chunk output_dir downloaded_file max_workers verbose
                          cookies_file cookies_from_browser [] w = (Ok None, w2)) as Hstep.
    { unfold process_chunk.
      rewrite (bind_ok _ _ _ _ _
                 (download_batch_filtered output_dir downloaded_file verbose
                    cookies_file cookies_from_browser [] max_workers w eq_refl)).
      reflexivity. }
    destruct (IH w2) as (w' & t & Hloop & Ht & Hfs & Hview & Hbatches & Hlen & Hbounds).
    exists w', ([EBatch []; ESleep (Seconds pause)] ++ t). cbn [for_in].
    rewrite (bind_ok _ _ _ _ _ Hstep).
    split; [exact Hloop|].
    split; [rewrite Ht; cbn; rewrite <- !app_assoc; reflexivity|].
    split; [rewrite Hfs; reflexivity|].
    split; [rewrite view_app, Hview; reflexivity|].
    split; [unfold batches_in in *; rewrite omap_app, Hbatches; reflexivity|].
    rewrite (omap_app _ [EBatch []; ESleep (Seconds pause)] t : pauses_in (_ ++ t) = _).
    change (omap _ [EBatch []; ESleep (Seconds pause)]) with [pause].
    fold (pauses_in t).
    split; [cbn [app length]; rewrite Hlen; reflexivity|].
    cbn [app]. constructor; [|exact Hbounds].
    pose proof (Z.mod_pos_bound (Z.of_N (draws w1 (drawn w1))) (60 - 5 + 1)).
    unfold pause. lia.
Qed.

(** X23.  A negative chunk size.  With a readable item list and a chunk
    size below zero the driver returns normally without fetching anything,
    however much is left to fetch: what it enters are empty batches, two at
    most, each followed by its pause of 5 to 60 seconds, and the store is
    left as it was. *)
Theorem driver_negative_chunk_size (url_file output_dir : string)
    (batch_size max_workers : Z) (verbose : bool)
    (cookies_file cookies_from_browser : option string)
    (w : world) (text : string) :
  fs w !! url_file = Some text →
  batch_size < 0 →
  let m := batch_download_from_file url_file output_dir batch_size max_workers verbose
                                    cookies_file cookies_from_browser in
  run m w = Ok tt
  ∧ fs (after m w) = fs w
  ∧ fetches_in (effects m w) = []
  ∧ (length (batches_in (effects m w)) ≤ 2)%nat
  ∧ Forall (λ chunk, chunk = []) (batches_in (effects m w))
  ∧ length (pauses_in (effects m w)) = length (batches_in (effects m w))
  ∧ Forall (λ s, 5 ≤ s ≤ 60) (pauses_in (effects m w))
  ∧ view (effects m w) = effects m w.
Proof.
  intros Hfile Hneg m. destruct (file_base_total url_file) as (file_base & Hbase).
  set (downloaded_file := "downloaded_" +:+ file_base +:+ "_urls.txt").
  set (chunks := batches (filter (λ url, url ∉ ledger_of w downloaded_file)
                                 (stripped_lines text)) batch_size).
  destruct (batches_negative
              (filter (λ url, url ∉ ledger_of w downloaded_file) (stripped_lines text))
              batch_size Hneg) as [Hcount Hempty].
  fold chunks in Hcount, Hempty.
  destruct (loop_empty_slices output_dir downloaded_file max_workers verbose
              cookies_file cookies_from_browser chunks Hempty w)
    as (w' & t & Hloop & Ht & Hfs & Hview & Hbatches & Hlen & Hbounds).
  assert (m w = (Ok tt, w')) as Hm.
  { unfold m.
    rewrite (driver_unfold_nonzero url_file output_dir batch_size max_workers verbose
               cookies_file cookies_from_browser w file_base text Hbase Hfile
               ltac:(lia)).
    fold downloaded_file. fold chunks. unfold bind at 1. rewrite Hloop. reflexivity. }
  rewrite (effects_of _ _ _ _ _ Hm Ht).
  destruct (run_after _ _ _ _ Hm) as [-> ->].
  rewrite Hbatches, Hlen.
  split; [reflexivity|]. split; [exact Hfs|]. split; [|auto 10].
  rewrite <- Hview. unfold view, fetches_in.
  clear. induction t as [|e t IH]; [reflexivity|].
  cbn [List.filter]. destruct e as [| [|] | | | |]; cbn; exact IH.
Qed.

Lemma driver_negative_chunk_size_witness :
  let m := batch_download_from_file "lists/test_urls.txt" "out" (-2) 10 false None None in
  let w := recovering 0 {[ "lists/test_urls.txt" := three_urls;
                           "downloaded_test_urls_urls.txt" := "a" +:+ Py.LF +:+ "b" +:+ Py.LF ]} in
  run m w = Ok tt
  ∧ fs (after m w) = fs w
  ∧ fetches_in (effects m w) = []
  ∧ (length (batches_in (effects m w)) ≤ 2)%nat
  ∧ Forall (λ chunk, chunk = []) (batches_in (effects m w))
  ∧ length (pauses_in (effects m w)) = length (batches_in (effects m w))
  ∧ Forall (λ s, 5 ≤ s ≤ 60) (pauses_in (effects m w))
  ∧ view (effects m w) = effects m w.
Proof.
  cbv zeta.
  refine (driver_negative_chunk_size "lists/test_urls.txt" "out" (-2) 10 false None None
            (recovering 0 {[ "lists/test_urls.txt" := three_urls;
                             "downloaded_test_urls_urls.txt"
                             := "a" +:+ Py.LF +:+ "b" +:+ Py.LF ]})
            three_urls _ _);
    [vm_compute; reflexivity | lia].
Defined.

(** ** The commands of a fetch *)

Lemma commands_in_app (t1 t2 : list event) :
  commands_in (t1 ++ t2) = commands_in t1 ++ commands_in t2.
Proof. apply omap_app. Qed.

Section Commands.
Variables (url video_id output_template : string) (retry_count : Z).
Variables (cookies_file cookies_from_browser : option string).

Let body := attempt_body url video_id output_template retry_count
                         cookies_file cookies_from_browser.
Let primary := primary_cmd url output_template cookies_file cookies_from_browser.
Let fallback := fallback_cmd url output_template cookies_file cookies_from_browser.

(** One attempt launches the primary command, and the attempt numbered 1
    may launch the fallback after it. *)
Lemma attempt_body_commands (attempt : Z) (w : world) :
  ∃ r w' t,
    body attempt w = (Ok r, w')
    ∧ trace w' = trace w ++ t
    ∧ (commands_in t = [primary] ∨ (attempt = 1 ∧ commands_in t = [primary; fallback])).
Proof.
  unfold body, attempt_body, try_except, attempt_try, alternate, backoff, time_sleep,
    mark, draw, bind, popen, ret.
  destruct (launches w (launched w)) as [rc out err files|e] eqn:L0; cbn [negb];
    [destruct (rc =? 0); cbn [negb];
     [|destruct (auth_branch _ _ out err);
       [|destruct (unavailable_branch out err);
         [|destruct (attempt =? 1) eqn:Hone;
           [apply Z.eqb_eq in Hone;
            cbn [launches launched emit with_launched with_fs];
            destruct (launches w (S (launched w))) as [rc' out' err' files'|e'] eqn:L1;
            [destruct (rc' =? 0)|]|]]]]|];
    try (destruct (attempt <? retry_count - 1) eqn:Hlt);
    (do 3 eexists; split; [reflexivity|]; split; [cbn; rewrite <- ?app_assoc; reflexivity|]).
  all: cbn [commands_in omap]; auto.
Qed.

(** The retry loop from attempt [k] on: only the attempt numbered 1 can
    launch the fallback, as the launch after its own first. *)
Lemma retry_loop_commands (n : nat) :
  ∀ (k : nat) (w : world),
    ∃ r w' t,
      for_in (map Z.of_nat (seq k n)) body w = (Ok r, w')
      ∧ trace w' = trace w ++ t
      ∧ ∀ i cmd, commands_in t !! i = Some cmd →
                 cmd = primary ∨ ((i + k = 2)%nat ∧ (k ≤ 1)%nat ∧ cmd = fallback).
Proof.
  induction n as [|n IH]; intros k w.
  - exists None, w, []. cbn [seq map for_in]. rewrite app_nil_r.
    split; [reflexivity|]. split; [reflexivity|]. intros i cmd Hi. discriminate Hi.
  - cbn [seq map for_in].
    destruct (attempt_body_commands (Z.of_nat k) w) as (r1 & w1 & t1 & Hbody & Ht1 & Hcmd1).
    rewrite (bind_ok _ _ _ _ _ Hbody).
    assert (∀ i cmd, commands_in t1 !! i = Some cmd →
                     cmd = primary ∨ ((i + k = 2)%nat ∧ (k ≤ 1)%nat ∧ cmd = fallback))
      as Hfirst.
    { intros i cmd Hi. destruct Hcmd1 as [Hc | [Hk Hc]]; rewrite Hc in Hi.
      - destruct i as [|i]; [|discriminate Hi]. injection Hi as <-. left. reflexivity.
      - destruct i as [|[|i]]; [| |discriminate Hi]; injection Hi as <-;
          [left; reflexivity | right; repeat split; lia]. }
    destruct r1 as [v|].
    + exists (Some v), w1, t1. auto.
    + destruct (IH (S k) w1) as (r & w' & t2 & Hloop & Ht2 & Hrest).
      exists r, w', (t1 ++ t2). rewrite Hloop.
      split; [reflexivity|]. split; [rewrite Ht2, Ht1, app_assoc; reflexivity|].
      intros i cmd Hi. rewrite commands_in_app in Hi.
      apply lookup_app_Some in Hi as [Hi | [Hlen Hi]]; [apply Hfirst, Hi|].
      destruct (Hrest _ _ Hi) as [Hp | (Hidx & Hk & Hf)]; [left; exact Hp|].
      right. assert (k = O) as -> by lia.
      destruct Hcmd1 as [Hc | [Hone _]]; [|lia].
      rewrite Hc in Hlen, Hidx. cbn [length] in Hlen, Hidx.
      repeat split; [lia | lia | exact Hf].
Qed.
End Commands.

(** X24.  The commands of a fetch.  Whatever the environment does, every
    process a fetch launches runs the primary command for this reference -
    the downloader on the reference, format 313, writing to
    [<output_dir>/<ID>.%(ext)s], with the cookies options supplied - except
    that the third launch may run the fallback command instead, which
    differs in the format and the extractor argument.  No other command is
    ever launched. *)
Theorem fetch_commands (url output_dir : string) (retry_count : Z) (verbose : bool)
    (cookies_file cookies_from_browser : option string) (w : world) (video_id : string) :
  extract_video_id_from_url url = Ok video_id →
  let m := download_video url output_dir retry_count verbose
                          cookies_file cookies_from_browser in
  let output_template := OsPath.join output_dir (video_id +:+ ".%(ext)s") in
  ∀ i cmd,
    commands_in (effects m w) !! i = Some cmd →
    cmd = primary_cmd url output_template cookies_file cookies_from_browser
    ∨ (i = 2%nat
       ∧ cmd = fallback_cmd url output_template cookies_file cookies_from_browser).
Proof.
  intros Hid m output_template i cmd.
  assert (∃ r w' t, m w = (Ok r, w')
                    ∧ trace w' = trace w ++ EFetch url :: t
                    ∧ ∀ i cmd, commands_in t !! i = Some cmd →
                        cmd = primary_cmd url output_template cookies_file
                                          cookies_from_browser
                        ∨ ((i + 0 = 2)%nat ∧ (0 ≤ 1)%nat
                           ∧ cmd = fallback_cmd url output_template cookies_file
                                                cookies_from_browser))
    as (r & w' & t & Hm & Ht & Hcmds).
  { unfold m, download_video.
    rewrite (bind_ok _ _ w (emit (EFetch url) w) tt) by reflexivity.
    rewrite (bind_ok _ _ _ (emit (EFetch url) w) video_id)
      by (unfold lift; rewrite Hid; reflexivity).
    destruct (existence_check_pure url output_dir video_id (emit (EFetch url) w))
      as ([r|] & Hcheck); rewrite (bind_ok _ _ _ _ _ Hcheck).
    - exists (Some r), (emit (EFetch url) w), [].
      split; [reflexivity|]. split; [reflexivity|]. intros j c Hj. discriminate Hj.
    - destruct (retry_loop_commands url video_id output_template retry_count
                  cookies_file cookies_from_browser (Z.to_nat retry_count) 0
                  (emit (EFetch url) w))
        as (r & w' & t & Hloop & Ht & Hcmds).
      exists r, w', t. split; [exact Hloop|].
      split; [rewrite Ht; cbn; rewrite <- app_assoc; reflexivity | exact Hcmds]. }
  rewrite (effects_of _ _ _ _ _ Hm Ht).
  change (commands_in (EFetch url :: t)) with (commands_in t).
  intros Hi. destruct (Hcmds i cmd Hi) as [Hp | (Hidx & _ & Hf)]; [left; exact Hp|].
  right. split; [lia | exact Hf].
Qed.

Lemma fetch_commands_witness :
  let url := "https://www.youtube.com/watch?v=ABC" in
  let m := download_video url "out" 3 false (Some "cookies.txt") None in
  let primary := primary_cmd url "out/ABC.%(ext)s" (Some "cookies.txt") None in
  let fallback := fallback_cmd url "out/ABC.%(ext)s" (Some "cookies.txt") None in
  commands_in (effects m (recovering 3 ∅)) !! 2%nat = Some fallback
  ∧ (fallback = primary ∨ (2 = 2 ∧ fallback = fallback))%nat.
Proof.
  cbv zeta.
  assert (commands_in (effects (download_video "https://www.youtube.com/watch?v=ABC" "out"
                                  3 false (Some "cookies.txt") None) (recovering 3 ∅))
          !! 2%nat
          = Some (fallback_cmd "https://www.youtube.com/watch?v=ABC" "out/ABC.%(ext)s"
                               (Some "cookies.txt") None)) as Hthird
    by (vm_compute; reflexivity).
  split; [exact Hthird|].
  exact (fetch_commands "https://www.youtube.com/watch?v=ABC" "out" 3 false
           (Some "cookies.txt") None (recovering 3 ∅) "ABC" eq_refl 2%nat _ Hthird).
Defined.

(** ** The effort of a batch and of a run *)

Lemma length_commands_in (t : list event) :
  length (commands_in t) = length (invocations t).
Proof.
  induction t as [|e t IH]; [reflexivity|].
  destruct e; cbn; unfold commands_in, invocations in IH; rewrite ?IH; reflexivity.
Qed.

Lemma bounded_effort_mono (t : list event) (l1 l2 : list string) :
  (length l1 ≤ length l2)%nat → bounded_effort t l1 → bounded_effort t l2.
Proof. intros Hlen [Hi Hs]. split; lia. Qed.

Lemma effort_of_batch (urls : list string) (output_dir downloaded_file : string)
    (max_workers : Z) (verbose : bool) (cookies_file cookies_from_browser : option string)
    (w : world) :
  bounded_effort
    (effects (download_batch urls output_dir downloaded_file max_workers verbose
                             cookies_file cookies_from_browser) w)
    (filter (λ url, url ∉ ledger_of w downloaded_file) urls).
Proof.
  set (m := download_batch urls output_dir downloaded_file max_workers verbose
                           cookies_file cookies_from_browser).
  destruct (decide (filter (λ url, url ∉ ledger_of w downloaded_file) urls = []))
    as [Hnone|Hsome].
  - pose proof (download_batch_filtered output_dir downloaded_file verbose
                  cookies_file cookies_from_browser urls max_workers w Hnone) as Hm.
    fold m in Hm. rewrite (effects_of _ _ _ _ [EBatch urls] Hm) by reflexivity.
    split; cbn; lia.
  - destruct (decide (1 ≤ max_workers)) as [Hw|Hw].
    + destruct (download_batch_summary urls output_dir downloaded_file max_workers
                  verbose cookies_file cookies_from_browser w Hw Hsome)
        as (s & f & w' & t & fetched & Hm & Ht & _ & Hperm & _ & _ & _ & Heffort).
      fold m in Hm.
      rewrite (effects_of _ _ _ _
                 ([EBatch urls] ++ t ++ [EWrite (Py.replace "downloaded_" "failed_"
                                                   downloaded_file) (failed_lines f)]) Hm)
        by (cbn; rewrite Ht, <- !app_assoc; reflexivity).
      apply (bounded_effort_perm _ _ _ Hperm) in Heffort. destruct Heffort as [Hi Hs].
      split.
      * rewrite !invocations_app, !length_app.
        change (length (invocations [EBatch urls])) with O.
        change (length (invocations [EWrite _ _])) with O. lia.
      * rewrite !sleep_bases_app, !length_app.
        change (length (sleep_bases [EBatch urls])) with O.
        change (length (sleep_bases [EWrite _ _])) with O. lia.
    + pose proof (download_batch_no_worker urls output_dir downloaded_file max_workers
                    verbose cookies_file cookies_from_browser w ltac:(lia) Hsome) as Hm.
      fold m in Hm. rewrite (effects_of _ _ _ _ [EBatch urls] Hm) by reflexivity.
      split; cbn; lia.
Qed.

(** X25.  The effort of a batch.  Whatever the environment does and
    whatever the number of workers is, a batch launches at most four
    processes and takes at most two back-off sleeps for each reference of
    its list that the ledger lacks: the retry count of its fetches is
    three and cannot be set from outside. *)
Theorem batch_effort (urls : list string) (output_dir downloaded_file : string)
    (max_workers : Z) (verbose : bool) (cookies_file cookies_from_browser : option string)
    (w : world) :
  let m := download_batch urls output_dir downloaded_file max_workers verbose
                          cookies_file cookies_from_browser in
  let urls_to_download := filter (λ url, url ∉ ledger_of w downloaded_file) urls in
  (length (commands_in (effects m w)) ≤ 4 * length urls_to_download)%nat
  ∧ (length (sleep_bases (effects m w)) ≤ 2 * length urls_to_download)%nat.
Proof.
  intros m urls_to_download.
  destruct (effort_of_batch urls output_dir downloaded_file max_workers verbose
              cookies_file cookies_from_browser w) as [Hi Hs].
  fold m urls_to_download in Hi, Hs. rewrite length_commands_in. auto.
Qed.

Section DriverEffort.
Variables (output_dir downloaded_file : string) (max_workers : Z) (verbose : bool).
Variables (cookies_file cookies_from_browser : option string).

Let step := process_chunk output_dir downloaded_file max_workers verbose
                          cookies_file cookies_from_browser.

Lemma step_effort (chunk : list string) (w : world) :
  bounded_effort (effects (step chunk) w) chunk.
Proof.
  pose proof (effort_of_batch chunk output_dir downloaded_file max_workers
                verbose cookies_file cookies_from_browser w) as Heffort.
  apply (bounded_effort_mono _ _ chunk (length_filter _ _)) in Heffort.
  unfold step, process_chunk.
  set (batch := download_batch chunk output_dir downloaded_file max_workers verbose
                               cookies_file cookies_from_browser) in *.
  rewrite effects_bind_eq.
  - rewrite <- (app_nil_r chunk). apply bounded_effort_app; [exact Heffort|].
    destruct (batch w) as [[[]|e] w1]; [|split; cbn; lia].
    erewrite effects_app; [|cbn; reflexivity]. split; cbn; lia.
  - unfold batch, download_batch. apply emits_bind; [apply emits_mark; exact I|].
    intros _. apply emits_download_batch. intros; exact I.
  - intros _. apply emits_bind.
    + unfold random_randint. apply emits_bind; [apply emits_draw|].
      intros r. apply emits_ret.
    + intros s. apply emits_bind; [apply emits_mark; exact I|].
      intros _. apply emits_ret.
Qed.

Lemma loop_effort (chunks : list (list string)) :
  ∀ w, bounded_effort (effects (for_in chunks step) w) (concat chunks).
Proof.
  induction chunks as [|c chunks IH]; intros w.
  - cbn [for_in]. rewrite effects_ret. split; cbn; lia.
  - cbn [for_in concat]. rewrite effects_bind_eq.
    2:{ apply emits_step. }
    2:{ intros [v|]; [apply emits_ret|]. apply emits_for_in. intros. apply emits_step. }
    apply bounded_effort_app; [apply step_effort|].
    fold step. destruct (step c w) as [[[v|]|e] w'].
    + rewrite effects_ret. split; cbn; lia.
    + apply IH.
    + split; cbn; lia.
Qed.
End DriverEffort.

(** X26.  The effort of a run.  With a readable item list and a chunk
    size of one at least, whatever the environment does, the driver
    launches at most four processes and takes at most two back-off sleeps
    for each reference of the list that the ledger lacked at the start. *)
Theorem driver_effort (url_file output_dir : string)
    (batch_size max_workers : Z) (verbose : bool)
    (cookies_file cookies_from_browser : option string)
    (w : world) (file_base text : string) :
  file_base_of url_file = Ok file_base →
  fs w !! url_file = Some text →
  1 ≤ batch_size →
  let m := batch_download_from_file url_file output_dir batch_size max_workers verbose
                                    cookies_file cookies_from_browser in
  let ledger := ledger_of w ("downloaded_" +:+ file_base +:+ "_urls.txt") in
  let remaining := filter (λ url, url ∉ ledger) (stripped_lines text) in
  (length (commands_in (effects m w)) ≤ 4 * length remaining)%nat
  ∧ (length (sleep_bases (effects m w)) ≤ 2 * length remaining)%nat.
Proof.
  intros Hbase Hfile Hsize m ledger remaining.
  rewrite length_commands_in. unfold m.
  rewrite (driver_loop_effects url_file output_dir batch_size max_workers verbose
             cookies_file cookies_from_browser w file_base text Hbase Hfile Hsize).
  fold ledger. fold remaining.
  rewrite <- (concat_batches remaining batch_size Hsize) at 2 4.
  apply loop_effort.
Qed.

Lemma driver_effort_witness :
  let m := batch_download_from_file "lists/test_urls.txt" "out" 1 4 false None None in
  (length (commands_in (effects m resumed)) ≤ 4 * 2)%nat
  ∧ (length (sleep_bases (effects m resumed)) ≤ 2 * 2)%nat.
Proof.
  cbv zeta.
  refine (driver_effort "lists/test_urls.txt" "out" 1 4 false None None
            resumed "test_urls" three_urls _ _ _);
    [reflexivity | reflexivity | lia].
Defined.
